(** * Copy-trade engine (bot/copytrade-base.js): shallow embedding and properties

    The engine is one sequential loop: fetch the chain height, walk a range of
    blocks, walk the transactions of the watched wallet, walk the Transfer logs
    of each receipt, gate each signal and mirror it through a swap quote.

    Modelling choices.
    - JS numbers that hold block heights, millisecond clocks and configured
      integers are [Z]; BigInt values are [Z] (BigInt division truncates, so it
      is [Z.quot]).
    - Strings are [string]; an absent or falsy JS string is the empty string,
      which is what [a || ''] makes of it.
    - The mutable [state] object is threaded explicitly.  The calls that
      leave the process (block fetch, balance and allowance reads, quote
      request, approval, transaction, receipt wait, file write) and every push
      on [state.trades] are appended to a trace of events, in program order.
    - The answers of the outside world are inputs: an [Oracle] per log entry
      holds what each external call made while that entry is processed would
      return ([None] when the call throws).
    - [persistState] also stamps [lastRunAt] with the wall clock; the field is
      never read back by the engine and is left out.  A write of the state
      file is one event: it happens or it does not.
    - The configuration is taken as [run] has it after parsing and clamping,
      with integral values.  Throws that would leave the [for] loops (a
      malformed log object, a failing file write) are not modelled. *)

From Stdlib Require Import ZArith List String Ascii DecimalString Bool Lia Arith.
Import ListNotations.
Local Open Scope string_scope.
Local Open Scope list_scope.
Local Open Scope Z_scope.

(* ------------------------------------------------------------------ *)
(** ** Strings *)

Definition lower_ascii (c : ascii) : ascii :=
  let n := nat_of_ascii c in
  if ((65 <=? n) && (n <=? 90))%nat then ascii_of_nat (n + 32) else c.

Fixpoint toLowerCase (s : string) : string :=
  match s with
  | EmptyString => EmptyString
  | String c r => String (lower_ascii c) (toLowerCase r)
  end.

(** [normalizeAddr(a) = String(a || '').toLowerCase()] *)
Definition normalizeAddr (a : string) : string := toLowerCase a.

(** [s.slice(n)] for a non-negative [n] *)
Fixpoint slice_from (n : nat) (s : string) : string :=
  match n, s with
  | O, _ => s
  | S _, EmptyString => EmptyString
  | S k, String _ r => slice_from k r
  end.

Fixpoint repeat_string (n : nat) (s : string) : string :=
  match n with
  | O => EmptyString
  | S k => (s ++ repeat_string k s)%string
  end.

Definition is_hex_digit (c : ascii) : bool :=
  let n := nat_of_ascii c in
  (((48 <=? n) && (n <=? 57)) || ((97 <=? n) && (n <=? 102))
   || ((65 <=? n) && (n <=? 70)))%nat.

Fixpoint all_hex (s : string) : bool :=
  match s with
  | EmptyString => true
  | String c r => is_hex_digit c && all_hex r
  end.

(** [/^0x[0-9a-fA-F]{40}$/.test(a)] *)
Definition isHexAddress (a : string) : bool :=
  match a with
  | String "0"%char (String "x"%char r) => (Nat.eqb (String.length r) 40) && all_hex r
  | _ => false
  end.

(** [addr => `0x${'0'.repeat(24)}${normalizeAddr(addr).slice(2)}`] *)
Definition topicForAddress (addr : string) : string :=
  ("0x" ++ repeat_string 24 "0" ++ slice_from 2 (normalizeAddr addr))%string.

Definition ETH_PLACEHOLDER : string := "0xeeeeeeeeeeeeeeeeeeeeeeeeeeeeeeeeeeeeeeee".

Definition TRANSFER_TOPIC : string :=
  "0xddf252ad1be2c89b69c2b068fc378daa952ba7f163c4a11628f55a4df523b3ef".

(** viem's [maxUint256] *)
Definition maxUint256 : Z := 2 ^ 256 - 1.

(** [arr.includes(x)] on an array of strings *)
Definition includes (l : list string) (x : string) : bool :=
  existsb (String.eqb x) l.

(** [arr.slice(-n)]: the last [n] elements *)
Definition slice_last {A} (n : Z) (l : list A) : list A :=
  skipn (Z.to_nat (Z.of_nat (List.length l) - n)) l.

(** [arr[i]] on an array of strings, [undefined] read as the empty string
    (it is only ever compared with non-empty constants) *)
Definition topic_at (l : list string) (i : nat) : string := nth i l "".

(* ------------------------------------------------------------------ *)
(** ** Data model *)

Inductive Side := buy | sell.

Definition side_string (s : Side) : string :=
  match s with buy => "buy" | sell => "sell" end.

Record Trade := mkTrade {
  tsMs : Z;
  side : Side;
  dryRun : bool;
  token : string;
  watchedHash : string;
  signalAmount : Z;
  sellTokenAmount : option Z;
  quoteBuyAmount : option string;
  followerTx : option string
}.

(** The in-memory [state] object, and also the shape of the state file. *)
Record State := mkState {
  seen : list string;
  trades : list Trade;
  lastScannedBlock : option Z
}.

Record Config := mkConfig {
  WATCH_ADDRESS : string;
  FOLLOWER : string;                 (* account.address *)
  DRY_RUN : bool;
  TRADE_WEI : Z;                     (* parseEther(TRADE_ETH_AMOUNT) *)
  SLIPPAGE_BPS : Z;
  COOLDOWN_SECONDS : Z;
  MAX_TRADES_PER_HOUR : Z;
  START_LOOKBACK_BLOCKS : Z;
  MAX_BLOCK_SCAN_PER_CYCLE : Z;
  AUTO_SELL_ENABLED : bool;
  AUTO_SELL_BPS : Z;
  MIN_SELL_TOKEN_RAW : Z;
  IGNORE_TOKENS : list string
}.

(** [quote.transaction.value]: absent, not a BigInt literal, or a number *)
Inductive QValue := VAbsent | VInvalid | VNum (v : Z).

Record Quote := mkQuote {
  q_to : string;                     (* quote?.transaction?.to *)
  q_data : string;                   (* quote?.transaction?.data *)
  q_value : QValue;
  q_buyAmount : option string;
  q_issues_allowance_spender : string;
  q_allowanceTarget : string;
  q_allowanceSpender : string
}.

(** What the outside world answers while one log entry is processed. *)
Record Oracle := mkOracle {
  o_now_gate : Z;                    (* Date.now() in isTradeAllowedByRate *)
  o_quote : option Quote;            (* first get0xQuote *)
  o_balance : option Z;              (* balanceOf(follower) *)
  o_allowance : option Z;            (* allowance(follower, spender) *)
  o_approve : option string;         (* writeContract approve -> tx hash *)
  o_approve_receipt : option bool;   (* receipt of the approval: success? *)
  o_requote : option Quote;          (* get0xQuote after an approval *)
  o_send : option string;            (* sendTransaction -> tx hash *)
  o_receipt : option bool;           (* waitForTransactionReceipt *)
  o_now_record : Z                   (* Date.now() when the trade is pushed *)
}.

Record Log := mkLog {
  lg_topics : list string;
  lg_transactionHash : string;
  lg_address : string;
  lg_data : option Z                 (* BigInt(lg.data || '0x0'), None: throws *)
}.

Record Receipt := mkReceipt {
  r_success : bool;                  (* receipt.status === 'success' *)
  r_logs : list (Log * Oracle)
}.

Record Tx := mkTx {
  tx_from : string;
  tx_hash : string;
  tx_receipt : option Receipt        (* getTransactionReceipt, None: throws or null *)
}.

(** An element of [block.transactions]: a bare hash or a full object. *)
Inductive TxItem := TxHashOnly (h : string) | TxObj (t : Tx).

(** One poll of the chain: the height and, per height, the block or a failure. *)
Record World := mkWorld {
  w_latest : option Z;               (* getBlockNumber, None: throws *)
  w_getBlock : Z -> option (list TxItem)
}.

(** What the engine does to the outside, tagged for a signal with the block
    being scanned and the signal's dedup key. *)
Inductive Action :=
| ADetected (s : Side)                                   (* log '... signal detected' *)
| AQuote (sellToken buyToken : string) (sellAmount : Z)  (* get0xQuote *)
| ABalanceOf (tok owner : string)
| AAllowance (tok owner spender : string)
| AApprove (tok spender : string) (amount : Z)
| ASend (to data : string) (value : Z)
| AWait (hash : string)                                  (* waitForTransactionReceipt *)
| ATrade (t : Trade).                                    (* state.trades.push *)

Inductive Event :=
| EvGetBlock (b : Z)
| EvSignal (b : Z) (key : string) (a : Action)
| EvPersist (snapshot : State).                          (* writeJsonSafe *)

(* ------------------------------------------------------------------ *)
(** ** The engine monad: state, trace, and [continue]

    A computation takes the state and returns the new state, the events it
    caused and a value; [None] means the current loop iteration was left
    early, by [continue] or by a throw that the surrounding [try] catches. *)

Definition M (A : Type) : Type := State -> option A * State * list Event.

Definition ret {A} (a : A) : M A := fun s => (Some a, s, []).

Definition bind {A B} (m : M A) (f : A -> M B) : M B := fun s =>
  match m s with
  | (Some a, s1, t1) =>
      match f a s1 with (r, s2, t2) => (r, s2, t1 ++ t2) end
  | (None, s1, t1) => (None, s1, t1)
  end.

Declare Scope engine_scope.
Delimit Scope engine_scope with engine.
Notation "x <- m ;; k" := (bind m (fun x => k))
  (at level 61, m at next level, right associativity) : engine_scope.
Notation "m ;; k" := (bind m (fun _ => k))
  (at level 61, right associativity) : engine_scope.
Local Open Scope engine_scope.

Definition skip {A} : M A := fun s => (None, s, []).
Definition get : M State := fun s => (Some s, s, []).
Definition guard (b : bool) : M unit := if b then ret tt else skip.
(** a value that may be missing, without an external call *)
Definition lift {A} (o : option A) : M A := fun s => (o, s, []).
(** an external call: the event is emitted, then the answer is used *)
Definition call {A} (e : Event) (answer : option A) : M A := fun s => (answer, s, [e]).
Definition emit (e : Event) : M unit := fun s => (Some tt, s, [e]).

(** one iteration of a [for] loop: leaving it early does not leave the loop *)
Definition iteration (m : M unit) : M unit := fun s =>
  match m s with (_, s1, t1) => (Some tt, s1, t1) end.

Fixpoint for_each {A} (l : list A) (body : A -> M unit) : M unit :=
  match l with
  | [] => ret tt
  | x :: r => iteration (body x) ;; for_each r body
  end.

Definition state_of {A} (r : option A * State * list Event) : State := snd (fst r).
Definition trace_of {A} (r : option A * State * list Event) : list Event := snd r.
Definition value_of {A} (r : option A * State * list Event) : option A := fst (fst r).

(* ------------------------------------------------------------------ *)
(** ** State store *)

(** [buildState]: the file's content, or the empty state when there is none *)
Definition buildState (file : option State) : State :=
  match file with
  | Some f => f
  | None => mkState [] [] None
  end.

Definition trimmed (s : State) : State :=
  mkState (slice_last 20000 (seen s)) (slice_last 2000 (trades s)) (lastScannedBlock s).

(** [persistState(STATE_FILE, state)] *)
Definition persistState : M unit := fun s => (Some tt, s, [EvPersist (trimmed s)]).

(** [state.seen.push(dedupKey)] *)
Definition push_seen (key : string) : M unit := fun s =>
  (Some tt, mkState (seen s ++ [key]) (trades s) (lastScannedBlock s), []).

(** [state.trades.push(t)] *)
Definition push_trade (b : Z) (key : string) (t : Trade) : M unit := fun s =>
  (Some tt, mkState (seen s) (trades s ++ [t]) (lastScannedBlock s),
   [EvSignal b key (ATrade t)]).

(** [state.lastScannedBlock = b] *)
Definition set_cursor (b : Z) : M unit := fun s =>
  (Some tt, mkState (seen s) (trades s) (Some b), []).

(** [state.trades.push(t); persistState(STATE_FILE, state);] *)
Definition record_trade (b : Z) (key : string) (t : Trade) : M unit :=
  push_trade b key t ;; persistState.

(** [state.lastScannedBlock = b; persistState(STATE_FILE, state);] *)
Definition advance_cursor (b : Z) : M unit :=
  set_cursor b ;; persistState.

(* ------------------------------------------------------------------ *)
(** ** Guardrail: rate window and cooldown *)

Inductive Gate := GateOk | GateMaxTrades | GateCooldown.

Definition HOUR_MS : Z := 60 * 60 * 1000.

(** [state.trades.filter((t) => t.tsMs >= hourAgo)] with [hourAgo = now - 3600000] *)
Definition recent (now : Z) (ts : list Trade) : list Trade :=
  filter (fun t => now - HOUR_MS <=? tsMs t) ts.

Definition isTradeAllowedByRate (st : State) (now maxTradesPerHour cooldownSec : Z) : Gate :=
  if maxTradesPerHour <=? Z.of_nat (List.length (recent now (trades st))) then GateMaxTrades
  else match rev (trades st) with
       | lastT :: _ =>
           if now - tsMs lastT <? cooldownSec * 1000 then GateCooldown else GateOk
       | [] => GateOk
       end.

Definition gate_ok (g : Gate) : bool :=
  match g with GateOk => true | _ => false end.

(* ------------------------------------------------------------------ *)
(** ** The scan loop of [run] *)

(** [`${hash}:${token}:${side}`] *)
Definition dedupKey (hash tok : string) (s : Side) : string :=
  (hash ++ ":" ++ tok ++ ":" ++ side_string s)%string.

Definition nonempty (s : string) : bool := negb (s =? "")%string.

(** [a || b] on strings *)
Definition or_else (a b : string) : string := if nonempty a then a else b.

(** [quote?.issues?.allowance?.spender || quote?.allowanceTarget || quote?.allowanceSpender] *)
Definition quote_spender (q : Quote) : string :=
  or_else (q_issues_allowance_spender q) (or_else (q_allowanceTarget q) (q_allowanceSpender q)).

(** [BigInt(String(quote?.transaction?.value ?? dflt))] *)
Definition quote_value (q : Quote) (dflt : Z) : option Z :=
  match q_value q with
  | VAbsent => Some dflt
  | VInvalid => None
  | VNum v => Some v
  end.

(** [for (let b = fromBlock; b <= toBlock; b++)] *)
Fixpoint range_from (from : Z) (n : nat) : list Z :=
  match n with
  | O => []
  | S k => from :: range_from (from + 1) k
  end.

Definition block_range (fromBlock toBlock : Z) : list Z :=
  range_from fromBlock (Z.to_nat (toBlock - fromBlock + 1)).

Section Engine.

Variable cfg : Config.

Definition watch : string := normalizeAddr (WATCH_ADDRESS cfg).
Definition watchTopic : string := topicForAddress (WATCH_ADDRESS cfg).

Definition ensureAllowance (b : Z) (key : string) (o : Oracle)
    (tok spender : string) (requiredAmount : Z) : M (option string) :=
  allowance <- call (EvSignal b key (AAllowance tok (FOLLOWER cfg) spender)) (o_allowance o) ;;
  if requiredAmount <=? allowance then ret None
  else
    approveTx <- call (EvSignal b key (AApprove tok spender maxUint256)) (o_approve o) ;;
    ok <- call (EvSignal b key (AWait approveTx)) (o_approve_receipt o) ;;
    if ok : bool then ret (Some approveTx) else skip.

(** the [side === 'buy'] branch *)
Definition mirror_buy (b : Z) (key : string) (tx : Tx) (lg : Log) (o : Oracle)
    (signalAmount : Z) : M unit :=
  let sellAmountWei := TRADE_WEI cfg in
  emit (EvSignal b key (ADetected buy)) ;;
  quote <- call (EvSignal b key (AQuote ETH_PLACEHOLDER (lg_address lg) sellAmountWei))
                (o_quote o) ;;
  let txTo := q_to quote in
  let txData := q_data quote in
  guard (nonempty txTo && nonempty txData) ;;
  if DRY_RUN cfg then
    record_trade b key
      {| tsMs := o_now_record o; side := buy; dryRun := true;
         token := lg_address lg; watchedHash := tx_hash tx;
         signalAmount := signalAmount; sellTokenAmount := None;
         quoteBuyAmount := q_buyAmount quote; followerTx := None |}
  else
    value <- lift (quote_value quote sellAmountWei) ;;
    sent <- call (EvSignal b key (ASend txTo txData value)) (o_send o) ;;
    _ <- call (EvSignal b key (AWait sent)) (o_receipt o) ;;
    record_trade b key
      {| tsMs := o_now_record o; side := buy; dryRun := false;
         token := lg_address lg; watchedHash := tx_hash tx;
         signalAmount := signalAmount; sellTokenAmount := None;
         quoteBuyAmount := None; followerTx := Some sent |}.

(** the [side === 'sell'] part of the loop body *)
Definition mirror_sell (b : Z) (key : string) (tx : Tx) (lg : Log) (o : Oracle)
    (signalAmount : Z) : M unit :=
  followerTokenBalance <-
    call (EvSignal b key (ABalanceOf (lg_address lg) (FOLLOWER cfg))) (o_balance o) ;;
  guard (0 <? followerTokenBalance) ;;
  let followerSellAmount := Z.quot (followerTokenBalance * AUTO_SELL_BPS cfg) 10000 in
  guard (MIN_SELL_TOKEN_RAW cfg <=? followerSellAmount) ;;
  emit (EvSignal b key (ADetected sell)) ;;
  quote <- call (EvSignal b key (AQuote (lg_address lg) ETH_PLACEHOLDER followerSellAmount))
                (o_quote o) ;;
  if DRY_RUN cfg then
    record_trade b key
      {| tsMs := o_now_record o; side := sell; dryRun := true;
         token := lg_address lg; watchedHash := tx_hash tx;
         signalAmount := signalAmount; sellTokenAmount := Some followerSellAmount;
         quoteBuyAmount := q_buyAmount quote; followerTx := None |}
  else
    let spender := quote_spender quote in
    quote' <-
      (if nonempty spender && isHexAddress spender then
         approveTx <- ensureAllowance b key o (lg_address lg) spender followerSellAmount ;;
         match approveTx with
         | Some h =>
             if nonempty h then
               call (EvSignal b key (AQuote (lg_address lg) ETH_PLACEHOLDER followerSellAmount))
                    (o_requote o)
             else ret quote
         | None => ret quote
         end
       else ret quote) ;;
    let txTo := q_to quote' in
    let txData := q_data quote' in
    guard (nonempty txTo && nonempty txData) ;;
    value <- lift (quote_value quote' 0) ;;
    sent <- call (EvSignal b key (ASend txTo txData value)) (o_send o) ;;
    _ <- call (EvSignal b key (AWait sent)) (o_receipt o) ;;
    record_trade b key
      {| tsMs := o_now_record o; side := sell; dryRun := false;
         token := lg_address lg; watchedHash := tx_hash tx;
         signalAmount := signalAmount; sellTokenAmount := Some followerSellAmount;
         quoteBuyAmount := None; followerTx := Some sent |}.

(** The classification of one log entry: the side and the dedup key, when
    the entry is a Transfer that touches the watched address on one side. *)
Definition classify (tx : Tx) (lg : Log) : option (Side * string) :=
  let topics := map normalizeAddr (lg_topics lg) in
  let hash := normalizeAddr (or_else (lg_transactionHash lg) (tx_hash tx)) in
  let tok := normalizeAddr (lg_address lg) in
  if negb (nonempty hash && nonempty tok) then None
  else if negb (topic_at topics 0 =? normalizeAddr TRANSFER_TOPIC)%string then None
  else
    let isBuySignal := (topic_at topics 2 =? watchTopic)%string in
    let isSellSignal := (topic_at topics 1 =? watchTopic)%string in
    if isBuySignal && isSellSignal then None
    else
      let side0 := if isBuySignal then Some buy else None in
      let side1 := if isSellSignal then Some sell else side0 in
      match side1 with
      | None => None
      | Some sd => Some (sd, dedupKey hash tok sd)
      end.

Definition is_sell (s : Side) : bool := match s with sell => true | buy => false end.

(** The guardrail part of the loop body, from the classification to the
    rate gate.  It returns the armed signal: side, dedup key, amount. *)
Definition arm (tx : Tx) (lg : Log) (o : Oracle) : M (Side * string * Z) :=
  sk <- lift (classify tx lg) ;;
  let '(sd, key) := sk in
  guard (negb (is_sell sd && negb (AUTO_SELL_ENABLED cfg))) ;;
  st <- get ;;
  guard (negb (includes (seen st) key)) ;;
  push_seen key ;;
  guard (negb (includes (IGNORE_TOKENS cfg) (normalizeAddr (lg_address lg)))) ;;
  signalAmount <- lift (lg_data lg) ;;
  guard (0 <? signalAmount) ;;
  st <- get ;;
  guard (gate_ok (isTradeAllowedByRate st (o_now_gate o)
                    (MAX_TRADES_PER_HOUR cfg) (COOLDOWN_SECONDS cfg))) ;;
  ret (sd, key, signalAmount).

(** the body of [for (const lg of rlogs)] *)
Definition process_log (b : Z) (tx : Tx) (lo : Log * Oracle) : M unit :=
  let '(lg, o) := lo in
  armed <- arm tx lg o ;;
  let '(sd, key, signalAmount) := armed in
  match sd with
  | buy => mirror_buy b key tx lg o signalAmount
  | sell => mirror_sell b key tx lg o signalAmount
  end.

(** the body of [for (const tx of txs)] *)
Definition process_tx (b : Z) (item : TxItem) : M unit :=
  match item with
  | TxHashOnly _ => skip
  | TxObj tx =>
      guard (normalizeAddr (tx_from tx) =? watch)%string ;;
      guard (nonempty (tx_hash tx)) ;;
      receipt <- lift (tx_receipt tx) ;;
      guard (r_success receipt) ;;
      for_each (r_logs receipt) (process_log b tx)
  end.

(** the body of [for (let b = fromBlock; b <= toBlock; b++)] *)
Definition process_block (w : World) (b : Z) : M unit :=
  txs <- call (EvGetBlock b) (w_getBlock w b) ;;
  for_each txs (process_tx b) ;;
  advance_cursor b.

Definition fromBlock_of (st : State) (latest : Z) : Z :=
  match lastScannedBlock st with
  | None => Z.max 0 (latest - START_LOOKBACK_BLOCKS cfg)
  | Some c => c + 1
  end.

Definition toBlock_of (fromBlock latest : Z) : Z :=
  Z.min latest (fromBlock + MAX_BLOCK_SCAN_PER_CYCLE cfg - 1).

(** one pass of the [while (true)] loop, up to the sleep *)
Definition run_cycle (w : World) : M unit :=
  latest <- lift (w_latest w) ;;
  guard (0 <? latest) ;;
  st <- get ;;
  let fromBlock := fromBlock_of st latest in
  if fromBlock <=? latest then
    for_each (block_range fromBlock (toBlock_of fromBlock latest)) (process_block w)
  else ret tt.

(** the loop over successive polls of the chain *)
Definition run (ws : list World) : M unit := for_each ws run_cycle.

End Engine.

(** The durable store after a trace: the last snapshot written, if any. *)
Definition disk_after (disk : option State) (tr : list Event) : option State :=
  fold_left (fun d e => match e with EvPersist s => Some s | _ => d end) tr disk.

(** A process started on the given store that is stopped after its first [n]
    events ([None]: it runs through all the polls). *)
Definition session (cfg : Config) (ws : list World) (stop : option nat)
    (disk : option State) : list Event :=
  let tr := trace_of (run cfg ws (buildState disk)) in
  match stop with
  | Some n => firstn n tr
  | None => tr
  end.


(* ------------------------------------------------------------------ *)
(** ** Reasoning about engine computations

    A relation between the state before, the state after and the trace is
    stable when it holds of doing nothing and composes along sequencing; a
    stable relation that every primitive step satisfies is satisfied by
    the loops built from them. *)

Definition Rel := State -> State -> list Event -> Prop.

Record stable (R : Rel) : Prop := {
  stable_nil : forall s, R s s [];
  stable_app : forall s s1 s2 t1 t2, R s s1 t1 -> R s1 s2 t2 -> R s s2 (t1 ++ t2)
}.

Definition respects {A} (R : Rel) (m : M A) : Prop :=
  forall s, R s (state_of (m s)) (trace_of (m s)).

(* ------------------------------------------------------------------ *)
(** ** Observations on traces *)

(** number of events of the signal with key [k] whose action satisfies [p] *)
Definition count_sig (p : Action -> bool) (k : string) (tr : list Event) : nat :=
  List.length (filter (fun e => match e with
                                | EvSignal _ k' a => (k' =? k)%string && p a
                                | _ => false
                                end) tr).

Definition is_detected (a : Action) : bool := match a with ADetected _ => true | _ => false end.
Definition is_send (a : Action) : bool := match a with ASend _ _ _ => true | _ => false end.
Definition is_trade (a : Action) : bool := match a with ATrade _ => true | _ => false end.

(** the blocks fetched, in order *)
Definition fetched (tr : list Event) : list Z :=
  flat_map (fun e => match e with EvGetBlock b => [b] | _ => [] end) tr.

Definition cursor_lt (c : option Z) (b : Z) : Prop :=
  match c with Some x => x < b | None => True end.

Definition cursor_le (c c' : option Z) : Prop :=
  match c, c' with
  | Some x, Some y => x <= y
  | None, _ => True
  | Some _, None => False
  end.

(** Write ordering along a trace, [cur] being the cursor on the durable
    store: blocks are fetched and signals handled only past the cursor, a
    pushed trade is followed at once by a write that holds it and leaves the
    cursor where it is, and the cursor written never moves back. *)
Fixpoint durable (cur : option Z) (tr : list Event) : Prop :=
  match tr with
  | [] => True
  | EvGetBlock b :: rest => cursor_lt cur b /\ durable cur rest
  | EvSignal b _ a :: rest =>
      cursor_lt cur b
      /\ match a with
         | ATrade t =>
             match rest with
             | EvPersist snap :: _ => In t (trades snap) /\ lastScannedBlock snap = cur
             | _ => False
             end
         | _ => True
         end
      /\ durable cur rest
  | EvPersist snap :: rest =>
      cursor_le cur (lastScannedBlock snap) /\ durable (lastScannedBlock snap) rest
  end.

(** number of events whose action satisfies [p], whatever the signal *)
Definition count_act (p : Action -> bool) (tr : list Event) : nat :=
  List.length (filter (fun e => match e with EvSignal _ _ a => p a | _ => false end) tr).

(** every event of the trace belongs to the signal [key] of block [b] *)
Definition labelled (b : Z) (key : string) (tr : list Event) : Prop :=
  Forall (fun e => match e with
                   | EvSignal b' k' _ => b' = b /\ k' = key
                   | EvPersist _ => True
                   | EvGetBlock _ => False
                   end) tr.

Definition cursor_after (c : option Z) (tr : list Event) : option Z :=
  fold_left (fun c e => match e with EvPersist s => lastScannedBlock s | _ => c end) tr c.

(** every approval in the trace is for [maxUint256] *)
Definition approvals_unlimited (tr : list Event) : Prop :=
  Forall (fun e => match e with
                   | EvSignal _ _ (AApprove _ _ amount) => amount = maxUint256
                   | _ => True
                   end) tr.

(** what a mirror branch may do: it leaves the seen set and the cursor alone,
    speaks only for its own signal, starts, sends and records at most once,
    and keeps the write ordering *)
Definition branch_ok (b : Z) (key : string) (s : State)
    (r : option unit * State * list Event) : Prop :=
  seen (state_of r) = seen s
  /\ lastScannedBlock (state_of r) = lastScannedBlock s
  /\ labelled b key (trace_of r)
  /\ (count_act is_detected (trace_of r) <= 1)%nat
  /\ (count_act is_send (trace_of r) <= 1)%nat
  /\ (count_act is_trade (trace_of r) <= 1)%nat
  /\ cursor_after (lastScannedBlock s) (trace_of r) = lastScannedBlock s
  /\ (cursor_lt (lastScannedBlock s) b -> durable (lastScannedBlock s) (trace_of r))
  /\ approvals_unlimited (trace_of r).



(* ------------------------------------------------------------------ *)
(** ** Sample inputs *)

Module Samples.

Definition cfg_dry : Config :=
  {| WATCH_ADDRESS := "0x2ACaC49b7920D80C3C329E30ca93D0C4b4849eC6";
     FOLLOWER := "0x00000000000000000000000000000000000000f0";
     DRY_RUN := true; TRADE_WEI := 200000000000000; SLIPPAGE_BPS := 250;
     COOLDOWN_SECONDS := 45; MAX_TRADES_PER_HOUR := 20;
     START_LOOKBACK_BLOCKS := 8; MAX_BLOCK_SCAN_PER_CYCLE := 20;
     AUTO_SELL_ENABLED := true; AUTO_SELL_BPS := 2500;
     MIN_SELL_TOKEN_RAW := 1; IGNORE_TOKENS := [] |}.

Definition with_dry_run (c : Config) (d : bool) : Config :=
  {| WATCH_ADDRESS := WATCH_ADDRESS c; FOLLOWER := FOLLOWER c;
     DRY_RUN := d; TRADE_WEI := TRADE_WEI c; SLIPPAGE_BPS := SLIPPAGE_BPS c;
     COOLDOWN_SECONDS := COOLDOWN_SECONDS c;
     MAX_TRADES_PER_HOUR := MAX_TRADES_PER_HOUR c;
     START_LOOKBACK_BLOCKS := START_LOOKBACK_BLOCKS c;
     MAX_BLOCK_SCAN_PER_CYCLE := MAX_BLOCK_SCAN_PER_CYCLE c;
     AUTO_SELL_ENABLED := AUTO_SELL_ENABLED c; AUTO_SELL_BPS := AUTO_SELL_BPS c;
     MIN_SELL_TOKEN_RAW := MIN_SELL_TOKEN_RAW c; IGNORE_TOKENS := IGNORE_TOKENS c |}.

Definition with_auto_sell (c : Config) (e : bool) : Config :=
  {| WATCH_ADDRESS := WATCH_ADDRESS c; FOLLOWER := FOLLOWER c;
     DRY_RUN := DRY_RUN c; TRADE_WEI := TRADE_WEI c; SLIPPAGE_BPS := SLIPPAGE_BPS c;
     COOLDOWN_SECONDS := COOLDOWN_SECONDS c;
     MAX_TRADES_PER_HOUR := MAX_TRADES_PER_HOUR c;
     START_LOOKBACK_BLOCKS := START_LOOKBACK_BLOCKS c;
     MAX_BLOCK_SCAN_PER_CYCLE := MAX_BLOCK_SCAN_PER_CYCLE c;
     AUTO_SELL_ENABLED := e; AUTO_SELL_BPS := AUTO_SELL_BPS c;
     MIN_SELL_TOKEN_RAW := MIN_SELL_TOKEN_RAW c; IGNORE_TOKENS := IGNORE_TOKENS c |}.

Definition cfg_live : Config := with_dry_run cfg_dry false.
Definition cfg_no_sell : Config := with_auto_sell cfg_dry false.

Definition other_topic : string :=
  "0x00000000000000000000000000000000000000000000000000000000000000aa".
Definition tokT : string := "0x00000000000000000000000000000000000000Bb".
Definition spender0 : string := "0x00000000000000000000000000000000000000dd".

Definition quote0 : Quote :=
  {| q_to := "0x00000000000000000000000000000000000000cc"; q_data := "0x01";
     q_value := VAbsent; q_buyAmount := Some "777";
     q_issues_allowance_spender := spender0;
     q_allowanceTarget := ""; q_allowanceSpender := "" |}.

Definition oracle0 (now : Z) : Oracle :=
  {| o_now_gate := now; o_quote := Some quote0; o_balance := Some 5000;
     o_allowance := Some 0; o_approve := Some "0xa9";
     o_approve_receipt := Some true; o_requote := Some quote0;
     o_send := Some "0xf1"; o_receipt := Some true; o_now_record := now + 5 |}.

(** the watched wallet receives 1000 raw units of T in 0xAA *)
Definition buy_log : Log :=
  {| lg_topics := [TRANSFER_TOPIC; other_topic; watchTopic cfg_dry];
     lg_transactionHash := "0xAA"; lg_address := tokT; lg_data := Some 1000 |}.

(** the watched wallet sends 400 raw units of T in 0xAB *)
Definition sell_log : Log :=
  {| lg_topics := [TRANSFER_TOPIC; watchTopic cfg_dry; other_topic];
     lg_transactionHash := "0xAB"; lg_address := tokT; lg_data := Some 400 |}.

(** the watched wallet moves 7 raw units of T to itself in 0xAC *)
Definition self_log : Log :=
  {| lg_topics := [TRANSFER_TOPIC; watchTopic cfg_dry; watchTopic cfg_dry];
     lg_transactionHash := "0xAC"; lg_address := tokT; lg_data := Some 7 |}.

Definition tx_of (h : string) (lg : Log) (now : Z) : Tx :=
  {| tx_from := WATCH_ADDRESS cfg_dry; tx_hash := h;
     tx_receipt := Some {| r_success := true; r_logs := [(lg, oracle0 now)] |} |}.

Definition key_aa : string := "0xaa:0x00000000000000000000000000000000000000bb:buy".
Definition key_ab : string := "0xab:0x00000000000000000000000000000000000000bb:sell".

(** the chain at height [h]: block 100 holds 0xAA, every other block is empty *)
Definition world_aa (h : Z) : World :=
  {| w_latest := Some h;
     w_getBlock := fun b => if b =? 100 then Some [TxObj (tx_of "0xAA" buy_log 1000000)]
                            else Some [] |}.

(** the chain at height 102 while the endpoint fails to serve block 101 *)
Definition world_gap : World :=
  {| w_latest := Some 102;
     w_getBlock := fun b => if b =? 101 then None else Some [] |}.

Definition st_at (c : Z) : State := mkState [] [] (Some c).

End Samples.

(* ------------------------------------------------------------------ *)
(** ** Relations for the scan *)

(** what handling the transactions of block [b] may do *)
Definition block_rel (b : Z) : Rel := fun s s' t =>
  lastScannedBlock s' = lastScannedBlock s
  /\ cursor_after (lastScannedBlock s) t = lastScannedBlock s
  /\ fetched t = []
  /\ (forall b' k a, In (EvSignal b' k a) t -> b' = b)
  /\ (cursor_lt (lastScannedBlock s) b -> durable (lastScannedBlock s) t).

(** what any number of polls may do *)
Definition scan_rel : Rel := fun s s' t =>
  durable (lastScannedBlock s) t
  /\ cursor_after (lastScannedBlock s) t = lastScannedBlock s'.

(** the cursor after a walk over [blocks]: the last one that was served *)
Definition last_fetched (w : World) (blocks : list Z) (c : option Z) : option Z :=
  fold_left (fun c b => match w_getBlock w b with Some _ => Some b | None => c end) blocks c.

Module SamplesGate.

Definition trade_at (ts : Z) : Trade :=
  {| tsMs := ts; side := buy; dryRun := true; token := Samples.tokT;
     watchedHash := "0xAA"; signalAmount := 1; sellTokenAmount := None;
     quoteBuyAmount := None; followerTx := None |}.

(** two trades on record, ten minutes apart *)
Definition st_two : State := mkState [] [trade_at 1000000; trade_at 1600000] (Some 99).

(** two trades on record, the second ten milliseconds short of an hour after
    the first *)
Definition st_late : State := mkState [] [trade_at 1000000; trade_at 4599990] (Some 99).

End SamplesGate.

(** every approval made along the way is unlimited *)
Definition approvals_rel : Rel := fun _ _ t => approvals_unlimited t.

Module SamplesTrace.

(** the record of the dry-run buy that mirrors 0xAA *)
Definition trade_aa : Trade :=
  {| tsMs := 1000005; side := buy; dryRun := true; token := Samples.tokT;
     watchedHash := "0xAA"; signalAmount := 1000; sellTokenAmount := None;
     quoteBuyAmount := Some "777"; followerTx := None |}.

Definition before_trade : list Event :=
  [ EvGetBlock 100;
    EvSignal 100 Samples.key_aa (ADetected buy);
    EvSignal 100 Samples.key_aa (AQuote ETH_PLACEHOLDER Samples.tokT 200000000000000) ].

Definition after_trade : list Event :=
  [ EvPersist (mkState [Samples.key_aa] [trade_aa] (Some 99));
    EvPersist (mkState [Samples.key_aa] [trade_aa] (Some 100)) ].

End SamplesTrace.

(* ------------------------------------------------------------------ *)
(** ** Ledger: per-token positions

    The readers of the state file (app/api/copytrade/logs/route.ts,
    bot/log-server.js) show the shape of a position: decimal BigInt strings
    for the raw quantities and wei amounts, numbers for the counts and the
    timestamp.  The code that writes positions is not among the sources. *)

Module Ledger.

Record Position := mkPosition {
  boughtRaw : Z;
  soldRaw : Z;
  qtyOpenRaw : Z;
  costOpenWei : Z;
  totalBuyEthWei : Z;
  totalSellEthWei : Z;
  realizedPnlWei : Z;
  tradesBuy : Z;
  tradesSell : Z;
  lastUpdateMs : Z
}.

(** [row.boughtRaw || "0"], ... : a token without a position reads as zeros *)
Definition no_position : Position := mkPosition 0 0 0 0 0 0 0 0 0 0.

(** a fill: the token quantity and the native currency spent or received *)
Inductive Fill :=
| BuyFill (tokenFillRaw ethSpentWei : Z)
| SellFill (tokenFillRaw ethReceivedWei : Z).

Record Store := mkStore {
  positions : string -> Position;
  cursor : option Z
}.

(** Modelled from the spec: the share of the open cost that corresponds to a
    sold quantity, "q * (costOpen / qtyOpen)" under average-cost-basis
    accounting (the writer of positions is missing from the sources).  The
    amounts are integers, so the share is rounded down; a quantity above the
    open quantity is matched up to the open quantity, so that the position
    never goes negative. *)
Definition cost_share (p : Position) (q : Z) : Z :=
  if qtyOpenRaw p <=? 0 then 0
  else Z.min q (qtyOpenRaw p) * costOpenWei p / qtyOpenRaw p.

(** Modelled from the spec: the update of a position by one fill (the writer
    of positions is missing from the sources).  "On a buy fill, open
    quantity and open cost both increase by the fill's quantity and currency
    spent; on a sell fill, realized PnL accrues as (sell proceeds) minus
    (proportional share of open cost corresponding to the sold quantity),
    open quantity and open cost decrease proportionally, and cumulative
    spent/received totals accumulate regardless of realized PnL sign." *)
Definition apply_fill (now : Z) (f : Fill) (p : Position) : Position :=
  match f with
  | BuyFill q spent =>
      {| boughtRaw := boughtRaw p + q;
         soldRaw := soldRaw p;
         qtyOpenRaw := qtyOpenRaw p + q;
         costOpenWei := costOpenWei p + spent;
         totalBuyEthWei := totalBuyEthWei p + spent;
         totalSellEthWei := totalSellEthWei p;
         realizedPnlWei := realizedPnlWei p;
         tradesBuy := tradesBuy p + 1;
         tradesSell := tradesSell p;
         lastUpdateMs := now |}
  | SellFill q received =>
      let share := cost_share p q in
      {| boughtRaw := boughtRaw p;
         soldRaw := soldRaw p + q;
         qtyOpenRaw := qtyOpenRaw p - Z.min q (qtyOpenRaw p);
         costOpenWei := costOpenWei p - share;
         totalBuyEthWei := totalBuyEthWei p;
         totalSellEthWei := totalSellEthWei p + received;
         realizedPnlWei := realizedPnlWei p + (received - share);
         tradesBuy := tradesBuy p;
         tradesSell := tradesSell p + 1;
         lastUpdateMs := now |}
  end.

(** Modelled from the spec: [recordTrade(entry)] updates the position of the
    entry's token, and of no other token (the writer of positions is missing
    from the sources). *)
Definition recordTrade (now : Z) (tok : string) (f : Fill) (st : Store) : Store :=
  {| positions := fun t => if (t =? tok)%string then apply_fill now f (positions st t)
                           else positions st t;
     cursor := cursor st |}.

(** Modelled from the spec: [advanceCursor(height)] persists the new scan
    position (the ledger interface is missing from the sources). *)
Definition advanceCursor (height : Z) (st : Store) : Store :=
  {| positions := positions st; cursor := Some height |}.

(** a run of buy fills for one token, as (quantity, currency spent) pairs *)
Definition record_buys (now : Z) (tok : string) (buys : list (Z * Z)) (st : Store) : Store :=
  fold_left (fun s f => recordTrade now tok (BuyFill (fst f) (snd f)) s) buys st.

Definition empty_store : Store := {| positions := fun _ => no_position; cursor := None |}.

End Ledger.


Module SamplesEviction.

Definition filler_key (i : nat) : string :=
  ("k" ++ NilEmpty.string_of_uint (Nat.to_uint i))%string.

(** a state whose seen list holds the key of 0xAA and 20000 keys pushed after it *)
Definition full_state : State :=
  mkState (Samples.key_aa :: map filler_key (seq 0 (Z.to_nat 20000))) [] (Some 99).

End SamplesEviction.

From Stdlib Require Import Permutation Sorted.

(* ------------------------------------------------------------------ *)
(** ** Further observations on the engine *)

(** the trade records pushed along a trace, in order *)
Definition pushed (tr : list Event) : list Trade :=
  flat_map (fun e => match e with EvSignal _ _ (ATrade t) => [t] | _ => [] end) tr.

(** the guardrail checks of the loop body, as one condition on a log entry *)
Definition guards_passed (cfg : Config) (tx : Tx) (lg : Log) (o : Oracle) (s : State)
    (sd : Side) (key : string) (amount : Z) : Prop :=
  classify cfg tx lg = Some (sd, key)
  /\ (sd = sell -> AUTO_SELL_ENABLED cfg = true)
  /\ ~ In key (seen s)
  /\ ~ In (normalizeAddr (lg_address lg)) (IGNORE_TOKENS cfg)
  /\ lg_data lg = Some amount
  /\ 0 < amount
  /\ isTradeAllowedByRate s (o_now_gate o) (MAX_TRADES_PER_HOUR cfg) (COOLDOWN_SECONDS cfg)
     = GateOk.

(** the mirror branch of a side *)
Definition mirror (cfg : Config) (sd : Side) (b : Z) (key : string) (tx : Tx) (lg : Log)
    (o : Oracle) (amount : Z) : M unit :=
  match sd with
  | buy => mirror_buy cfg b key tx lg o amount
  | sell => mirror_sell cfg b key tx lg o amount
  end.

(** the state once a key was pushed on the seen list *)
Definition mark_seen (key : string) (s : State) : State :=
  mkState (seen s ++ [key]) (trades s) (lastScannedBlock s).

(** the in-memory history only grows, and the seen list holds no key twice *)
Definition history_rel : Rel := fun s s' t =>
  trades s' = trades s ++ pushed t
  /\ (exists l, seen s' = seen s ++ l)
  /\ (NoDup (seen s) -> NoDup (seen s')).

(** every event of the trace satisfies [P] *)
Definition events_rel (P : Event -> Prop) : Rel := fun _ _ t => Forall P t.

(** what a dry run may emit: no allowance read, approval, transaction or
    receipt wait, and only records flagged dry-run without a follower hash *)
Definition dry_event (e : Event) : Prop :=
  match e with
  | EvSignal _ _ (ASend _ _ _) => False
  | EvSignal _ _ (AApprove _ _ _) => False
  | EvSignal _ _ (AAllowance _ _ _) => False
  | EvSignal _ _ (AWait _) => False
  | EvSignal _ _ (ATrade t) => dryRun t = true /\ followerTx t = None
  | _ => True
  end.

(** what a live run records: records flagged live that carry the follower hash *)
Definition live_event (e : Event) : Prop :=
  match e with
  | EvSignal _ _ (ATrade t) => dryRun t = false /\ exists h, followerTx t = Some h
  | _ => True
  end.

(** a write of the state file is the trimmed image of some state *)
Definition trimmed_write (e : Event) : Prop :=
  match e with
  | EvPersist snap => exists s0, snap = trimmed s0
  | _ => True
  end.

(** a record pushed for a log entry describes that entry *)
Definition describes (tx : Tx) (lg : Log) (o : Oracle) (sd : Side) (amount : Z)
    (e : Event) : Prop :=
  match e with
  | EvSignal _ _ (ATrade t) =>
      side t = sd /\ watchedHash t = tx_hash tx /\ token t = lg_address lg
      /\ signalAmount t = amount /\ tsMs t = o_now_record o
  | _ => True
  end.

(** what else a mirror branch keeps *)
Definition branch_more (cfg : Config) (tx : Tx) (lg : Log) (o : Oracle) (sd : Side)
    (amount : Z) (s : State) (r : option unit * State * list Event) : Prop :=
  trades (state_of r) = trades s ++ pushed (trace_of r)
  /\ (DRY_RUN cfg = true -> Forall dry_event (trace_of r))
  /\ (DRY_RUN cfg = false ->
        Forall live_event (trace_of r)
        /\ (count_act is_trade (trace_of r) <= count_act is_send (trace_of r))%nat)
  /\ Forall trimmed_write (trace_of r)
  /\ Forall (describes tx lg o sd amount) (trace_of r).

(** a state file within the bounds of [persistState] *)
Definition bounded_write (e : Event) : Prop :=
  match e with
  | EvPersist snap =>
      Z.of_nat (List.length (seen snap)) <= 20000
      /\ Z.of_nat (List.length (trades snap)) <= 2000
  | _ => True
  end.

(** in live mode a record for a key needs a transaction sent for that key *)
Definition sent_rel (k : string) : Rel := fun _ _ t =>
  (count_sig is_trade k t <= count_sig is_send k t)%nat.

(** a block item the loop body looks into: a full transaction sent by the
    watched address, with a hash and a successful receipt *)
Definition relevant (cfg : Config) (item : TxItem) : bool :=
  match item with
  | TxHashOnly _ => false
  | TxObj tx =>
      (normalizeAddr (tx_from tx) =? watch cfg)%string
      && nonempty (tx_hash tx)
      && match tx_receipt tx with
         | Some r => r_success r
         | None => false
         end
  end.

(** a poll whose height read throws or returns a non-positive number *)
Definition no_height (w : World) : bool :=
  match w_latest w with
  | None => true
  | Some latest => latest <=? 0
  end.

(** the last element of [state.trades] *)
Definition last_trade (s : State) : option Trade :=
  match rev (trades s) with
  | t :: _ => Some t
  | [] => None
  end.

Module SamplesMore.

(** the record of the dry-run buy that mirrors 0xAA when handled at 3000000 *)
Definition trade_late : Trade :=
  {| tsMs := 3000005; side := buy; dryRun := true; token := Samples.tokT;
     watchedHash := "0xAA"; signalAmount := 1000; sellTokenAmount := None;
     quoteBuyAmount := Some "777"; followerTx := None |}.

(** a poll during which the height read throws *)
Definition world_down : World :=
  {| w_latest := None; w_getBlock := fun _ => Some [] |}.

(** a reverted transaction of the watched wallet, with the sample Transfer log *)
Definition tx_reverted : Tx :=
  {| tx_from := WATCH_ADDRESS Samples.cfg_dry; tx_hash := "0xAD";
     tx_receipt := Some {| r_success := false;
                           r_logs := [(Samples.buy_log, Samples.oracle0 1000000)] |} |}.

(** a successful transaction of another wallet, with the same log *)
Definition tx_foreign : Tx :=
  {| tx_from := "0x00000000000000000000000000000000000000f0"; tx_hash := "0xAE";
     tx_receipt := Some {| r_success := true;
                           r_logs := [(Samples.buy_log, Samples.oracle0 1000000)] |} |}.

Definition quiet_block : list TxItem :=
  [TxHashOnly "0x01"; TxObj tx_reverted; TxObj tx_foreign].

Definition world_quiet : World :=
  {| w_latest := Some 100; w_getBlock := fun _ => Some quiet_block |}.

End SamplesMore.

(** the quantity of a mirrored sell, from the follower's balance *)
Definition sell_quantity (cfg : Config) (balance : Z) : Z :=
  Z.quot (balance * AUTO_SELL_BPS cfg) 10000.

(** what every quote request of a sell says about its amount *)
Definition sell_quote_sized (cfg : Config) (o : Oracle) (e : Event) : Prop :=
  match e with
  | EvSignal _ _ (AQuote _ _ q) =>
      exists balance, o_balance o = Some balance /\ 0 < balance
        /\ q = sell_quantity cfg balance /\ MIN_SELL_TOKEN_RAW cfg <= q
  | _ => True
  end.

(** Which quote the live sell branch ends up submitting for quantity [qty],
    [q] being the first quote: [q] itself when no spender is named, or the
    allowance covers [qty], or the approval came back with an empty hash; the
    quote fetched after a confirmed approval otherwise; none when the
    allowance read, the approval or its receipt fails. *)
Definition final_quote (cfg : Config) (o : Oracle) (q : Quote) (qty : Z) : option Quote :=
  if nonempty (quote_spender q) && isHexAddress (quote_spender q) then
    match o_allowance o with
    | None => None
    | Some allowance =>
        if qty <=? allowance then Some q
        else match o_approve o with
             | None => None
             | Some h =>
                 match o_approve_receipt o with
                 | Some true => if nonempty h then o_requote o else Some q
                 | _ => None
                 end
             end
    end
  else Some q.

(** a transaction sent by the sell branch is the final quote's, as it is *)
Definition sell_send_justified (cfg : Config) (o : Oracle) (e : Event) : Prop :=
  match e with
  | EvSignal _ _ (ASend to data v) =>
      DRY_RUN cfg = false
      /\ exists balance q q',
           o_balance o = Some balance /\ o_quote o = Some q
           /\ final_quote cfg o q (sell_quantity cfg balance) = Some q'
           /\ to = q_to q' /\ data = q_data q'
           /\ nonempty to = true /\ nonempty data = true
           /\ quote_value q' 0 = Some v
  | _ => True
  end.

(** a transaction sent, or a record pushed, by the buy branch rests on a quote
    that carries a transaction payload *)
Definition buy_event_justified (cfg : Config) (o : Oracle) (e : Event) : Prop :=
  match e with
  | EvSignal _ _ (ASend to data v) =>
      DRY_RUN cfg = false
      /\ exists q, o_quote o = Some q /\ to = q_to q /\ data = q_data q
           /\ nonempty to = true /\ nonempty data = true
           /\ quote_value q (TRADE_WEI cfg) = Some v
  | EvSignal _ _ (ATrade t) =>
      exists q, o_quote o = Some q /\ nonempty (q_to q) = true /\ nonempty (q_data q) = true
  | EvSignal _ _ (AQuote sellToken _ amount) =>
      sellToken = ETH_PLACEHOLDER /\ amount = TRADE_WEI cfg
  | _ => True
  end.

(** the allowance question is settled for a sell of [qty]: the quote names no
    well-formed spender; or it names one, the allowance read succeeded and
    covers [qty]; or it names one, the allowance read succeeded and fell
    short, the approval was submitted and its receipt reports success *)
Definition allowance_settled (o : Oracle) (q : Quote) (qty : Z) : Prop :=
  nonempty (quote_spender q) && isHexAddress (quote_spender q) = false
  \/ (nonempty (quote_spender q) && isHexAddress (quote_spender q) = true
      /\ exists allowance, o_allowance o = Some allowance /\ qty <= allowance)
  \/ (nonempty (quote_spender q) && isHexAddress (quote_spender q) = true
      /\ exists allowance h,
           o_allowance o = Some allowance /\ allowance < qty
           /\ o_approve o = Some h /\ o_approve_receipt o = Some true).

(** every event of a trace satisfies [P], given the events before it *)
Fixpoint each_after (P : list Event -> Event -> Prop) (past tr : list Event) : Prop :=
  match tr with
  | [] => True
  | e :: rest => P past e /\ each_after P (past ++ [e]) rest
  end.

(** what went before a transaction sent by the sell branch when the quote
    names a well-formed spender: the allowance of that spender was read, and
    when the read fell short of the quantity the unlimited approval was
    submitted and its receipt awaited *)
Definition sell_send_prepared (cfg : Config) (lg : Log) (o : Oracle)
    (past : list Event) (e : Event) : Prop :=
  match e with
  | EvSignal b k (ASend _ _ _) =>
      forall q balance,
        o_quote o = Some q -> o_balance o = Some balance ->
        nonempty (quote_spender q) && isHexAddress (quote_spender q) = true ->
        In (EvSignal b k (AAllowance (lg_address lg) (FOLLOWER cfg) (quote_spender q))) past
        /\ forall allowance,
             o_allowance o = Some allowance -> allowance < sell_quantity cfg balance ->
             exists h, o_approve o = Some h
               /\ In (EvSignal b k (AApprove (lg_address lg) (quote_spender q) maxUint256)) past
               /\ In (EvSignal b k (AWait h)) past
  | _ => True
  end.

Module SamplesSend.

Definition sell_tx : Tx := Samples.tx_of "0xAB" Samples.sell_log 1000000.
Definition buy_tx : Tx := Samples.tx_of "0xAA" Samples.buy_log 1000000.

(** the transaction of the sample quote, sent with value 0 by a sell *)
Definition sell_send : Event :=
  EvSignal 100 Samples.key_ab (ASend "0x00000000000000000000000000000000000000cc" "0x01" 0).

(** the same, sent with TRADE_WEI by a buy *)
Definition buy_send : Event :=
  EvSignal 100 Samples.key_aa
    (ASend "0x00000000000000000000000000000000000000cc" "0x01" 200000000000000).

End SamplesSend.

(* ------------------------------------------------------------------ *)
(** ** Addresses, topics and keys *)

(** the string has no colon *)
Fixpoint no_colon (s : string) : bool :=
  match s with
  | EmptyString => true
  | String c r => negb (Ascii.eqb c ":"%char) && no_colon r
  end.

(* ------------------------------------------------------------------ *)
(** ** Boolean settings *)

(** [env(name, fallback)]: an unset or empty variable reads as the fallback *)
Definition env (v : option string) (fallback : string) : string :=
  match v with
  | None => fallback
  | Some s => if (s =? "")%string then fallback else s
  end.

(** [toBool(v, fallback)] for a string [v]: [undefined] does not reach it
    through [env] with a string fallback *)
Definition toBool (v : string) : bool :=
  includes ["1"; "true"; "yes"; "on"] (toLowerCase v).

(** [toBool(env('DRY_RUN', 'true'), true)] *)
Definition dry_run_setting (v : option string) : bool := toBool (env v "true").

(* ------------------------------------------------------------------ *)
(** ** The report of the log endpoint
       (app/api/copytrade/logs/route.ts [GET], bot/log-server.js [buildPayload])

    [Array.prototype.sort] is stable; with a comparator that orders by a
    numeric key, its result is the one stable arrangement by that key, which
    is what the insertion sort below computes. *)

Section SortDesc.

Context {A : Type}.
Variable key : A -> Z.

(** [x] goes before the first element whose key is not above its own *)
Fixpoint insert_desc (x : A) (l : list A) : list A :=
  match l with
  | [] => [x]
  | y :: r => if key x <? key y then y :: insert_desc x r else x :: y :: r
  end.

(** [[...l].sort((a, b) => key(b) - key(a))] *)
Definition sort_desc (l : list A) : list A := fold_right insert_desc [] l.

(** [a] may stand before [b] *)
Definition desc (a b : A) : Prop := key b <= key a.

End SortDesc.

(** a trade as the report reads it from the state file *)
Record FileTrade := mkFileTrade {
  ft_tsMs : option Z;                (* t.tsMs, when present *)
  ft_dryRun : bool;                  (* t.dryRun, absent reads as false *)
  ft_followerTx : string             (* t.followerTx, absent reads as '' *)
}.

(** [t.tsMs || 0] *)
Definition ts_key (t : FileTrade) : Z :=
  match ft_tsMs t with Some z => z | None => 0 end.

(** [[...trades].sort((a, b) => (b.tsMs || 0) - (a.tsMs || 0))] *)
Definition tradesDesc (trades : list FileTrade) : list FileTrade := sort_desc ts_key trades.

(** [tradesDesc.filter((t) => !t.dryRun && !!t.followerTx)] *)
Definition executed (trades : list FileTrade) : list FileTrade :=
  filter (fun t => negb (ft_dryRun t) && nonempty (ft_followerTx t)) (tradesDesc trades).

Definition totalSignals (trades : list FileTrade) : nat := List.length (tradesDesc trades).
Definition totalExecuted (trades : list FileTrade) : nat := List.length (executed trades).

(** [tradesDesc.slice(0, 200)] *)
Definition shown_trades (trades : list FileTrade) : list FileTrade :=
  firstn 200 (tradesDesc trades).

(** a trade record of the engine, as it stands in the state file *)
Definition to_file_trade (t : Trade) : FileTrade :=
  {| ft_tsMs := Some (tsMs t);
     ft_dryRun := dryRun t;
     ft_followerTx := match followerTx t with Some h => h | None => "" end |}.

(** the state files written along a trace, against the trades in memory
    before it: each write holds the last 2000 of the trades in memory then *)
Fixpoint files_follow (cur : list Trade) (tr : list Event) : Prop :=
  match tr with
  | [] => True
  | EvPersist snap :: rest => trades snap = slice_last 2000 cur /\ files_follow cur rest
  | EvSignal _ _ (ATrade t) :: rest => files_follow (cur ++ [t]) rest
  | _ :: rest => files_follow cur rest
  end.

Definition written_rel : Rel := fun s s' t =>
  trades s' = trades s ++ pushed t /\ files_follow (trades s) t.

(** a trade the report does not count as executed *)
Definition not_executed (t : Trade) : Prop := dryRun t = true \/ followerTx t = None.

(** *** The tail of the log file ([tailLines], [lineCount]) *)

Definition is_lf (c : ascii) : bool := (c =? "010")%char.
Definition is_cr (c : ascii) : bool := (c =? "013")%char.

(** put a character in front of the first piece *)
Definition push_char (c : ascii) (l : list string) : list string :=
  match l with
  | h :: t => String c h :: t
  | [] => [String c ""]
  end.

(** [s.split(/\r?\n/)]: the pieces between line feeds, a carriage return
    right before a line feed belonging to the separator *)
Fixpoint split_lines (s : string) : list string :=
  match s with
  | EmptyString => [""]
  | String c r =>
      if is_lf c then "" :: split_lines r
      else
        match r with
        | String c' r' =>
            if is_cr c && is_lf c' then "" :: split_lines r'
            else push_char c (split_lines r)
        | EmptyString => push_char c (split_lines r)
        end
  end.

(** [input.split(/\r?\n/).filter(Boolean).slice(-count)], for [count > 0] *)
Definition tailLines (input : string) (count : Z) : list string :=
  slice_last count (filter nonempty (split_lines input)).

(** [Math.max(20, Math.min(600, Number.isFinite(raw) ? raw : dflt))] with
    [raw = Number(lines || dflt)]: [lines] is the number the query parameter
    reads as when it is an integer, [None] when it is absent, empty or no
    finite number.  The route defaults to 120, the log server to 140. *)
Definition lineCount (dflt : Z) (lines : option Z) : Z :=
  Z.max 20 (Z.min 600 (match lines with Some n => n | None => dflt end)).

Fixpoint has_lf (s : string) : bool :=
  match s with
  | EmptyString => false
  | String c r => is_lf c || has_lf r
  end.

(** *** The per-token table ([tokenReport], [totalRealizedPnlWei]) *)

Section TokenReport.

(** [BigInt(s)], [None] when it throws *)
Variable BigInt : string -> option Z.

(** [toBI] *)
Definition toBI (v : string) : Z :=
  if (v =? "")%string then 0
  else match BigInt v with Some z => z | None => 0 end.

(** a row of the table: the token and [String(row.realizedPnlWei || '0')] *)
Record Row := mkRow { row_token : string; row_realizedPnlWei : string }.

(** [Object.entries(positions).map(...)]: the positions in the order of the
    file, a missing or empty profit reading as '0' *)
Definition to_row (entry : string * option string) : Row :=
  {| row_token := fst entry;
     row_realizedPnlWei :=
       match snd entry with
       | Some v => if (v =? "")%string then "0" else v
       | None => "0"
       end |}.

Definition pnl_key (r : Row) : Z := toBI (row_realizedPnlWei r).

(** the comparator returns 1, -1 or 0 as [toBI] of [b] is above, below or
    equal to that of [a]: descending by [pnl_key] *)
Definition tokenReport (positions : list (string * option string)) : list Row :=
  sort_desc pnl_key (map to_row positions).

(** [tokenReport.reduce((acc, r) => acc + toBI(r.realizedPnlWei), 0n)] *)
Definition totalRealizedPnlWei (positions : list (string * option string)) : Z :=
  fold_left (fun acc r => acc + pnl_key r) (tokenReport positions) 0.

End TokenReport.

(* ------------------------------------------------------------------ *)
(** ** Where a trade record comes from *)

(** a log entry the scan of the polls [ws] looks into at block [b]: an entry
    of the receipt of a transaction of the watched wallet, with a hash and a
    successful receipt, in the block as one of the polls got it *)
Definition entry_of (cfg : Config) (ws : list World) (b : Z) (tx : Tx) (lg : Log)
    (o : Oracle) : Prop :=
  exists w txs r,
    In w ws /\ w_getBlock w b = Some txs /\ In (TxObj tx) txs
    /\ relevant cfg (TxObj tx) = true
    /\ tx_receipt tx = Some r /\ In (lg, o) (r_logs r).

(** a live record carries the hash that the send of its log entry returned *)
Definition sent_hash_recorded (cfg : Config) (o : Oracle) (e : Event) : Prop :=
  match e with
  | EvSignal _ _ (ATrade t) =>
      DRY_RUN cfg = false -> exists h, o_send o = Some h /\ followerTx t = Some h
  | _ => True
  end.

(** a record is pushed for a log entry from [src], under the entry's key, and
    carries the hash that the send for that entry returned *)
Definition record_traced (cfg : Config) (src : Z -> Tx -> Log -> Oracle -> Prop)
    (e : Event) : Prop :=
  match e with
  | EvSignal b k (ATrade t) =>
      exists tx lg o h,
        src b tx lg o
        /\ classify cfg tx lg = Some (side t, k)
        /\ o_send o = Some h /\ followerTx t = Some h
        /\ watchedHash t = tx_hash tx /\ token t = lg_address lg
  | _ => True
  end.

(* ------------------------------------------------------------------ *)
(** * Properties *)

(** ** Stable relations and the loops *)

Section Respects.

Variable R : Rel.
Hypothesis R_stable : stable R.

Lemma respects_ret {A} (a : A) : respects R (ret a).
Proof. intro s. apply (stable_nil R R_stable). Qed.

Lemma respects_skip {A} : respects R (@skip A).
Proof. intro s. apply (stable_nil R R_stable). Qed.

Lemma respects_get : respects R get.
Proof. intro s. apply (stable_nil R R_stable). Qed.

Lemma respects_lift {A} (o : option A) : respects R (lift o).
Proof. intro s. apply (stable_nil R R_stable). Qed.

Lemma respects_guard (c : bool) : respects R (guard c).
Proof. destruct c; [apply respects_ret | apply respects_skip]. Qed.

Lemma respects_bind {A B} (m : M A) (f : A -> M B) :
  respects R m -> (forall a, respects R (f a)) -> respects R (bind m f).
Proof.
  intros Hm Hf s. unfold bind.
  specialize (Hm s). destruct (m s) as [[[a|] s1] t1]; cbn in *.
  - specialize (Hf a s1). destruct (f a s1) as [[r s2] t2]; cbn in *.
    eapply stable_app; eauto.
  - exact Hm.
Qed.

Lemma respects_iteration (m : M unit) : respects R m -> respects R (iteration m).
Proof.
  intros Hm s. unfold iteration. specialize (Hm s).
  destruct (m s) as [[r s1] t1]. exact Hm.
Qed.

Lemma respects_for_each {A} (l : list A) (body : A -> M unit) :
  (forall x, In x l -> respects R (body x)) -> respects R (for_each l body).
Proof.
  induction l as [|x r IH]; intros Hb; cbn [for_each].
  - apply respects_ret.
  - apply respects_bind.
    + apply respects_iteration, Hb. now left.
    + intros _. apply IH. intros y Hy. apply Hb. now right.
Qed.

End Respects.

(** Structural steps of a [respects] proof. *)
Ltac respects_step HR :=
  lazymatch goal with
  | |- respects _ (ret _) => apply (respects_ret _ HR)
  | |- respects _ skip => apply (respects_skip _ HR)
  | |- respects _ get => apply (respects_get _ HR)
  | |- respects _ (lift _) => apply (respects_lift _ HR)
  | |- respects _ (guard _) => apply (respects_guard _ HR)
  | |- respects _ (bind _ _) => apply (respects_bind _ HR); [ | intro ]
  | |- respects _ (iteration _) => apply (respects_iteration _ HR)
  | |- respects _ (for_each _ _) => apply (respects_for_each _ HR); intros ? ?
  | |- respects _ (if ?c then _ else _) => destruct c
  | |- respects _ (match ?x with _ => _ end) => destruct x
  end.

Lemma count_sig_app p k t1 t2 :
  count_sig p k (t1 ++ t2) = (count_sig p k t1 + count_sig p k t2)%nat.
Proof. unfold count_sig. now rewrite filter_app, length_app. Qed.



Lemma fetched_app t1 t2 : fetched (t1 ++ t2) = fetched t1 ++ fetched t2.
Proof. unfold fetched. apply flat_map_app. Qed.

Lemma disk_after_app d t1 t2 : disk_after d (t1 ++ t2) = disk_after (disk_after d t1) t2.
Proof. unfold disk_after. apply fold_left_app. Qed.

(* ------------------------------------------------------------------ *)
(** ** The two mirror branches, one signal at a time *)

Lemma slice_last_keeps_last {A} (n : Z) (l : list A) (x : A) :
  0 < n -> In x (slice_last n (l ++ [x])).
Proof.
  intros Hn. unfold slice_last. rewrite skipn_app, length_app. cbn [List.length].
  apply in_or_app. right.
  replace (Z.to_nat (Z.of_nat (List.length l + 1) - n) - List.length l)%nat with 0%nat by lia.
  now left.
Qed.

Lemma cursor_le_refl c : cursor_le c c.
Proof. destruct c; cbn; lia. Qed.

Lemma cursor_le_lt c c' b : cursor_le c c' -> cursor_lt c' b -> cursor_lt c b.
Proof. destruct c, c'; cbn; try lia; tauto. Qed.

#[local] Opaque maxUint256.

Ltac branch_case :=
  match goal with
  | |- context [match ?x with _ => _ end] =>
      lazymatch x with
      | context [match _ with _ => _ end] => fail
      | _ => destruct x eqn:?
      end
  end.

Ltac branch_done :=
  unfold branch_ok, labelled, approvals_unlimited, count_act, state_of, trace_of; cbn;
  repeat split; auto using slice_last_keeps_last with zarith;
  try lia;
  repeat (constructor; auto);
  intros; repeat split; auto using cursor_le_refl;
  try (apply slice_last_keeps_last; lia).

Lemma mirror_buy_ok cfg b key tx lg o amount s :
  branch_ok b key s (mirror_buy cfg b key tx lg o amount s).
Proof.
  unfold mirror_buy, bind, call, emit, guard, lift, ret, skip, record_trade,
    push_trade, persistState.
  repeat (cbn; try branch_case); branch_done.
Qed.

Lemma mirror_sell_ok cfg b key tx lg o amount s :
  branch_ok b key s (mirror_sell cfg b key tx lg o amount s).
Proof.
  unfold mirror_sell, ensureAllowance, bind, call, emit, guard, lift, ret, skip, record_trade,
    push_trade, persistState.
  repeat (cbn; try branch_case); branch_done.
Qed.

#[local] Transparent maxUint256.

Lemma includes_In l x : includes l x = true <-> In x l.
Proof.
  unfold includes. rewrite existsb_exists. split.
  - intros [y [Hy E]]. apply String.eqb_eq in E. now subst.
  - intros H. exists x. split; [exact H|apply String.eqb_refl].
Qed.

Lemma includes_false l x : includes l x = false <-> ~ In x l.
Proof.
  rewrite <- includes_In. destruct (includes l x); split; congruence.
Qed.

Lemma labelled_other b key k p tr :
  labelled b key tr -> k <> key -> count_sig p k tr = 0%nat.
Proof.
  unfold labelled, count_sig. induction 1 as [|e tr He _ IH]; intros Hk; cbn; [reflexivity|].
  destruct e as [b'|b' k' a|snap]; cbn; auto.
  destruct He as [_ ->]. destruct (String.eqb_spec key k); [congruence|]. cbn. auto.
Qed.


Lemma labelled_fetched b key tr : labelled b key tr -> fetched tr = [].
Proof.
  unfold labelled, fetched. induction 1 as [|e tr He _ IH]; cbn; [reflexivity|].
  destruct e; cbn; tauto.
Qed.

Lemma labelled_block b key tr b' k a :
  labelled b key tr -> In (EvSignal b' k a) tr -> b' = b /\ k = key.
Proof.
  unfold labelled. rewrite Forall_forall. intros H Hin. exact (H _ Hin).
Qed.

(** The guardrail emits nothing.  Either it leaves the state as it was, or the
    entry classified to a key not yet seen and that key, and nothing else, was
    appended to the seen set. *)
Lemma arm_cases cfg tx lg o s :
  let r := arm cfg tx lg o s in
  trace_of r = []
  /\ lastScannedBlock (state_of r) = lastScannedBlock s
  /\ trades (state_of r) = trades s
  /\ ((state_of r = s /\ value_of r = None)
      \/ exists sd key,
           classify cfg tx lg = Some (sd, key)
           /\ includes (seen s) key = false
           /\ seen (state_of r) = seen s ++ [key]
           /\ forall sd' key' amount, value_of r = Some (sd', key', amount) ->
                sd' = sd /\ key' = key).
Proof.
  unfold arm, bind, lift, guard, get, push_seen, ret, skip, state_of, trace_of, value_of.
  destruct (classify cfg tx lg) as [[sd key]|]; cbn; [|tauto].
  destruct (negb (is_sell sd && negb (AUTO_SELL_ENABLED cfg))); cbn; [|tauto].
  destruct (includes (seen s) key) eqn:Hseen; cbn; [tauto|].
  repeat (cbn; try branch_case);
    (split; [reflexivity|]; split; [reflexivity|]; split; [reflexivity|];
     right; exists sd, key; split; [reflexivity|]; split; [exact Hseen|];
     split; [reflexivity|];
     intros sd' key' amount E; inversion E; auto).
Qed.

(** One log entry: nothing happens, or the key enters the seen set and one of
    the two mirror branches runs for it. *)
Lemma process_log_cases cfg b tx lg o s :
  let r := process_log cfg b tx (lg, o) s in
  (state_of r = s /\ trace_of r = [])
  \/ exists sd key s1,
       classify cfg tx lg = Some (sd, key)
       /\ includes (seen s) key = false
       /\ s1 = mkState (seen s ++ [key]) (trades s) (lastScannedBlock s)
       /\ ((state_of r = s1 /\ trace_of r = []) \/ branch_ok b key s1 r).
Proof.
  cbn zeta. unfold process_log, bind.
  pose proof (arm_cases cfg tx lg o s) as H. cbn zeta in H.
  destruct (arm cfg tx lg o s) as [[[[[sd key] amount]|] s1] t1];
    unfold state_of, trace_of, value_of in *; cbn [fst snd] in *;
    destruct H as (-> & Hc & Ht & [[-> Hv]|(sd0 & key0 & Hcl & Hinc & Hseen & Hv)]);
    try discriminate.
  - destruct (Hv _ _ _ eq_refl) as [-> ->].
    assert (Es : s1 = mkState (seen s ++ [key0]) (trades s) (lastScannedBlock s)).
    { destruct s1; cbn in *; congruence. }
    right. exists sd0, key0, s1. repeat split; auto.
    right.
    destruct sd0.
    + pose proof (mirror_buy_ok cfg b key0 tx lg o amount s1) as Hb.
      destruct (mirror_buy cfg b key0 tx lg o amount s1) as [[r s2] t2]. exact Hb.
    + pose proof (mirror_sell_ok cfg b key0 tx lg o amount s1) as Hb.
      destruct (mirror_sell cfg b key0 tx lg o amount s1) as [[r s2] t2]. exact Hb.
  - now left.
  - right. exists sd0, key0, s1. repeat split; auto.
    destruct s1; cbn in *; congruence.
Qed.

(* ------------------------------------------------------------------ *)
(** ** Dedup: what the seen set guarantees for one key *)







(* ------------------------------------------------------------------ *)
(** ** C1: at most one execution per dedup identity *)






(** What a restart keeps: the state file is the state with the seen list cut
    to its last 20000 keys and the trades to the last 2000, so a state within
    those bounds is reloaded as it was. *)
Lemma restart_reloads_bounded_state s :
  Z.of_nat (List.length (seen s)) <= 20000 ->
  Z.of_nat (List.length (trades s)) <= 2000 ->
  buildState (Some (trimmed s)) = s.
Proof.
  intros H1 H2. unfold buildState, trimmed, slice_last.
  replace (Z.to_nat (Z.of_nat (List.length (seen s)) - 20000)) with 0%nat by lia.
  replace (Z.to_nat (Z.of_nat (List.length (trades s)) - 2000)) with 0%nat by lia.
  destruct s; reflexivity.
Qed.

(** Beyond the bound the oldest key is lost: with 20000 keys pushed after the
    key of 0xAA, the file no longer holds it, and a process started from the
    file mirrors 0xAA when it meets it. *)
Example restart_after_eviction :
  In Samples.key_aa (seen SamplesEviction.full_state)
  /\ includes (seen (trimmed SamplesEviction.full_state)) Samples.key_aa = false
  /\ count_sig is_detected Samples.key_aa
       (session Samples.cfg_dry [Samples.world_aa 100] None
          (Some (trimmed SamplesEviction.full_state))) = 1%nat.
Proof. split; [now left|]. vm_compute. split; reflexivity. Qed.

(** The bound of C1 is reached: the sample buy is mirrored once, and a second
    poll that returns the same block again adds nothing. *)
Example rescan_in_process :
  count_sig is_trade Samples.key_aa
    (trace_of (run Samples.cfg_dry [Samples.world_aa 100; Samples.world_aa 100]
                 (Samples.st_at 99))) = 1%nat
  /\ fetched (trace_of (run Samples.cfg_dry [Samples.world_aa 100; Samples.world_aa 100]
                          (Samples.st_at 99))) = [100].
Proof. vm_compute. split; reflexivity. Qed.


(* ------------------------------------------------------------------ *)
(** ** Write ordering along the scan *)

Lemma cursor_after_app c t1 t2 :
  cursor_after c (t1 ++ t2) = cursor_after (cursor_after c t1) t2.
Proof. unfold cursor_after. apply fold_left_app. Qed.

Lemma durable_app t1 : forall c t2,
  durable c t1 -> durable (cursor_after c t1) t2 -> durable c (t1 ++ t2).
Proof.
  induction t1 as [|e t1 IH]; intros c t2 H1 H2; cbn in *; [exact H2|].
  destruct e as [b|b k a|snap]; cbn in *.
  - destruct H1 as [Hb H1]. split; auto.
  - destruct H1 as (Hb & Ha & H1). repeat split; auto.
    destruct a; auto. destruct t1 as [|[b'|b' k' a'|snap'] t1']; cbn; tauto.
  - destruct H1 as [Hc H1]. split; auto.
Qed.

Lemma durable_split pre : forall c rest,
  durable c (pre ++ rest) -> durable (cursor_after c pre) rest.
Proof.
  induction pre as [|e pre IH]; intros c rest H; cbn in *; [exact H|].
  destruct e as [b|b k a|snap]; cbn in *.
  - apply IH. tauto.
  - apply IH. tauto.
  - apply IH. tauto.
Qed.

Lemma durable_signal t : forall c b k a,
  durable c t -> In (EvSignal b k a) t -> cursor_lt c b.
Proof.
  induction t as [|e t IH]; intros c b k a H Hin; cbn in *; [contradiction|].
  destruct Hin as [->|Hin].
  - tauto.
  - destruct e as [b0|b0 k0 a0|snap]; cbn in *.
    + eapply IH; [|exact Hin]. tauto.
    + eapply IH; [|exact Hin]. tauto.
    + destruct H as [Hc H]. eapply cursor_le_lt; [exact Hc|]. eapply IH; eauto.
Qed.

Lemma durable_fetch t : forall c b,
  durable c t -> In b (fetched t) -> cursor_lt c b.
Proof.
  induction t as [|e t IH]; intros c b H Hin; cbn in *; [contradiction|].
  destruct e as [b0|b0 k0 a0|snap]; cbn in *.
  - destruct Hin as [->|Hin]; [tauto|]. apply IH; tauto.
  - apply IH; tauto.
  - destruct H as [Hc H]. eapply cursor_le_lt; [exact Hc|]. apply IH; auto.
Qed.

Lemma block_rel_stable b : stable (block_rel b).
Proof.
  split.
  - intros s. unfold block_rel. cbn. repeat split; auto. intros ? ? ? [].
  - intros s s1 s2 t1 t2 (C1 & A1 & F1 & B1 & D1) (C2 & A2 & F2 & B2 & D2).
    unfold block_rel. rewrite cursor_after_app, fetched_app, A1, F1, F2.
    rewrite C1 in *. repeat split; auto.
    + intros b' k a Hin. apply in_app_or in Hin. destruct Hin; eauto.
    + intros Hlt. apply durable_app; [auto|]. rewrite A1. auto.
Qed.

Lemma process_log_block cfg b tx lo : respects (block_rel b) (process_log cfg b tx lo).
Proof.
  destruct lo as [lg o]. intros s.
  pose proof (process_log_cases cfg b tx lg o s) as H. cbn zeta in H.
  destruct (process_log cfg b tx (lg, o) s) as [[r s'] t].
  unfold state_of, trace_of in *. cbn [fst snd] in *.
  destruct H as [[-> ->]|(sd & key & s1 & Hcl & Hinc & -> & [[-> ->]|Hb])].
  - apply (stable_nil _ (block_rel_stable b)).
  - unfold block_rel. cbn. repeat split; auto. intros ? ? ? [].
  - destruct Hb as (_ & Hc & Hlab & _ & _ & _ & Ha & Hd & _).
    unfold state_of, trace_of in *. cbn [fst snd lastScannedBlock] in *.
    unfold block_rel. repeat split; auto.
    + eapply labelled_fetched; eauto.
    + intros b' k a Hin. eapply labelled_block; eauto.
Qed.

Lemma process_tx_block cfg b item : respects (block_rel b) (process_tx cfg b item).
Proof.
  pose proof (block_rel_stable b) as HR.
  unfold process_tx. destruct item as [h|tx].
  - respects_step HR.
  - repeat respects_step HR. apply process_log_block.
Qed.

Lemma for_each_value {A} (l : list A) (body : A -> M unit) : forall s,
  value_of (for_each l body s) = Some tt.
Proof.
  induction l as [|x l IH]; intros s; cbn; [reflexivity|].
  unfold bind, iteration. destruct (body x s) as [[r1 s1] t1].
  specialize (IH s1). destruct (for_each l body s1) as [[r2 s2] t2]. exact IH.
Qed.

(** One block: the fetch, the signals of that block, and the cursor write. *)
Lemma process_block_scan cfg w b s :
  cursor_lt (lastScannedBlock s) b ->
  let r := process_block cfg w b s in
  durable (lastScannedBlock s) (trace_of r)
  /\ cursor_after (lastScannedBlock s) (trace_of r) = lastScannedBlock (state_of r)
  /\ fetched (trace_of r) = [b]
  /\ lastScannedBlock (state_of r)
     = match w_getBlock w b with Some _ => Some b | None => lastScannedBlock s end
  /\ (forall b' k a, In (EvSignal b' k a) (trace_of r) -> b' = b /\ w_getBlock w b <> None).
Proof.
  intros Hlt. cbn zeta. unfold process_block, bind, call.
  destruct (w_getBlock w b) as [txs|].
  - pose proof (respects_for_each _ (block_rel_stable b) txs (process_tx cfg b)
                  (fun x _ => process_tx_block cfg b x) s) as (C1 & A1 & F1 & B1 & D1).
    pose proof (for_each_value txs (process_tx cfg b) s) as Hv.
    destruct (for_each txs (process_tx cfg b) s) as [[r1 s1] t1].
    unfold state_of, trace_of, value_of in *; cbn [fst snd] in *. subst r1.
    unfold advance_cursor, bind, set_cursor, persistState.
    cbn [fst snd lastScannedBlock app].
    change (EvGetBlock b :: t1 ++ [EvPersist (trimmed (mkState (seen s1) (trades s1) (Some b)))])
      with ([EvGetBlock b] ++ t1 ++ [EvPersist (trimmed (mkState (seen s1) (trades s1) (Some b)))]).
    rewrite !fetched_app, F1.
    split; [|split; [|split; [|split]]]; auto.
    + apply (durable_app [EvGetBlock b]); [cbn; auto|].
      change (cursor_after (lastScannedBlock s) [EvGetBlock b]) with (lastScannedBlock s).
      apply (durable_app t1); [auto|]. rewrite A1. cbn. split; auto.
      destruct (lastScannedBlock s); cbn in *; lia.
    + rewrite !cursor_after_app. reflexivity.
    + intros b' k a Hin. split; [|discriminate].
      apply in_app_or in Hin. destruct Hin as [[E|[]]|Hin]; [discriminate|].
      apply in_app_or in Hin. destruct Hin as [Hin|[E|[]]]; [eauto|discriminate].
  - cbn. split; [|split; [|split; [|split]]]; auto.
    intros b' k a [E|[]]; discriminate.
Qed.

(** A walk over consecutive blocks that starts past the cursor. *)
Lemma scan_range cfg w n : forall f s,
  cursor_lt (lastScannedBlock s) f ->
  let r := for_each (range_from f n) (process_block cfg w) s in
  durable (lastScannedBlock s) (trace_of r)
  /\ cursor_after (lastScannedBlock s) (trace_of r) = lastScannedBlock (state_of r)
  /\ fetched (trace_of r) = range_from f n
  /\ lastScannedBlock (state_of r) = last_fetched w (range_from f n) (lastScannedBlock s)
  /\ (forall b k a, In (EvSignal b k a) (trace_of r) ->
        In b (range_from f n) /\ w_getBlock w b <> None)
  /\ cursor_lt (lastScannedBlock (state_of r)) (f + Z.of_nat n).
Proof.
  induction n as [|n IH]; intros f s Hlt; cbn zeta.
  - cbn. rewrite Z.add_0_r. split; [|split; [|split; [|split; [|split]]]]; auto.
    all: try (intros b k a []).
  - cbn [range_from for_each]. unfold bind, iteration.
    pose proof (process_block_scan cfg w f s Hlt) as (D1 & A1 & F1 & C1 & B1).
    destruct (process_block cfg w f s) as [[r1 s1] t1].
    unfold state_of, trace_of in *; cbn [fst snd] in *.
    assert (Hlt1 : cursor_lt (lastScannedBlock s1) (f + 1)).
    { rewrite C1. destruct (w_getBlock w f); cbn; [lia|].
      destruct (lastScannedBlock s); cbn in *; lia. }
    specialize (IH (f + 1) s1 Hlt1). cbn zeta in IH.
    destruct (for_each (range_from (f + 1) n) (process_block cfg w) s1) as [[r2 s2] t2].
    unfold state_of, trace_of in *; cbn [fst snd] in *.
    destruct IH as (D2 & A2 & F2 & C2 & B2 & L2).
    rewrite cursor_after_app, fetched_app, A1, A2, F1, F2, C2, C1.
    split; [|split; [|split; [|split; [|split]]]]; auto.
    + apply durable_app; [auto|]. rewrite A1. auto.
    + intros b k a Hin. apply in_app_or in Hin. destruct Hin as [Hin|Hin].
      * destruct (B1 _ _ _ Hin) as [-> Hg]. split; [now left|auto].
      * destruct (B2 _ _ _ Hin) as [Hr Hg]. split; [now right|auto].
    + rewrite <- C1, <- C2. replace (f + Z.of_nat (S n)) with (f + 1 + Z.of_nat n) by lia.
      exact L2.
Qed.

Lemma scan_rel_stable : stable scan_rel.
Proof.
  split.
  - intros s. unfold scan_rel. cbn. auto.
  - intros s s1 s2 t1 t2 [D1 A1] [D2 A2]. unfold scan_rel.
    rewrite cursor_after_app, A1. split; auto.
    apply durable_app; [auto|]. rewrite A1. auto.
Qed.

Lemma fromBlock_past_cursor cfg s latest :
  cursor_lt (lastScannedBlock s) (fromBlock_of cfg s latest).
Proof. unfold fromBlock_of. destruct (lastScannedBlock s); cbn; [lia|exact I]. Qed.

Lemma run_cycle_scan cfg w : respects scan_rel (run_cycle cfg w).
Proof.
  intros s. unfold run_cycle, bind, lift, guard, get.
  destruct (w_latest w) as [latest|]; cbn; [|apply (stable_nil _ scan_rel_stable)].
  destruct (0 <? latest); cbn; [|apply (stable_nil _ scan_rel_stable)].
  destruct (fromBlock_of cfg s latest <=? latest); cbn;
    [|apply (stable_nil _ scan_rel_stable)].
  pose proof (scan_range cfg w
                (Z.to_nat (toBlock_of cfg (fromBlock_of cfg s latest) latest
                           - fromBlock_of cfg s latest + 1))
                (fromBlock_of cfg s latest) s (fromBlock_past_cursor cfg s latest))
    as (D & A & _).
  unfold block_range.
  destruct (for_each _ (process_block cfg w) s) as [[r1 s1] t1].
  unfold scan_rel. cbn in *. auto.
Qed.

Lemma run_scan cfg ws : respects scan_rel (run cfg ws).
Proof.
  unfold run. apply (respects_for_each _ scan_rel_stable).
  intros w _. apply run_cycle_scan.
Qed.

(* ------------------------------------------------------------------ *)
(** ** C5: trades are written before the cursor moves *)

(** C5.  Take the trace of any run of the engine, from any loaded state, and
    any event [e] of it: [pre] is what happened before, [post] what follows.
    - If [e] pushes a trade record for a signal of block [b], the very next
      event is a write of the state file; the file written holds the record
      and its cursor is still before [b].
    - If [e] writes the state file with the cursor at [c], every trade record
      of a block at or before [c] that this run pushes was pushed in [pre],
      with the write that holds it next to it, in [pre] or as [e] itself; and
      no block at or before [c] is handled after [e].
    - If [e] is no write, the store is the same before and after [e]: a
      process that dies between two writes leaves what the earlier one
      wrote. *)
Theorem C5_trades_written_before_cursor (cfg : Config) (ws : list World) (st : State)
    (pre post : list Event) (e : Event) :
  trace_of (run cfg ws st) = pre ++ e :: post ->
  (forall b k t, e = EvSignal b k (ATrade t) ->
     exists snap post', post = EvPersist snap :: post'
       /\ In t (trades snap) /\ cursor_lt (lastScannedBlock snap) b)
  /\ (forall snap c, e = EvPersist snap -> lastScannedBlock snap = Some c ->
        (forall b k a, In (EvSignal b k a) post -> c < b)
        /\ (forall b, In b (fetched post) -> c < b)
        /\ (forall b k t, b <= c -> In (EvSignal b k (ATrade t)) (pre ++ e :: post) ->
              exists p1 snap' p2,
                pre ++ [e] = p1 ++ EvSignal b k (ATrade t) :: EvPersist snap' :: p2
                /\ In t (trades snap')))
  /\ (forall disk, (forall snap, e <> EvPersist snap) ->
        disk_after disk (pre ++ [e]) = disk_after disk pre).
Proof.
  intros Htr.
  destruct (run_scan cfg ws st) as [Hd _]. rewrite Htr in Hd.
  assert (Hat : forall p1 b k t rest,
             pre ++ e :: post = p1 ++ EvSignal b k (ATrade t) :: rest ->
             exists snap rest', rest = EvPersist snap :: rest'
               /\ In t (trades snap) /\ cursor_lt (lastScannedBlock snap) b).
  { intros p1 b k t rest E. rewrite E in Hd. apply durable_split in Hd.
    cbn in Hd. destruct Hd as (Hlt & Hnext & _).
    destruct rest as [|[b'|b' k' a'|snap] rest']; try contradiction.
    exists snap, rest'. destruct Hnext as [Hin Hc]. rewrite Hc. auto. }
  split; [|split].
  - intros b k t ->. exact (Hat pre b k t post eq_refl).
  - intros snap c -> Hc.
    apply durable_split in Hd. cbn in Hd. destruct Hd as [_ Hd]. rewrite Hc in Hd.
    assert (Hpost : forall b k a, In (EvSignal b k a) post -> c < b).
    { intros b k a Hin. exact (durable_signal _ _ _ _ _ Hd Hin). }
    split; [exact Hpost|]. split.
    + intros b Hin. exact (durable_fetch _ _ _ Hd Hin).
    + intros b k t Hle Hin.
      apply in_app_or in Hin. destruct Hin as [Hin|[E|Hin]].
      * apply in_split in Hin. destruct Hin as (p1 & p2 & ->).
        destruct (Hat p1 b k t (p2 ++ EvPersist snap :: post)) as (snap' & rest' & E & Ht & _).
        { now rewrite <- app_assoc. }
        destruct p2 as [|e2 p2]; cbn in E.
        -- inversion E; subst. exists p1, snap', []. split; [|exact Ht].
           now rewrite <- app_assoc.
        -- inversion E; subst. exists p1, snap', (p2 ++ [EvPersist snap]).
           split; [|exact Ht]. now rewrite <- app_assoc.
      * discriminate.
      * specialize (Hpost _ _ _ Hin). lia.
  - intros disk Hne. rewrite disk_after_app. cbn.
    destruct e; try reflexivity. exfalso. eapply Hne. reflexivity.
Qed.

Lemma C5_trades_written_before_cursor_witness :
  trace_of (run Samples.cfg_dry [Samples.world_aa 100] (Samples.st_at 99))
    = SamplesTrace.before_trade
      ++ EvSignal 100 Samples.key_aa (ATrade SamplesTrace.trade_aa) :: SamplesTrace.after_trade
  /\ exists snap post',
       SamplesTrace.after_trade = EvPersist snap :: post'
       /\ In SamplesTrace.trade_aa (trades snap)
       /\ cursor_lt (lastScannedBlock snap) 100.
Proof.
  assert (Htr : trace_of (run Samples.cfg_dry [Samples.world_aa 100] (Samples.st_at 99))
                = SamplesTrace.before_trade
                  ++ EvSignal 100 Samples.key_aa (ATrade SamplesTrace.trade_aa)
                     :: SamplesTrace.after_trade)
    by (vm_compute; reflexivity).
  split; [exact Htr|].
  exact (proj1 (C5_trades_written_before_cursor Samples.cfg_dry [Samples.world_aa 100]
                  (Samples.st_at 99) SamplesTrace.before_trade SamplesTrace.after_trade
                  (EvSignal 100 Samples.key_aa (ATrade SamplesTrace.trade_aa)) Htr)
               100 Samples.key_aa SamplesTrace.trade_aa eq_refl).
Defined.

(* ------------------------------------------------------------------ *)
(** ** The block range of one cycle *)

Lemma In_range_from n : forall f b,
  In b (range_from f n) <-> f <= b < f + Z.of_nat n.
Proof.
  induction n as [|n IH]; intros f b; cbn [range_from In].
  - lia.
  - rewrite IH. lia.
Qed.

Lemma In_block_range f t b : In b (block_range f t) <-> f <= b <= t.
Proof. unfold block_range. rewrite In_range_from. lia. Qed.

Lemma run_cycle_unfold cfg w s latest :
  w_latest w = Some latest -> 0 < latest ->
  run_cycle cfg w s =
    if fromBlock_of cfg s latest <=? latest
    then for_each (block_range (fromBlock_of cfg s latest)
                     (toBlock_of cfg (fromBlock_of cfg s latest) latest))
           (process_block cfg w) s
    else (Some tt, s, []).
Proof.
  intros Hl Hpos. unfold run_cycle, bind, lift, guard, get. rewrite Hl.
  apply Z.ltb_lt in Hpos. rewrite Hpos. cbn.
  destruct (fromBlock_of cfg s latest <=? latest); cbn; [|reflexivity].
  destruct (for_each _ (process_block cfg w) s) as [[r1 s1] t1]. reflexivity.
Qed.

Lemma run_cycle_no_height cfg w s :
  (w_latest w = None \/ exists latest, w_latest w = Some latest /\ latest <= 0) ->
  run_cycle cfg w s = (None, s, []).
Proof.
  intros [Hl|(latest & Hl & Hle)]; unfold run_cycle, bind, lift, guard; rewrite Hl.
  - reflexivity.
  - apply Z.ltb_ge in Hle. rewrite Hle. reflexivity.
Qed.

(** One cycle from a known cursor: the walk over the closed range. *)
Lemma run_cycle_range cfg w s cursor latest :
  lastScannedBlock s = Some cursor -> w_latest w = Some latest -> 0 < latest ->
  let toBlock := Z.min latest (cursor + MAX_BLOCK_SCAN_PER_CYCLE cfg) in
  let r := run_cycle cfg w s in
  fetched (trace_of r) = block_range (cursor + 1) toBlock
  /\ lastScannedBlock (state_of r)
     = last_fetched w (block_range (cursor + 1) toBlock) (Some cursor)
  /\ (forall b k a, In (EvSignal b k a) (trace_of r) ->
        In b (block_range (cursor + 1) toBlock) /\ w_getBlock w b <> None).
Proof.
  intros Hc Hl Hpos. cbn zeta. rewrite (run_cycle_unfold cfg w s latest Hl Hpos).
  unfold fromBlock_of, toBlock_of. rewrite Hc.
  replace (cursor + 1 + MAX_BLOCK_SCAN_PER_CYCLE cfg - 1)
    with (cursor + MAX_BLOCK_SCAN_PER_CYCLE cfg) by lia.
  destruct (Z.leb_spec (cursor + 1) latest) as [Hle|Hgt].
  - assert (Hlt : cursor_lt (lastScannedBlock s) (cursor + 1)) by (rewrite Hc; cbn; lia).
    pose proof (scan_range cfg w
                  (Z.to_nat (Z.min latest (cursor + MAX_BLOCK_SCAN_PER_CYCLE cfg)
                             - (cursor + 1) + 1)) (cursor + 1) s Hlt)
      as (_ & _ & F & C & B & _).
    rewrite Hc in C. unfold block_range. auto.
  - unfold block_range.
    replace (Z.to_nat (Z.min latest (cursor + MAX_BLOCK_SCAN_PER_CYCLE cfg)
                       - (cursor + 1) + 1)) with 0%nat by lia.
    cbn. split; [|split]; auto; intros b k a [].
Qed.

(** One cycle from a known, non-negative cursor, whatever the height call
    returns. *)
Lemma run_cycle_fetches cfg w st cursor latest :
  lastScannedBlock st = Some cursor ->
  w_latest w = Some latest ->
  0 <= cursor ->
  fetched (trace_of (run_cycle cfg w st))
    = block_range (cursor + 1) (Z.min latest (cursor + MAX_BLOCK_SCAN_PER_CYCLE cfg))
  /\ (forall b, In b (fetched (trace_of (run_cycle cfg w st)))
        <-> cursor + 1 <= b <= Z.min latest (cursor + MAX_BLOCK_SCAN_PER_CYCLE cfg))
  /\ (forall b k a, In (EvSignal b k a) (trace_of (run_cycle cfg w st)) ->
        cursor + 1 <= b <= Z.min latest (cursor + MAX_BLOCK_SCAN_PER_CYCLE cfg)).
Proof.
  intros Hc Hl Hnn.
  assert (H : fetched (trace_of (run_cycle cfg w st))
              = block_range (cursor + 1) (Z.min latest (cursor + MAX_BLOCK_SCAN_PER_CYCLE cfg))
              /\ (forall b k a, In (EvSignal b k a) (trace_of (run_cycle cfg w st)) ->
                    In b (block_range (cursor + 1)
                            (Z.min latest (cursor + MAX_BLOCK_SCAN_PER_CYCLE cfg))))).
  { destruct (Z.ltb_spec 0 latest) as [Hpos|Hle].
    - destruct (run_cycle_range cfg w st cursor latest Hc Hl Hpos) as (F & _ & B).
      split; [exact F|]. intros b k a Hin. exact (proj1 (B b k a Hin)).
    - rewrite run_cycle_no_height by (right; eauto). cbn.
      unfold block_range.
      replace (Z.to_nat (Z.min latest (cursor + MAX_BLOCK_SCAN_PER_CYCLE cfg)
                         - (cursor + 1) + 1)) with 0%nat by lia.
      cbn. split; [reflexivity|]. intros b k a []. }
  destruct H as [F B]. split; [exact F|]. split.
  - intros b. rewrite F. apply In_block_range.
  - intros b k a Hin. apply In_block_range. eauto.
Qed.

Lemma cursor_le_trans c1 c2 c3 : cursor_le c1 c2 -> cursor_le c2 c3 -> cursor_le c1 c3.
Proof. destruct c1, c2, c3; cbn; try lia; tauto. Qed.

Lemma durable_cursor_le t1 : forall c t2,
  durable c (t1 ++ t2) -> cursor_le c (cursor_after c t1).
Proof.
  induction t1 as [|e t1 IH]; intros c t2 H; cbn in *; [apply cursor_le_refl|].
  destruct e as [b|b k a|snap]; cbn in *.
  - apply (IH c t2). tauto.
  - apply (IH c t2). tauto.
  - destruct H as [Hc H]. eapply cursor_le_trans; [exact Hc|]. apply (IH _ t2). exact H.
Qed.

Lemma cursor_le_antisym c c' : cursor_le c c' -> cursor_le c' c -> c = c'.
Proof. destruct c, c'; cbn; try tauto. intros. f_equal. lia. Qed.

(** Along a trace that keeps the write ordering and ends on the cursor it
    started with, every write carries that cursor. *)
Lemma durable_keeps_cursor t : forall c,
  durable c t -> cursor_after c t = c ->
  forall snap, In (EvPersist snap) t -> lastScannedBlock snap = c.
Proof.
  induction t as [|e t IH]; intros c Hd Ha snap Hin; [contradiction|].
  destruct e as [b|b k a|s1]; cbn in Hd.
  - change (cursor_after c t = c) in Ha.
    destruct Hin as [E|Hin]; [discriminate|]. apply (IH c); tauto.
  - change (cursor_after c t = c) in Ha.
    destruct Hin as [E|Hin]; [discriminate|]. apply (IH c); tauto.
  - change (cursor_after (lastScannedBlock s1) t = c) in Ha.
    destruct Hd as [Hle Hd].
    assert (E : lastScannedBlock s1 = c).
    { symmetry. apply cursor_le_antisym; [exact Hle|].
      rewrite <- Ha. apply (durable_cursor_le t _ []). now rewrite app_nil_r. }
    destruct Hin as [Hs|Hin]; [inversion Hs; subst; exact E|].
    rewrite <- E. apply IH; [exact Hd|congruence|exact Hin].
Qed.

(* ------------------------------------------------------------------ *)
(** ** C8: the blocks of one scan cycle *)

(** A block that is served: the fetch, the walk over its transactions, then
    the cursor set to the block and the state written. *)
Lemma process_block_served cfg w b s txs :
  w_getBlock w b = Some txs ->
  process_block cfg w b s
  = (Some tt,
     mkState (seen (state_of (for_each txs (process_tx cfg b) s)))
       (trades (state_of (for_each txs (process_tx cfg b) s))) (Some b),
     [EvGetBlock b] ++ trace_of (for_each txs (process_tx cfg b) s)
     ++ [EvPersist (trimmed
           (mkState (seen (state_of (for_each txs (process_tx cfg b) s)))
              (trades (state_of (for_each txs (process_tx cfg b) s))) (Some b)))]).
Proof.
  intros Hw. unfold process_block, bind, call. rewrite Hw.
  pose proof (for_each_value txs (process_tx cfg b) s) as Hv.
  destruct (for_each txs (process_tx cfg b) s) as [[r1 s1] t1].
  unfold value_of, state_of, trace_of in *. cbn [fst snd] in *. subst r1.
  unfold advance_cursor, bind, set_cursor, persistState. cbn [fst snd app].
  reflexivity.
Qed.

(** A block whose fetch fails: the attempt, and nothing else. *)
Lemma process_block_failed cfg w b s :
  w_getBlock w b = None -> process_block cfg w b s = (None, s, [EvGetBlock b]).
Proof. intros Hw. unfold process_block, bind, call. now rewrite Hw. Qed.

Lemma for_each_cons {A} (x : A) (l : list A) (body : A -> M unit) (s : State) :
  state_of (for_each (x :: l) body s) = state_of (for_each l body (state_of (body x s)))
  /\ trace_of (for_each (x :: l) body s)
     = trace_of (body x s) ++ trace_of (for_each l body (state_of (body x s))).
Proof.
  cbn [for_each]. unfold bind, iteration.
  destruct (body x s) as [[r1 s1] t1].
  unfold state_of, trace_of. cbn [fst snd].
  destruct (for_each l body s1) as [[r2 s2] t2]. auto.
Qed.

(** The writes made while the transactions of block [b] are handled carry the
    cursor as it stood when the block was fetched. *)
Lemma walk_writes cfg b txs s snap :
  cursor_lt (lastScannedBlock s) b ->
  In (EvPersist snap) (trace_of (for_each txs (process_tx cfg b) s)) ->
  lastScannedBlock snap = lastScannedBlock s.
Proof.
  intros Hlt Hin.
  pose proof (respects_for_each _ (block_rel_stable b) txs (process_tx cfg b)
                (fun x _ => process_tx_block cfg b x) s) as (_ & A1 & _ & _ & D1).
  exact (durable_keeps_cursor _ _ (D1 Hlt) A1 snap Hin).
Qed.

(** A walk over consecutive blocks that starts past the cursor: each block
    that is served is handled in full, and every write carries the cursor of
    the start or a block of the walk that was served. *)
Lemma walk_blocks cfg w n : forall f s,
  cursor_lt (lastScannedBlock s) f ->
  (forall b txs, In b (range_from f n) -> w_getBlock w b = Some txs ->
     exists s0 pre post,
       trace_of (for_each (range_from f n) (process_block cfg w) s)
       = pre ++ [EvGetBlock b] ++ trace_of (for_each txs (process_tx cfg b) s0)
         ++ [EvPersist (trimmed
               (mkState (seen (state_of (for_each txs (process_tx cfg b) s0)))
                  (trades (state_of (for_each txs (process_tx cfg b) s0))) (Some b)))]
         ++ post)
  /\ (forall snap,
        In (EvPersist snap) (trace_of (for_each (range_from f n) (process_block cfg w) s)) ->
        lastScannedBlock snap = lastScannedBlock s
        \/ exists b, In b (range_from f n) /\ w_getBlock w b <> None
                     /\ lastScannedBlock snap = Some b).
Proof.
  induction n as [|n IH]; intros f s Hlt.
  - split; [intros b txs []|intros snap []].
  - cbn [range_from].
    destruct (for_each_cons f (range_from (f + 1) n) (process_block cfg w) s) as [_ Et].
    rewrite Et. clear Et.
    pose proof (process_block_scan cfg w f s Hlt) as (_ & _ & _ & C1 & _). cbn zeta in C1.
    assert (Hlt1 : cursor_lt (lastScannedBlock (state_of (process_block cfg w f s))) (f + 1)).
    { rewrite C1. destruct (w_getBlock w f); cbn; [lia|].
      destruct (lastScannedBlock s); cbn in *; lia. }
    destruct (IH (f + 1) (state_of (process_block cfg w f s)) Hlt1) as [IH1 IH2].
    split.
    + intros b txs [<-|Hin] Hw.
      * exists s, [], (trace_of (for_each (range_from (f + 1) n) (process_block cfg w)
                                   (state_of (process_block cfg w f s)))).
        rewrite (process_block_served cfg w f s txs Hw) at 1.
        unfold trace_of at 1. cbn [snd]. rewrite <- !app_assoc. reflexivity.
      * destruct (IH1 b txs Hin Hw) as (s0 & pre & post & E).
        exists s0, (trace_of (process_block cfg w f s) ++ pre), post.
        rewrite E, <- app_assoc. reflexivity.
    + intros snap Hin. apply in_app_or in Hin. destruct Hin as [Hin|Hin].
      * destruct (w_getBlock w f) as [txs|] eqn:Hw.
        -- rewrite (process_block_served cfg w f s txs Hw) in Hin.
           unfold trace_of at 1 in Hin. cbn [snd] in Hin.
           apply in_app_or in Hin. destruct Hin as [[E|[]]|Hin]; [discriminate|].
           apply in_app_or in Hin. destruct Hin as [Hin|[E|[]]].
           ++ left. exact (walk_writes cfg f txs s snap Hlt Hin).
           ++ right. exists f. split; [now left|]. split; [congruence|].
              inversion E. reflexivity.
        -- rewrite (process_block_failed cfg w f s Hw) in Hin.
           destruct Hin as [E|[]]. discriminate.
      * destruct (IH2 snap Hin) as [E|(b & Hb & Hw & E)].
        -- rewrite E, C1. destruct (w_getBlock w f) eqn:Hw; [|now left].
           right. exists f. split; [now left|]. split; [congruence|reflexivity].
        -- right. exists b. split; [now right|]. auto.
Qed.

(** C8.  With the cursor at [cursor] (a block height, so not negative) and the
    chain at [latest], one cycle fetches exactly the blocks [cursor+1],
    [cursor+2], ... up to [min latest (cursor + MAX_BLOCK_SCAN_PER_CYCLE)], in
    that order, and no other.  Each of them that is served is processed in
    full: right after its fetch every item of its transaction list goes
    through the transaction loop, then the cursor is set to the block and the
    state written.  A block whose fetch fails is left at the attempt: no
    signal is handled for it and no write carries it as the cursor.  Signals
    are handled, and cursors written, for no block outside the range (writes
    made before the first block is done carry the cursor of the start), and
    the cycle ends with the cursor on the last block that was served. *)
Theorem C8_cycle_scans_closed_range (cfg : Config) (w : World) (st : State)
    (cursor latest : Z) :
  lastScannedBlock st = Some cursor ->
  w_latest w = Some latest ->
  0 <= cursor ->
  fetched (trace_of (run_cycle cfg w st))
    = block_range (cursor + 1) (Z.min latest (cursor + MAX_BLOCK_SCAN_PER_CYCLE cfg))
  /\ (forall b, In b (fetched (trace_of (run_cycle cfg w st)))
        <-> cursor + 1 <= b <= Z.min latest (cursor + MAX_BLOCK_SCAN_PER_CYCLE cfg))
  /\ (forall b txs,
        cursor + 1 <= b <= Z.min latest (cursor + MAX_BLOCK_SCAN_PER_CYCLE cfg) ->
        w_getBlock w b = Some txs ->
        exists s0 pre post,
          trace_of (run_cycle cfg w st)
          = pre ++ [EvGetBlock b] ++ trace_of (for_each txs (process_tx cfg b) s0)
            ++ [EvPersist (trimmed
                  (mkState (seen (state_of (for_each txs (process_tx cfg b) s0)))
                     (trades (state_of (for_each txs (process_tx cfg b) s0))) (Some b)))]
            ++ post)
  /\ (forall b k a, In (EvSignal b k a) (trace_of (run_cycle cfg w st)) ->
        cursor + 1 <= b <= Z.min latest (cursor + MAX_BLOCK_SCAN_PER_CYCLE cfg)
        /\ w_getBlock w b <> None)
  /\ (forall snap, In (EvPersist snap) (trace_of (run_cycle cfg w st)) ->
        lastScannedBlock snap = Some cursor
        \/ exists b,
             cursor + 1 <= b <= Z.min latest (cursor + MAX_BLOCK_SCAN_PER_CYCLE cfg)
             /\ w_getBlock w b <> None /\ lastScannedBlock snap = Some b)
  /\ lastScannedBlock (state_of (run_cycle cfg w st))
     = last_fetched w
         (block_range (cursor + 1) (Z.min latest (cursor + MAX_BLOCK_SCAN_PER_CYCLE cfg)))
         (Some cursor).
Proof.
  intros Hc Hl Hnn.
  destruct (run_cycle_fetches cfg w st cursor latest Hc Hl Hnn) as (F & Fi & _).
  split; [exact F|]. split; [exact Fi|].
  destruct (Z.ltb_spec 0 latest) as [Hpos|Hle].
  - destruct (run_cycle_range cfg w st cursor latest Hc Hl Hpos) as (_ & C & B).
    cbn zeta in C, B.
    assert (Hlt : cursor_lt (lastScannedBlock st) (cursor + 1)) by (rewrite Hc; cbn; lia).
    assert (E : trace_of (run_cycle cfg w st)
                = trace_of (for_each
                              (block_range (cursor + 1)
                                 (Z.min latest (cursor + MAX_BLOCK_SCAN_PER_CYCLE cfg)))
                              (process_block cfg w) st)).
    { rewrite (run_cycle_unfold cfg w st latest Hl Hpos).
      unfold fromBlock_of, toBlock_of. rewrite Hc.
      replace (cursor + 1 + MAX_BLOCK_SCAN_PER_CYCLE cfg - 1)
        with (cursor + MAX_BLOCK_SCAN_PER_CYCLE cfg) by lia.
      destruct (Z.leb_spec (cursor + 1) latest) as [Hle|Hgt]; [reflexivity|].
      unfold block_range.
      replace (Z.to_nat (Z.min latest (cursor + MAX_BLOCK_SCAN_PER_CYCLE cfg)
                         - (cursor + 1) + 1)) with 0%nat by lia.
      reflexivity. }
    destruct (walk_blocks cfg w
                (Z.to_nat (Z.min latest (cursor + MAX_BLOCK_SCAN_PER_CYCLE cfg)
                           - (cursor + 1) + 1)) (cursor + 1) st Hlt) as [W1 W2].
    fold (block_range (cursor + 1) (Z.min latest (cursor + MAX_BLOCK_SCAN_PER_CYCLE cfg)))
      in W1, W2.
    rewrite <- E in W1, W2.
    split; [|split; [|split]].
    + intros b txs Hb Hw. apply W1; [apply In_block_range; exact Hb|exact Hw].
    + intros b k a Hin. destruct (B b k a Hin) as [Hb Hw].
      split; [apply In_block_range; exact Hb|exact Hw].
    + intros snap Hin. destruct (W2 snap Hin) as [Es|(b & Hb & Hw & Es)].
      * left. now rewrite Es, Hc.
      * right. exists b. split; [apply In_block_range; exact Hb|]. auto.
    + exact C.
  - rewrite run_cycle_no_height by (right; eauto).
    unfold block_range.
    replace (Z.to_nat (Z.min latest (cursor + MAX_BLOCK_SCAN_PER_CYCLE cfg)
                       - (cursor + 1) + 1)) with 0%nat by lia.
    cbn. split; [|split; [|split]].
    + intros b txs Hb. lia.
    + intros b k a [].
    + intros snap [].
    + exact Hc.
Qed.

Lemma C8_cycle_scans_closed_range_witness :
  lastScannedBlock (Samples.st_at 99) = Some 99
  /\ w_latest (Samples.world_aa 130) = Some 130
  /\ 0 <= 99
  /\ fetched (trace_of (run_cycle Samples.cfg_dry (Samples.world_aa 130) (Samples.st_at 99)))
     = block_range (99 + 1) (Z.min 130 (99 + MAX_BLOCK_SCAN_PER_CYCLE Samples.cfg_dry)).
Proof.
  split; [reflexivity|]. split; [reflexivity|]. split; [lia|].
  exact (proj1 (C8_cycle_scans_closed_range Samples.cfg_dry (Samples.world_aa 130)
                  (Samples.st_at 99) 99 130 eq_refl eq_refl (proj1 (Z.leb_le 0 99) eq_refl))).
Defined.

(** Cursor 100, chain at 102, the endpoint failing on block 101: the range of
    the cycle is 101 to 102 and block 101 lies in it, yet the cycle does not
    process it.  It is asked for and left: no write carries it as the cursor,
    and the cycle ends with the cursor on 102. *)
Example C8_failed_block_is_not_processed :
  block_range (100 + 1) (Z.min 102 (100 + MAX_BLOCK_SCAN_PER_CYCLE Samples.cfg_dry))
  = [101; 102]
  /\ w_getBlock Samples.world_gap 101 = None
  /\ trace_of (run_cycle Samples.cfg_dry Samples.world_gap (Samples.st_at 100))
     = [EvGetBlock 101; EvGetBlock 102; EvPersist (mkState [] [] (Some 102))]
  /\ lastScannedBlock (state_of (run_cycle Samples.cfg_dry Samples.world_gap (Samples.st_at 100)))
     = Some 102.
Proof. vm_compute. repeat split; reflexivity. Qed.

(** the range of that cycle: twenty blocks, 100 to 119 *)
Example sample_range : block_range (99 + 1) (Z.min 130 (99 + 20)) = range_from 100 20.
Proof. reflexivity. Qed.

(* ------------------------------------------------------------------ *)
(** ** C3: a block whose fetch fails *)

Lemma last_fetched_cons w b l c :
  last_fetched w (b :: l) c
  = last_fetched w l (match w_getBlock w b with Some _ => Some b | None => c end).
Proof. reflexivity. Qed.

(** The cursor after a walk is the cursor before it when no block was served,
    and else the highest block that was served. *)
Lemma last_fetched_range w n : forall f c,
  (last_fetched w (range_from f n) c = c
   /\ forall b, f <= b < f + Z.of_nat n -> w_getBlock w b = None)
  \/ exists c', last_fetched w (range_from f n) c = Some c'
       /\ f <= c' < f + Z.of_nat n
       /\ w_getBlock w c' <> None
       /\ forall b, c' < b < f + Z.of_nat n -> w_getBlock w b = None.
Proof.
  induction n as [|n IH]; intros f c; cbn [range_from].
  - left. split; [reflexivity|]. intros b Hb. lia.
  - rewrite last_fetched_cons.
    destruct (w_getBlock w f) as [txs|] eqn:Hf.
    + destruct (IH (f + 1) (Some f)) as [[E Hall]|(c' & E & Hr & Hs & Hall)].
      * right. exists f. rewrite E. repeat split; try lia; [congruence|].
        intros b Hb. apply Hall. lia.
      * right. exists c'. rewrite E. repeat split; try lia; [exact Hs|].
        intros b Hb. apply Hall. lia.
    + destruct (IH (f + 1) c) as [[E Hall]|(c' & E & Hr & Hs & Hall)].
      * left. split; [exact E|]. intros b Hb.
        destruct (Z.eq_dec b f) as [->|Hne]; [exact Hf|]. apply Hall. lia.
      * right. exists c'. rewrite E. repeat split; try lia; [exact Hs|].
        intros b Hb. apply Hall. lia.
Qed.

(** C3 (as amended).  Let the fetch of block [b] fail in a cycle whose range
    holds [b].  No signal of [b] is handled in that cycle, and the cursor is
    not left at [b]: at the end of the cycle it is the highest block of the
    range that was served, or where it was if none was.  If every block of the
    range after [b] fails as well, the cursor is still before [b] and the next
    cycle fetches [b] again.  If some block of the range after [b] is served,
    the cursor is past [b] and no later cycle of the process fetches [b]. *)
Theorem C3_failed_block_and_cursor (cfg : Config) (w : World) (st : State)
    (cursor latest b : Z) :
  lastScannedBlock st = Some cursor ->
  w_latest w = Some latest ->
  0 <= cursor ->
  cursor + 1 <= b <= Z.min latest (cursor + MAX_BLOCK_SCAN_PER_CYCLE cfg) ->
  w_getBlock w b = None ->
  (forall k a, ~ In (EvSignal b k a) (trace_of (run_cycle cfg w st)))
  /\ lastScannedBlock (state_of (run_cycle cfg w st))
     = last_fetched w
         (block_range (cursor + 1) (Z.min latest (cursor + MAX_BLOCK_SCAN_PER_CYCLE cfg)))
         (Some cursor)
  /\ lastScannedBlock (state_of (run_cycle cfg w st)) <> Some b
  /\ ((forall b', b < b' <= Z.min latest (cursor + MAX_BLOCK_SCAN_PER_CYCLE cfg) ->
         w_getBlock w b' = None) ->
      (exists c', lastScannedBlock (state_of (run_cycle cfg w st)) = Some c' /\ c' < b)
      /\ forall w' latest', w_latest w' = Some latest' -> b <= latest' ->
           In b (fetched (trace_of (run_cycle cfg w' (state_of (run_cycle cfg w st))))))
  /\ (forall b', b < b' <= Z.min latest (cursor + MAX_BLOCK_SCAN_PER_CYCLE cfg) ->
        w_getBlock w b' <> None ->
        (exists c', lastScannedBlock (state_of (run_cycle cfg w st)) = Some c' /\ b < c')
        /\ forall ws', ~ In b (fetched (trace_of (run cfg ws' (state_of (run_cycle cfg w st)))))).
Proof.
  intros Hc Hl Hnn Hb Hfail.
  assert (Hpos : 0 < latest) by lia.
  destruct (run_cycle_range cfg w st cursor latest Hc Hl Hpos) as (F & C & B).
  set (toBlock := Z.min latest (cursor + MAX_BLOCK_SCAN_PER_CYCLE cfg)) in *.
  set (st' := state_of (run_cycle cfg w st)) in *.
  assert (Hn : cursor + 1 + Z.of_nat (Z.to_nat (toBlock - (cursor + 1) + 1)) = toBlock + 1)
    by lia.
  pose proof (last_fetched_range w (Z.to_nat (toBlock - (cursor + 1) + 1))
                (cursor + 1) (Some cursor)) as Hlast.
  fold (block_range (cursor + 1) toBlock) in Hlast. rewrite <- C, Hn in Hlast.
  split; [|split; [|split; [|split]]].
  - intros k a Hin. destruct (B b k a Hin) as [_ Hs]. contradiction.
  - exact C.
  - destruct Hlast as [[E _]|(c' & E & _ & Hs & _)]; rewrite E; intros E'; inversion E'.
    + lia.
    + subst c'. contradiction.
  - intros Hafter.
    assert (Hcur : exists c', lastScannedBlock st' = Some c' /\ c' < b /\ cursor <= c').
    { destruct Hlast as [[E _]|(c' & E & Hr & Hs & _)].
      - exists cursor. split; [exact E|lia].
      - exists c'. split; [exact E|]. split; [|lia].
        destruct (Z.lt_trichotomy c' b) as [Hlt|[->|Hgt]]; [exact Hlt|contradiction|].
        exfalso. apply Hs, Hafter. lia. }
    destruct Hcur as (c' & Ec & Hlt & Hge). split; [eauto|].
    intros w' latest' Hl' Hle'.
    assert (Hnn' : 0 <= c') by lia.
    destruct (run_cycle_fetches cfg w' st' c' latest' Ec Hl' Hnn') as (_ & Hin & _).
    apply Hin. subst toBlock. lia.
  - intros b' Hb' Hserved.
    assert (Hcur : exists c', lastScannedBlock st' = Some c' /\ b < c').
    { destruct Hlast as [[E Hall]|(c' & E & Hr & Hs & Hall)].
      - exfalso. apply Hserved, Hall. lia.
      - exists c'. split; [exact E|].
        destruct (Z.lt_ge_cases c' b') as [Hlt|Hge]; [|lia].
        exfalso. apply Hserved, Hall. lia. }
    destruct Hcur as (c' & Ec & Hlt). split; [eauto|].
    intros ws' Hin.
    destruct (run_scan cfg ws' st') as [Hd _].
    pose proof (durable_fetch _ _ _ Hd Hin) as Hlt'. rewrite Ec in Hlt'. cbn in Hlt'. lia.
Qed.

Lemma C3_failed_block_and_cursor_witness :
  lastScannedBlock (Samples.st_at 100) = Some 100
  /\ w_latest Samples.world_gap = Some 102
  /\ 0 <= 100
  /\ 100 + 1 <= 101 <= Z.min 102 (100 + MAX_BLOCK_SCAN_PER_CYCLE Samples.cfg_dry)
  /\ w_getBlock Samples.world_gap 101 = None
  /\ lastScannedBlock (state_of (run_cycle Samples.cfg_dry Samples.world_gap (Samples.st_at 100)))
     <> Some 101.
Proof.
  assert (Hr : 100 + 1 <= 101 <= Z.min 102 (100 + MAX_BLOCK_SCAN_PER_CYCLE Samples.cfg_dry))
    by (vm_compute; split; discriminate).
  split; [reflexivity|]. split; [reflexivity|]. split; [lia|]. split; [exact Hr|].
  split; [reflexivity|].
  exact (proj1 (proj2 (proj2
           (C3_failed_block_and_cursor Samples.cfg_dry Samples.world_gap (Samples.st_at 100)
              100 102 101 eq_refl eq_refl (proj1 (Z.leb_le 0 100) eq_refl) Hr eq_refl)))).
Defined.

(** C3 (as stated) fails.  Cursor at 100, chain at 102, and the endpoint fails
    to serve block 101 but serves 102: the cycle ends with the cursor at 102,
    past the block that was skipped, and the next cycle, with the chain at 103
    and every block served, fetches 103 only. *)
Lemma C3_cursor_moves_past_failed_block :
  w_getBlock Samples.world_gap 101 = None
  /\ fetched (trace_of (run_cycle Samples.cfg_dry Samples.world_gap (Samples.st_at 100)))
     = [101; 102]
  /\ lastScannedBlock (state_of (run_cycle Samples.cfg_dry Samples.world_gap (Samples.st_at 100)))
     = Some 102
  /\ fetched (trace_of (run_cycle Samples.cfg_dry (Samples.world_aa 103)
                          (state_of (run_cycle Samples.cfg_dry Samples.world_gap
                                       (Samples.st_at 100)))))
     = [103].
Proof. vm_compute. repeat split; reflexivity. Qed.

(* ------------------------------------------------------------------ *)
(** ** C9: self-transfers *)

Lemma process_log_unclassified cfg b tx lg o s :
  classify cfg tx lg = None -> process_log cfg b tx (lg, o) s = (None, s, []).
Proof.
  intros H. unfold process_log, arm, bind, lift. rewrite H. reflexivity.
Qed.

(** C9.  A log entry whose from topic and whose to topic both equal the topic
    of the watched address classifies to no signal, neither buy nor sell, and
    handling it changes nothing and causes no event. *)
Theorem C9_self_transfer_yields_no_signal (cfg : Config) (b : Z) (tx : Tx) (lg : Log)
    (o : Oracle) (s : State) :
  topic_at (map normalizeAddr (lg_topics lg)) 1 = watchTopic cfg ->
  topic_at (map normalizeAddr (lg_topics lg)) 2 = watchTopic cfg ->
  classify cfg tx lg = None
  /\ process_log cfg b tx (lg, o) s = (None, s, []).
Proof.
  intros H1 H2.
  assert (Hc : classify cfg tx lg = None).
  { unfold classify. rewrite H1, H2, String.eqb_refl. cbn.
    destruct (negb _); [reflexivity|]. destruct (negb _); reflexivity. }
  split; [exact Hc|]. apply process_log_unclassified, Hc.
Qed.

Lemma C9_self_transfer_yields_no_signal_witness :
  topic_at (map normalizeAddr (lg_topics Samples.self_log)) 1 = watchTopic Samples.cfg_dry
  /\ topic_at (map normalizeAddr (lg_topics Samples.self_log)) 2 = watchTopic Samples.cfg_dry
  /\ process_log Samples.cfg_dry 100 (Samples.tx_of "0xAC" Samples.self_log 1000000)
       (Samples.self_log, Samples.oracle0 1000000) (Samples.st_at 99)
     = (None, Samples.st_at 99, []).
Proof.
  split; [reflexivity|]. split; [reflexivity|].
  exact (proj2 (C9_self_transfer_yields_no_signal Samples.cfg_dry 100
                  (Samples.tx_of "0xAC" Samples.self_log 1000000) Samples.self_log
                  (Samples.oracle0 1000000) (Samples.st_at 99) eq_refl eq_refl)).
Defined.

(* ------------------------------------------------------------------ *)
(** ** C4: sell signals while auto-sell is off *)

(** C4 (as amended).  A log entry that classifies as a sell, handled while
    auto-sell is off, causes no event and leaves the whole state as it was: no
    trade record, no execution, and the seen set is not extended, because the
    entry is dropped before the dedup check. *)
Theorem C4_sell_dropped_before_dedup (cfg : Config) (b : Z) (tx : Tx) (lg : Log)
    (o : Oracle) (s : State) (key : string) :
  classify cfg tx lg = Some (sell, key) ->
  AUTO_SELL_ENABLED cfg = false ->
  process_log cfg b tx (lg, o) s = (None, s, []).
Proof.
  intros Hc Ha. unfold process_log, arm, bind, lift, guard. rewrite Hc, Ha. reflexivity.
Qed.

Lemma C4_sell_dropped_before_dedup_witness :
  classify Samples.cfg_no_sell (Samples.tx_of "0xAB" Samples.sell_log 1000000) Samples.sell_log
    = Some (sell, Samples.key_ab)
  /\ AUTO_SELL_ENABLED Samples.cfg_no_sell = false
  /\ process_log Samples.cfg_no_sell 100 (Samples.tx_of "0xAB" Samples.sell_log 1000000)
       (Samples.sell_log, Samples.oracle0 1000000) (Samples.st_at 99)
     = (None, Samples.st_at 99, []).
Proof.
  split; [reflexivity|]. split; [reflexivity|].
  exact (C4_sell_dropped_before_dedup Samples.cfg_no_sell 100
           (Samples.tx_of "0xAB" Samples.sell_log 1000000) Samples.sell_log
           (Samples.oracle0 1000000) (Samples.st_at 99) Samples.key_ab eq_refl eq_refl).
Defined.

(** C4 (as stated) fails on its last part.  The sample sell, handled with
    auto-sell off on an empty seen set: nothing is recorded or executed, and
    the seen set is still empty afterwards, so the key of the signal was not
    added; the same entry is classified again on every later scan. *)
Lemma C4_sell_not_marked_seen :
  classify Samples.cfg_no_sell (Samples.tx_of "0xAB" Samples.sell_log 1000000) Samples.sell_log
    = Some (sell, Samples.key_ab)
  /\ trace_of (process_log Samples.cfg_no_sell 100 (Samples.tx_of "0xAB" Samples.sell_log 1000000)
                 (Samples.sell_log, Samples.oracle0 1000000) (Samples.st_at 99)) = []
  /\ ~ In Samples.key_ab
         (seen (state_of (process_log Samples.cfg_no_sell 100
                            (Samples.tx_of "0xAB" Samples.sell_log 1000000)
                            (Samples.sell_log, Samples.oracle0 1000000) (Samples.st_at 99)))).
Proof.
  split; [reflexivity|]. split; [reflexivity|]. vm_compute. intros [].
Qed.

(** With auto-sell on, the same entry is marked seen and mirrored. *)
Example sell_mirrored_when_enabled :
  seen (state_of (process_log Samples.cfg_dry 100 (Samples.tx_of "0xAB" Samples.sell_log 1000000)
                    (Samples.sell_log, Samples.oracle0 1000000) (Samples.st_at 99)))
    = [Samples.key_ab]
  /\ count_sig is_trade Samples.key_ab
       (trace_of (process_log Samples.cfg_dry 100 (Samples.tx_of "0xAB" Samples.sell_log 1000000)
                    (Samples.sell_log, Samples.oracle0 1000000) (Samples.st_at 99))) = 1%nat.
Proof. vm_compute. split; reflexivity. Qed.

(* ------------------------------------------------------------------ *)
(** ** C6: sizing of a mirrored sell *)

Ltac trace_members :=
  repeat match goal with
         | H : _ \/ _ |- _ => destruct H
         | H : False |- _ => destruct H
         | H : EvSignal _ _ _ = EvSignal _ _ _ |- _ => inversion H; subst; clear H
         | H : EvPersist _ = EvSignal _ _ _ |- _ => discriminate H
         | H : EvGetBlock _ = EvSignal _ _ _ |- _ => discriminate H
         | H : In _ (_ :: _) |- _ => cbn [In] in H
         | H : In _ [] |- _ => destruct H
         end.

(** C6.  For a sell signal that passed the guardrail, the first thing the
    engine does is read the follower's balance of the token of the signal.
    If the read fails, or the balance is zero (or less), nothing else
    happens: no quote, no record.  Otherwise the quantity is
    [floor (balance * AUTO_SELL_BPS / 10000)], a function of the follower's
    balance and of the configuration only; if it is below
    [MIN_SELL_TOKEN_RAW] nothing else happens; if not, the sell is started and
    the quote is requested for exactly that quantity of the token, and any
    trade record pushed carries that quantity. *)
Theorem C6_sell_quantity_from_follower_balance (cfg : Config) (b : Z) (tx : Tx) (lg : Log)
    (o : Oracle) (s s1 : State) (key : string) (amount : Z) :
  arm cfg tx lg o s = (Some (sell, key, amount), s1, []) ->
  0 <= AUTO_SELL_BPS cfg ->
  exists rest,
    trace_of (process_log cfg b tx (lg, o) s)
      = EvSignal b key (ABalanceOf (lg_address lg) (FOLLOWER cfg)) :: rest
    /\ match o_balance o with
       | None => rest = [] /\ state_of (process_log cfg b tx (lg, o) s) = s1
       | Some balance =>
           let quantity := balance * AUTO_SELL_BPS cfg / 10000 in
           if balance <=? 0
           then rest = [] /\ state_of (process_log cfg b tx (lg, o) s) = s1
           else if quantity <? MIN_SELL_TOKEN_RAW cfg
           then rest = [] /\ state_of (process_log cfg b tx (lg, o) s) = s1
           else exists rest',
               rest = EvSignal b key (ADetected sell)
                      :: EvSignal b key (AQuote (lg_address lg) ETH_PLACEHOLDER quantity)
                      :: rest'
               /\ forall b' k' t, In (EvSignal b' k' (ATrade t)) rest' ->
                    side t = sell /\ sellTokenAmount t = Some quantity
       end.
Proof.
  intros Harm Hbps. unfold process_log, bind. rewrite Harm.
  unfold mirror_sell, bind, call, state_of, trace_of.
  destruct (o_balance o) as [balance|]; [|cbn; eauto].
  cbn zeta. rewrite (Z.leb_antisym 0 balance).
  destruct (Z.ltb_spec 0 balance) as [Hpos|Hle]; [|cbn; eauto].
  rewrite Z.quot_div_nonneg by nia.
  rewrite (Z.ltb_antisym (MIN_SELL_TOKEN_RAW cfg)).
  destruct (MIN_SELL_TOKEN_RAW cfg <=? balance * AUTO_SELL_BPS cfg / 10000);
    [|cbn; eauto].
  unfold ensureAllowance, bind, call, emit, guard, lift, ret, skip, record_trade,
    push_trade, persistState.
  repeat (cbn; try branch_case);
    (eexists; split; [reflexivity|]; eexists; split; [reflexivity|];
     intros b' k' t Hin; trace_members; cbn; auto).
Qed.

Lemma C6_sell_quantity_from_follower_balance_witness :
  arm Samples.cfg_dry (Samples.tx_of "0xAB" Samples.sell_log 1000000) Samples.sell_log
      (Samples.oracle0 1000000) (Samples.st_at 99)
    = (Some (sell, Samples.key_ab, 400), mkState [Samples.key_ab] [] (Some 99), [])
  /\ 0 <= AUTO_SELL_BPS Samples.cfg_dry
  /\ exists rest,
       trace_of (process_log Samples.cfg_dry 100 (Samples.tx_of "0xAB" Samples.sell_log 1000000)
                   (Samples.sell_log, Samples.oracle0 1000000) (Samples.st_at 99))
       = EvSignal 100 Samples.key_ab
           (ABalanceOf (lg_address Samples.sell_log) (FOLLOWER Samples.cfg_dry)) :: rest.
Proof.
  assert (Harm : arm Samples.cfg_dry (Samples.tx_of "0xAB" Samples.sell_log 1000000)
                   Samples.sell_log (Samples.oracle0 1000000) (Samples.st_at 99)
                 = (Some (sell, Samples.key_ab, 400), mkState [Samples.key_ab] [] (Some 99), []))
    by (vm_compute; reflexivity).
  assert (Hbps : 0 <= AUTO_SELL_BPS Samples.cfg_dry) by (vm_compute; discriminate).
  split; [exact Harm|]. split; [exact Hbps|].
  destruct (C6_sell_quantity_from_follower_balance Samples.cfg_dry 100
              (Samples.tx_of "0xAB" Samples.sell_log 1000000) Samples.sell_log
              (Samples.oracle0 1000000) (Samples.st_at 99) _ Samples.key_ab 400 Harm Hbps)
    as [rest [H _]].
  exists rest. exact H.
Defined.

(** The sample sell: balance 5000, 2500 bps, so the quote is for 1250 units,
    whatever the 400 units the watched wallet moved. *)
Example sell_quantity_sample :
  trace_of (process_log Samples.cfg_dry 100 (Samples.tx_of "0xAB" Samples.sell_log 1000000)
              (Samples.sell_log, Samples.oracle0 1000000) (Samples.st_at 99))
  = [ EvSignal 100 Samples.key_ab (ABalanceOf Samples.tokT (FOLLOWER Samples.cfg_dry));
      EvSignal 100 Samples.key_ab (ADetected sell);
      EvSignal 100 Samples.key_ab (AQuote Samples.tokT ETH_PLACEHOLDER 1250);
      EvSignal 100 Samples.key_ab
        (ATrade {| tsMs := 1000005; side := sell; dryRun := true; token := Samples.tokT;
                   watchedHash := "0xAB"; signalAmount := 400;
                   sellTokenAmount := Some 1250; quoteBuyAmount := Some "777";
                   followerTx := None |});
      EvPersist
        (mkState [Samples.key_ab]
           [ {| tsMs := 1000005; side := sell; dryRun := true; token := Samples.tokT;
                watchedHash := "0xAB"; signalAmount := 400;
                sellTokenAmount := Some 1250; quoteBuyAmount := Some "777";
                followerTx := None |} ]
           (Some 99)) ].
Proof. vm_compute. reflexivity. Qed.

(* ------------------------------------------------------------------ *)
(** ** C7: the hourly rate window *)

Lemma recent_shrinks now now' ts :
  now <= now' ->
  (List.length (recent now' ts) <= List.length (recent now ts))%nat.
Proof.
  intros Hle. unfold recent. induction ts as [|t ts IH]; cbn [filter List.length]; [lia|].
  destruct (Z.leb_spec (now' - HOUR_MS) (tsMs t)), (Z.leb_spec (now - HOUR_MS) (tsMs t));
    cbn [List.length]; lia.
Qed.

Lemma recent_loses now now' ts t :
  now <= now' -> In t (recent now ts) -> tsMs t < now' - HOUR_MS ->
  (List.length (recent now' ts) < List.length (recent now ts))%nat.
Proof.
  intros Hle Hin Hout. unfold recent in *.
  induction ts as [|x ts IH]; cbn [filter List.length] in *; [contradiction|].
  pose proof (recent_shrinks now now' ts Hle) as Hsh. unfold recent in Hsh.
  destruct (Z.leb_spec (now - HOUR_MS) (tsMs x)) as [Hx|Hx]; cbn [In List.length] in *.
  - destruct (Z.leb_spec (now' - HOUR_MS) (tsMs x)) as [Hx'|Hx']; cbn [List.length].
    + destruct Hin as [->|Hin]; [lia|]. specialize (IH Hin). lia.
    + lia.
  - destruct (Z.leb_spec (now' - HOUR_MS) (tsMs x)) as [Hx'|Hx']; cbn [List.length];
      [lia|]. auto.
Qed.

(** The window never holds more than the cap while the cap is unchanged and
    the clock does not run backwards: a trade is recorded only after the gate
    let its signal pass. *)
Lemma gate_keeps_window_within_cap st now cap cooldown t now' :
  isTradeAllowedByRate st now cap cooldown = GateOk ->
  now <= now' ->
  Z.of_nat (List.length (recent now' (trades st ++ [t]))) <= cap.
Proof.
  unfold isTradeAllowedByRate. intros Hg Hle.
  destruct (Z.leb_spec cap (Z.of_nat (List.length (recent now (trades st))))) as [H|H];
    [discriminate|].
  pose proof (recent_shrinks now now' (trades st) Hle) as Hsh.
  unfold recent in *. rewrite filter_app, length_app. cbn [filter].
  destruct (now' - HOUR_MS <=? tsMs t); cbn [List.length]; lia.
Qed.

Lemma last_trade_rev (ts : list Trade) (older : list Trade) (prev : Trade) :
  ts = older ++ [prev] <-> rev ts = prev :: rev older.
Proof.
  split.
  - intros ->. apply rev_unit.
  - intros H. rewrite <- (rev_involutive ts), H. cbn. now rewrite rev_involutive.
Qed.

(** The three answers of the rate check, by the count in the window and the
    age of the last recorded trade. *)
Lemma gate_answers st now cap cooldown :
  (isTradeAllowedByRate st now cap cooldown = GateMaxTrades
   <-> cap <= Z.of_nat (List.length (recent now (trades st))))
  /\ (isTradeAllowedByRate st now cap cooldown = GateCooldown
      <-> Z.of_nat (List.length (recent now (trades st))) < cap
          /\ exists older prev, trades st = older ++ [prev]
               /\ now - tsMs prev < cooldown * 1000)
  /\ (isTradeAllowedByRate st now cap cooldown = GateOk
      <-> Z.of_nat (List.length (recent now (trades st))) < cap
          /\ forall older prev, trades st = older ++ [prev] ->
               cooldown * 1000 <= now - tsMs prev).
Proof.
  unfold isTradeAllowedByRate.
  destruct (Z.leb_spec cap (Z.of_nat (List.length (recent now (trades st))))) as [Hc|Hc].
  { split; [tauto|]. split; (split; [discriminate|intros [H _]; lia]). }
  split; [split; [|lia]|].
  { destruct (rev (trades st)); [|destruct (_ <? _)]; discriminate. }
  destruct (rev (trades st)) as [|lastT r] eqn:E.
  - split.
    + split; [discriminate|]. intros (_ & older & prev & Ht & _).
      apply last_trade_rev in Ht. congruence.
    + split; [|reflexivity]. intros _. split; [exact Hc|].
      intros older prev Ht. apply last_trade_rev in Ht. congruence.
  - assert (Hl : trades st = rev r ++ [lastT]).
    { apply last_trade_rev. now rewrite rev_involutive. }
    assert (Hu : forall older prev, trades st = older ++ [prev] -> prev = lastT).
    { intros older prev Ht. rewrite Hl in Ht. apply app_inj_tail in Ht. symmetry. tauto. }
    destruct (Z.ltb_spec (now - tsMs lastT) (cooldown * 1000)) as [Hcd|Hcd].
    + split.
      * split; [|reflexivity]. intros _. split; [exact Hc|]. exists (rev r), lastT. auto.
      * split; [discriminate|]. intros [_ H]. specialize (H _ _ Hl). lia.
    + split.
      * split; [discriminate|]. intros (_ & older & prev & Ht & Hlt).
        rewrite (Hu _ _ Ht) in Hlt. lia.
      * split; [|reflexivity]. intros _. split; [exact Hc|].
        intros older prev Ht. rewrite (Hu _ _ Ht). exact Hcd.
Qed.

(** C7.  (1) When the number of recorded trades whose timestamp lies in the
    trailing 60 minutes is at or above the cap, the rate check answers that
    the hourly maximum is reached.  (2) A signal handled in that situation is
    dropped: no event, no trade record.  (3) At any later time at which the
    oldest trade counted at [now] is older than 60 minutes, the count has
    dropped by at least one; the rate check then passes exactly when the
    count is below the cap and the last recorded trade is at least the
    cooldown old, and answers cooldown exactly when the count is below the
    cap and the last recorded trade is younger than that.  In particular,
    with a window that held no more than the cap at [now], the check passes
    as soon as the oldest counted trade has left the window and the cooldown
    since the last trade is over. *)
Theorem C7_rate_window (st : State) (cap cooldown now : Z) :
  (cap <= Z.of_nat (List.length (recent now (trades st))) ->
     isTradeAllowedByRate st now cap cooldown = GateMaxTrades)
  /\ (forall cfg b tx lg o,
        MAX_TRADES_PER_HOUR cfg <= Z.of_nat (List.length (recent (o_now_gate o) (trades st))) ->
        trace_of (process_log cfg b tx (lg, o) st) = []
        /\ trades (state_of (process_log cfg b tx (lg, o) st)) = trades st)
  /\ (forall now' oldest,
        In oldest (recent now (trades st)) ->
        (forall t, In t (recent now (trades st)) -> tsMs oldest <= tsMs t) ->
        now <= now' ->
        tsMs oldest < now' - HOUR_MS ->
        (List.length (recent now' (trades st)) < List.length (recent now (trades st)))%nat
        /\ (isTradeAllowedByRate st now' cap cooldown = GateOk
            <-> Z.of_nat (List.length (recent now' (trades st))) < cap
                /\ forall older prev, trades st = older ++ [prev] ->
                     cooldown * 1000 <= now' - tsMs prev)
        /\ (isTradeAllowedByRate st now' cap cooldown = GateCooldown
            <-> Z.of_nat (List.length (recent now' (trades st))) < cap
                /\ exists older prev, trades st = older ++ [prev]
                     /\ now' - tsMs prev < cooldown * 1000)
        /\ (Z.of_nat (List.length (recent now (trades st))) <= cap ->
            (forall older prev, trades st = older ++ [prev] ->
               cooldown * 1000 <= now' - tsMs prev) ->
            isTradeAllowedByRate st now' cap cooldown = GateOk)).
Proof.
  split; [|split].
  - intros H. apply (gate_answers st now cap cooldown). exact H.
  - intros cfg b tx lg o H. apply Z.leb_le in H.
    unfold process_log, bind.
    pose proof (arm_cases cfg tx lg o st) as Ha. cbn zeta in Ha.
    assert (Hv : value_of (arm cfg tx lg o st) = None).
    { unfold arm, bind, lift, guard, get, push_seen, ret, skip, value_of.
      repeat (cbn -[isTradeAllowedByRate]; try branch_case); try reflexivity.
      exfalso.
      match goal with
      | Hg : gate_ok _ = true |- _ =>
          unfold isTradeAllowedByRate in Hg; cbn [trades] in Hg; rewrite H in Hg;
          discriminate Hg
      end. }
    destruct (arm cfg tx lg o st) as [[r s1] t1].
    unfold state_of, trace_of, value_of in *. cbn [fst snd] in *. subst r.
    destruct Ha as (-> & _ & Ht & _). cbn. auto.
  - intros now' oldest Hin Hmin Hle Hout.
    pose proof (recent_loses now now' (trades st) oldest Hle Hin Hout) as Hlt.
    destruct (gate_answers st now' cap cooldown) as (_ & Hcd & Hok).
    split; [exact Hlt|]. split; [exact Hok|]. split; [exact Hcd|].
    intros Hcap Hold. apply Hok. split; [lia|exact Hold].
Qed.

Lemma C7_rate_window_witness :
  2 <= Z.of_nat (List.length (recent 2000000 (trades SamplesGate.st_two)))
  /\ isTradeAllowedByRate SamplesGate.st_two 2000000 2 45 = GateMaxTrades
  /\ In (SamplesGate.trade_at 1000000) (recent 2000000 (trades SamplesGate.st_two))
  /\ isTradeAllowedByRate SamplesGate.st_two (1000000 + HOUR_MS + 1) 2 45 = GateOk.
Proof.
  assert (Hcount : Z.of_nat (List.length (recent 2000000 (trades SamplesGate.st_two))) = 2)
    by (vm_compute; reflexivity).
  assert (Hin : In (SamplesGate.trade_at 1000000) (recent 2000000 (trades SamplesGate.st_two)))
    by (vm_compute; left; reflexivity).
  assert (Hmin : forall t, In t (recent 2000000 (trades SamplesGate.st_two)) ->
                   tsMs (SamplesGate.trade_at 1000000) <= tsMs t).
  { intros t Ht. vm_compute in Ht. destruct Ht as [<-|[<-|[]]]; vm_compute; discriminate. }
  assert (Hold : forall older prev, trades SamplesGate.st_two = older ++ [prev] ->
                   45 * 1000 <= 1000000 + HOUR_MS + 1 - tsMs prev).
  { intros older prev Ht.
    change (trades SamplesGate.st_two)
      with ([SamplesGate.trade_at 1000000] ++ [SamplesGate.trade_at 1600000]) in Ht.
    apply app_inj_tail in Ht. destruct Ht as [_ <-]. vm_compute. discriminate. }
  split; [rewrite Hcount; lia|].
  split; [apply (proj1 (C7_rate_window SamplesGate.st_two 2 45 2000000)); rewrite Hcount; lia|].
  split; [exact Hin|].
  apply (proj2 (proj2 (C7_rate_window SamplesGate.st_two 2 45 2000000))
           (1000000 + HOUR_MS + 1) (SamplesGate.trade_at 1000000)).
  - exact Hin.
  - exact Hmin.
  - vm_compute. discriminate.
  - vm_compute. reflexivity.
  - rewrite Hcount. lia.
  - exact Hold.
Defined.

(** Cap 2, cooldown 45 s, trades at 1000000 and 4599990: at 4600000 both lie
    within the hour and the check answers that the maximum is reached; one
    millisecond later the oldest counted trade has left the window and one
    trade is counted, yet the check still denies, the last trade being 11 ms
    old; a signal handled at that time (sample settings: cap 20, the same
    cooldown) is dropped without an event.  The check passes once the
    cooldown is over. *)
Example C7_window_exit_still_denied :
  isTradeAllowedByRate SamplesGate.st_late 4600000 2 45 = GateMaxTrades
  /\ recent 4600000 (trades SamplesGate.st_late)
     = [SamplesGate.trade_at 1000000; SamplesGate.trade_at 4599990]
  /\ tsMs (SamplesGate.trade_at 1000000) < 4600001 - HOUR_MS
  /\ recent 4600001 (trades SamplesGate.st_late) = [SamplesGate.trade_at 4599990]
  /\ isTradeAllowedByRate SamplesGate.st_late 4600001 2 45 = GateCooldown
  /\ trace_of (process_log Samples.cfg_dry 100 (Samples.tx_of "0xAA" Samples.buy_log 4600001)
                 (Samples.buy_log, Samples.oracle0 4600001) SamplesGate.st_late) = []
  /\ isTradeAllowedByRate SamplesGate.st_late (4599990 + 45000) 2 45 = GateOk.
Proof. vm_compute. repeat split; reflexivity. Qed.

(** Cap 2, two trades ten minutes apart: denied while both are within the
    hour, also at exactly 60 minutes after the older one, and no longer one
    millisecond later. *)
Example rate_window_boundary :
  isTradeAllowedByRate SamplesGate.st_two 2000000 2 45 = GateMaxTrades
  /\ isTradeAllowedByRate SamplesGate.st_two (1000000 + HOUR_MS) 2 45 = GateMaxTrades
  /\ isTradeAllowedByRate SamplesGate.st_two (1000000 + HOUR_MS + 1) 2 45 = GateOk.
Proof. vm_compute. repeat split; reflexivity. Qed.

(* ------------------------------------------------------------------ *)
(** ** C10: the approval is unlimited *)

Lemma approvals_rel_stable : stable approvals_rel.
Proof.
  split.
  - intros s. constructor.
  - intros s s1 s2 t1 t2 H1 H2. apply Forall_app. split; assumption.
Qed.

Lemma process_log_approvals cfg b tx lo : respects approvals_rel (process_log cfg b tx lo).
Proof.
  destruct lo as [lg o]. intros s.
  pose proof (process_log_cases cfg b tx lg o s) as H. cbn zeta in H.
  destruct (process_log cfg b tx (lg, o) s) as [[r s'] t].
  unfold state_of, trace_of in *. cbn [fst snd] in *.
  destruct H as [[-> ->]|(sd & key & s1 & Hcl & Hinc & -> & [[-> ->]|Hb])];
    try constructor.
  destruct Hb as (_ & _ & _ & _ & _ & _ & _ & _ & Ha). exact Ha.
Qed.

Lemma run_approvals cfg ws : respects approvals_rel (run cfg ws).
Proof.
  pose proof approvals_rel_stable as HR.
  unfold run. respects_step HR. unfold run_cycle. repeat respects_step HR.
  unfold process_block. respects_step HR.
  - intros s. repeat constructor.
  - respects_step HR.
    + respects_step HR. unfold process_tx. repeat respects_step HR.
      apply process_log_approvals.
    + intros s. repeat constructor.
Qed.

(** C10.  Live mode, a sell that reached the quote, the quote names a
    well-formed spender, and the allowance read for that spender is below the
    quantity to sell: the engine submits an approval for that spender and
    token whose amount is [maxUint256 = 2^256 - 1], not the quantity; and no
    run of the engine ever submits an approval for any other amount. *)
Theorem C10_approval_is_unlimited (cfg : Config) (b : Z) (key : string) (tx : Tx) (lg : Log)
    (o : Oracle) (amount : Z) (s : State) (balance allowance : Z) (q : Quote) :
  DRY_RUN cfg = false ->
  o_balance o = Some balance ->
  0 < balance ->
  MIN_SELL_TOKEN_RAW cfg <= Z.quot (balance * AUTO_SELL_BPS cfg) 10000 ->
  o_quote o = Some q ->
  nonempty (quote_spender q) && isHexAddress (quote_spender q) = true ->
  o_allowance o = Some allowance ->
  allowance < Z.quot (balance * AUTO_SELL_BPS cfg) 10000 ->
  In (EvSignal b key (AApprove (lg_address lg) (quote_spender q) maxUint256))
     (trace_of (mirror_sell cfg b key tx lg o amount s))
  /\ maxUint256 = 2 ^ 256 - 1
  /\ (forall ws st b' k' tok spender value,
        In (EvSignal b' k' (AApprove tok spender value)) (trace_of (run cfg ws st)) ->
        value = maxUint256).
Proof.
  intros Hdry Hbal Hpos Hmin Hq Hsp Hal Hlt.
  split; [|split].
  - unfold mirror_sell, ensureAllowance, bind, call, emit, guard, lift, trace_of.
    rewrite Hbal, Hq, Hdry, Hsp, Hal.
    apply Z.ltb_lt in Hpos. apply Z.leb_le in Hmin. apply Z.leb_gt in Hlt.
    rewrite Hpos, Hmin, Hlt.
    cbn -[maxUint256].
    destruct (o_approve o) as [h|]; cbn -[maxUint256]; [|auto 6].
    repeat (cbn -[maxUint256]; try branch_case); cbn -[maxUint256]; auto 8.
  - reflexivity.
  - intros ws st b' k' tok spender value Hin.
    pose proof (run_approvals cfg ws st) as H. unfold approvals_rel, approvals_unlimited in H.
    rewrite Forall_forall in H. exact (H _ Hin).
Qed.

Lemma C10_approval_is_unlimited_witness :
  DRY_RUN Samples.cfg_live = false
  /\ o_balance (Samples.oracle0 1000000) = Some 5000
  /\ 0 < 5000
  /\ MIN_SELL_TOKEN_RAW Samples.cfg_live <= Z.quot (5000 * AUTO_SELL_BPS Samples.cfg_live) 10000
  /\ o_quote (Samples.oracle0 1000000) = Some Samples.quote0
  /\ nonempty (quote_spender Samples.quote0) && isHexAddress (quote_spender Samples.quote0) = true
  /\ o_allowance (Samples.oracle0 1000000) = Some 0
  /\ 0 < Z.quot (5000 * AUTO_SELL_BPS Samples.cfg_live) 10000
  /\ In (EvSignal 100 Samples.key_ab
           (AApprove (lg_address Samples.sell_log) (quote_spender Samples.quote0) maxUint256))
        (trace_of (mirror_sell Samples.cfg_live 100 Samples.key_ab
                     (Samples.tx_of "0xAB" Samples.sell_log 1000000) Samples.sell_log
                     (Samples.oracle0 1000000) 400 (Samples.st_at 99))).
Proof.
  assert (Hmin : MIN_SELL_TOKEN_RAW Samples.cfg_live
                 <= Z.quot (5000 * AUTO_SELL_BPS Samples.cfg_live) 10000)
    by (vm_compute; discriminate).
  assert (Hlt : 0 < Z.quot (5000 * AUTO_SELL_BPS Samples.cfg_live) 10000)
    by (vm_compute; reflexivity).
  assert (Hpos : 0 < 5000) by lia.
  repeat (split; [first [reflexivity | assumption]|]).
  exact (proj1 (C10_approval_is_unlimited Samples.cfg_live 100 Samples.key_ab
                  (Samples.tx_of "0xAB" Samples.sell_log 1000000) Samples.sell_log
                  (Samples.oracle0 1000000) 400 (Samples.st_at 99) 5000 0 Samples.quote0
                  eq_refl eq_refl Hpos Hmin eq_refl eq_refl eq_refl Hlt)).
Defined.

(** The live sample sell: allowance 0 against 1250 units to sell, so the
    approval goes out for 2^256 - 1 and the quote is asked for again. *)
Example live_sell_sample :
  map (fun e => match e with EvSignal _ _ a => Some a | _ => None end)
      (firstn 6 (trace_of (mirror_sell Samples.cfg_live 100 Samples.key_ab
                             (Samples.tx_of "0xAB" Samples.sell_log 1000000) Samples.sell_log
                             (Samples.oracle0 1000000) 400 (Samples.st_at 99))))
  = [ Some (ABalanceOf Samples.tokT (FOLLOWER Samples.cfg_live));
      Some (ADetected sell);
      Some (AQuote Samples.tokT ETH_PLACEHOLDER 1250);
      Some (AAllowance Samples.tokT (FOLLOWER Samples.cfg_live) Samples.spender0);
      Some (AApprove Samples.tokT Samples.spender0
              115792089237316195423570985008687907853269984665640564039457584007913129639935);
      Some (AWait "0xa9") ].
Proof. vm_compute. reflexivity. Qed.

(* ------------------------------------------------------------------ *)
(** ** C2: average-cost accounting of a sell fill *)

Lemma record_buys_realized now tok buys : forall st t,
  Ledger.realizedPnlWei (Ledger.positions (Ledger.record_buys now tok buys st) t)
  = Ledger.realizedPnlWei (Ledger.positions st t).
Proof.
  unfold Ledger.record_buys.
  induction buys as [|[q spent] buys IH]; intros st t; cbn [fold_left]; [reflexivity|].
  rewrite IH. cbn. destruct (t =? tok)%string; reflexivity.
Qed.

(** C2.  Record any sequence of buy fills for a token, then a sell fill of
    quantity [q] with [0 < q <= open quantity].  With [share] the open cost
    times [q] over the open quantity, both read just before the sell (rounded
    down to an integer: [share * qty <= q * cost < (share + 1) * qty]), the
    realized PnL of the token grows by exactly [proceeds - share], the open
    quantity drops by [q] and the open cost by [share].  The buy fills before
    it did not change the realized PnL, and neither does a fill recorded for
    another token, a later buy fill for this one, or a cursor write. *)
Theorem C2_sell_realizes_against_average_cost (now now' : Z) (tok : string)
    (buys : list (Z * Z)) (st : Ledger.Store) (q proceeds : Z) :
  0 < q <= Ledger.qtyOpenRaw (Ledger.positions (Ledger.record_buys now tok buys st) tok) ->
  let before := Ledger.record_buys now tok buys st in
  let p := Ledger.positions before tok in
  let share := q * Ledger.costOpenWei p / Ledger.qtyOpenRaw p in
  let p' := Ledger.positions (Ledger.recordTrade now' tok (Ledger.SellFill q proceeds) before) tok in
  Ledger.realizedPnlWei p' = Ledger.realizedPnlWei p + (proceeds - share)
  /\ Ledger.qtyOpenRaw p' = Ledger.qtyOpenRaw p - q
  /\ Ledger.costOpenWei p' = Ledger.costOpenWei p - share
  /\ share * Ledger.qtyOpenRaw p <= q * Ledger.costOpenWei p < (share + 1) * Ledger.qtyOpenRaw p
  /\ Ledger.realizedPnlWei p = Ledger.realizedPnlWei (Ledger.positions st tok)
  /\ (forall t other f, other <> tok ->
        Ledger.realizedPnlWei (Ledger.positions (Ledger.recordTrade t other f before) tok)
        = Ledger.realizedPnlWei p)
  /\ (forall t q' spent,
        Ledger.realizedPnlWei
          (Ledger.positions (Ledger.recordTrade t tok (Ledger.BuyFill q' spent) before) tok)
        = Ledger.realizedPnlWei p)
  /\ (forall height,
        Ledger.realizedPnlWei (Ledger.positions (Ledger.advanceCursor height before) tok)
        = Ledger.realizedPnlWei p).
Proof.
  intros Hq. cbn zeta.
  set (before := Ledger.record_buys now tok buys st) in *.
  set (p := Ledger.positions before tok) in *.
  assert (Hqty : 0 < Ledger.qtyOpenRaw p) by lia.
  assert (Hshare : Ledger.cost_share p q = q * Ledger.costOpenWei p / Ledger.qtyOpenRaw p).
  { unfold Ledger.cost_share. destruct (Z.leb_spec (Ledger.qtyOpenRaw p) 0); [lia|].
    rewrite Z.min_l by lia. reflexivity. }
  cbn [Ledger.recordTrade Ledger.positions]. rewrite String.eqb_refl.
  fold p. cbn [Ledger.apply_fill Ledger.realizedPnlWei Ledger.qtyOpenRaw Ledger.costOpenWei].
  rewrite Hshare, Z.min_l by lia.
  split; [reflexivity|]. split; [reflexivity|]. split; [reflexivity|].
  split.
  { pose proof (Z.mul_div_le (q * Ledger.costOpenWei p) (Ledger.qtyOpenRaw p) Hqty).
    pose proof (Z.mul_succ_div_gt (q * Ledger.costOpenWei p) (Ledger.qtyOpenRaw p) Hqty).
    nia. }
  split; [apply record_buys_realized|].
  split; [|split].
  - intros t other f Hne. destruct (String.eqb_spec tok other); [congruence|reflexivity].
  - intros t q' spent. reflexivity.
  - intros height. reflexivity.
Qed.

Lemma C2_sell_realizes_against_average_cost_witness :
  0 < 30 <= Ledger.qtyOpenRaw
              (Ledger.positions
                 (Ledger.record_buys 1000 Samples.tokT [(100, 2000); (50, 1600)]
                    Ledger.empty_store) Samples.tokT)
  /\ Ledger.realizedPnlWei
       (Ledger.positions
          (Ledger.recordTrade 2000 Samples.tokT (Ledger.SellFill 30 1000)
             (Ledger.record_buys 1000 Samples.tokT [(100, 2000); (50, 1600)]
                Ledger.empty_store)) Samples.tokT)
     = 0 + (1000 - 30 * 3600 / 150).
Proof.
  assert (Hq : 0 < 30 <= Ledger.qtyOpenRaw
                           (Ledger.positions
                              (Ledger.record_buys 1000 Samples.tokT [(100, 2000); (50, 1600)]
                                 Ledger.empty_store) Samples.tokT))
    by (vm_compute; split; [reflexivity|discriminate]).
  split; [exact Hq|].
  exact (proj1 (C2_sell_realizes_against_average_cost 1000 2000 Samples.tokT
                  [(100, 2000); (50, 1600)] Ledger.empty_store 30 1000 Hq)).
Defined.

(** Buys of 100 for 2000 and 50 for 1600, then a sale of 30 for 1000: the
    share of the cost is 720, so 280 is realized, 120 stay open at a cost of
    2880; a sale of 7 for 100 then realizes 100 - 168 = -68. *)
Example ledger_sample :
  let st1 := Ledger.recordTrade 2000 Samples.tokT (Ledger.SellFill 30 1000)
               (Ledger.record_buys 1000 Samples.tokT [(100, 2000); (50, 1600)]
                  Ledger.empty_store) in
  let st2 := Ledger.recordTrade 3000 Samples.tokT (Ledger.SellFill 7 100) st1 in
  Ledger.positions st1 Samples.tokT
    = Ledger.mkPosition 150 30 120 2880 3600 1000 280 2 1 2000
  /\ Ledger.positions st2 Samples.tokT
    = Ledger.mkPosition 150 37 113 2712 3600 1100 212 2 2 3000.
Proof. vm_compute. split; reflexivity. Qed.

(* ------------------------------------------------------------------ *)
(** * Further properties of the engine *)

(** One log entry, by what the guardrail decides: nothing is emitted, or all
    its checks passed and the entry is handed to the mirror branch of its
    side, on the state with the key marked seen. *)
Lemma process_log_shape cfg b tx lg o s :
  (trace_of (process_log cfg b tx (lg, o) s) = []
   /\ trades (state_of (process_log cfg b tx (lg, o) s)) = trades s
   /\ lastScannedBlock (state_of (process_log cfg b tx (lg, o) s)) = lastScannedBlock s
   /\ (state_of (process_log cfg b tx (lg, o) s) = s
       \/ exists sd key, classify cfg tx lg = Some (sd, key) /\ ~ In key (seen s)
            /\ state_of (process_log cfg b tx (lg, o) s) = mark_seen key s))
  \/ exists sd key amount,
       guards_passed cfg tx lg o s sd key amount
       /\ process_log cfg b tx (lg, o) s = mirror cfg sd b key tx lg o amount (mark_seen key s).
Proof.
  unfold process_log, arm, bind, lift, guard, get, push_seen, ret, skip,
    state_of, trace_of, guards_passed, mark_seen.
  destruct (classify cfg tx lg) as [[sd key]|] eqn:Hcl; cbn; [|left; auto].
  destruct (is_sell sd && negb (AUTO_SELL_ENABLED cfg)) eqn:Hsell; cbn; [left; auto|].
  destruct (includes (seen s) key) eqn:Hseen; cbn; [left; auto|].
  apply includes_false in Hseen.
  destruct (includes (IGNORE_TOKENS cfg) (normalizeAddr (lg_address lg))) eqn:Hign; cbn.
  { left. repeat split; auto. right. exists sd, key. auto. }
  apply includes_false in Hign.
  destruct (lg_data lg) as [amount|] eqn:Hdata; cbn.
  2:{ left. repeat split; auto. right. exists sd, key. auto. }
  destruct (Z.ltb_spec 0 amount) as [Hpos|Hle]; cbn.
  2:{ left. repeat split; auto. right. exists sd, key. auto. }
  match goal with
  | |- context [gate_ok ?g] => destruct g eqn:Hgate
  end; cbn.
  2,3:(left; repeat split; auto; right; exists sd, key; auto).
  right. exists sd, key, amount. split.
  - repeat split; auto.
    intros ->. cbn in Hsell. destruct (AUTO_SELL_ENABLED cfg); [reflexivity|discriminate].
  - unfold mirror. destruct sd.
    + destruct (mirror_buy _ _ _ _ _ _ _ _) as [[r s2] t2]. reflexivity.
    + destruct (mirror_sell _ _ _ _ _ _ _ _) as [[r s2] t2]. reflexivity.
Qed.

#[local] Opaque trimmed maxUint256.

Ltac branch_more_done :=
  unfold branch_more, pushed, count_act, state_of, trace_of; cbn;
  repeat match goal with
         | |- _ /\ _ => split
         | |- _ -> _ => intro
         | H : true = false |- _ => discriminate H
         | H : false = true |- _ => discriminate H
         | H1 : ?x = true, H2 : ?x = false |- _ => congruence
         | |- dry_event _ => cbn
         | |- live_event _ => cbn
         | |- trimmed_write _ => cbn
         | |- describes _ _ _ _ _ _ => cbn
         | |- Forall _ [] => constructor
         | |- Forall _ (_ :: _) => constructor
         | |- exists _, Some _ = Some _ => eexists; reflexivity
         | |- exists _, trimmed _ = trimmed _ => eexists; reflexivity
         | |- True => exact I
         | |- _ = _ => reflexivity
         | |- ?l = ?l ++ [] => symmetry; apply app_nil_r
         | |- (_ <= _)%nat => cbn; lia
         end.

Lemma mirror_buy_more cfg b key tx lg o amount s :
  branch_more cfg tx lg o buy amount s (mirror_buy cfg b key tx lg o amount s).
Proof.
  unfold mirror_buy, bind, call, emit, guard, lift, ret, skip, record_trade,
    push_trade, persistState.
  repeat (cbn; try branch_case); branch_more_done.
Qed.

Lemma mirror_sell_more cfg b key tx lg o amount s :
  branch_more cfg tx lg o sell amount s (mirror_sell cfg b key tx lg o amount s).
Proof.
  unfold mirror_sell, ensureAllowance, bind, call, emit, guard, lift, ret, skip,
    record_trade, push_trade, persistState.
  repeat (cbn; try branch_case); branch_more_done.
Qed.

#[local] Transparent trimmed maxUint256.

Lemma mirror_more cfg sd b key tx lg o amount s :
  branch_more cfg tx lg o sd amount s (mirror cfg sd b key tx lg o amount s).
Proof. destruct sd; [apply mirror_buy_more|apply mirror_sell_more]. Qed.

Lemma mirror_ok cfg sd b key tx lg o amount s :
  branch_ok b key s (mirror cfg sd b key tx lg o amount s).
Proof. destruct sd; [apply mirror_buy_ok|apply mirror_sell_ok]. Qed.

Lemma events_rel_stable P : stable (events_rel P).
Proof.
  split.
  - intros s. constructor.
  - intros s s1 s2 t1 t2 H1 H2. apply Forall_app. split; assumption.
Qed.

Section RunEvents.

Variable cfg : Config.
Variable P : Event -> Prop.
Hypothesis P_fetch : forall b, P (EvGetBlock b).
Hypothesis P_write : forall s, P (EvPersist (trimmed s)).
Hypothesis P_mirror : forall sd b key tx lg o amount s,
  Forall P (trace_of (mirror cfg sd b key tx lg o amount s)).

Lemma process_log_events b tx lo : respects (events_rel P) (process_log cfg b tx lo).
Proof.
  destruct lo as [lg o]. intros s. unfold events_rel.
  destruct (process_log_shape cfg b tx lg o s) as [(-> & _)|(sd & key & amount & _ & ->)].
  - constructor.
  - apply P_mirror.
Qed.

Lemma run_events ws : respects (events_rel P) (run cfg ws).
Proof.
  pose proof (events_rel_stable P) as HR.
  unfold run. respects_step HR. unfold run_cycle. repeat respects_step HR.
  unfold process_block. respects_step HR.
  - intros s. repeat constructor. apply P_fetch.
  - respects_step HR.
    + respects_step HR. unfold process_tx. repeat respects_step HR.
      apply process_log_events.
    + intros s. unfold advance_cursor, bind, set_cursor, persistState. cbn.
      repeat constructor. apply P_write.
Qed.

End RunEvents.

Lemma pushed_app t1 t2 : pushed (t1 ++ t2) = pushed t1 ++ pushed t2.
Proof. unfold pushed. apply flat_map_app. Qed.

Lemma history_rel_stable : stable history_rel.
Proof.
  split.
  - intros s. unfold history_rel. cbn. rewrite app_nil_r.
    repeat split; auto. exists []. now rewrite app_nil_r.
  - intros s s1 s2 t1 t2 (T1 & [l1 S1] & N1) (T2 & [l2 S2] & N2). unfold history_rel.
    rewrite pushed_app, T2, T1, app_assoc. repeat split; auto.
    exists (l1 ++ l2). now rewrite S2, S1, app_assoc.
Qed.

Lemma NoDup_snoc {A} (l : list A) (x : A) : NoDup l -> ~ In x l -> NoDup (l ++ [x]).
Proof.
  intros Hl Hx. apply NoDup_app; [exact Hl|repeat constructor; intros []|].
  intros y Hy [<-|[]]. contradiction.
Qed.

Lemma process_log_history cfg b tx lo : respects history_rel (process_log cfg b tx lo).
Proof.
  destruct lo as [lg o]. intros s. unfold history_rel.
  destruct (process_log_shape cfg b tx lg o s)
    as [(Ht & Htr & _ & Hs)|(sd & key & amount & Hg & E)].
  - rewrite Ht, Htr. change (pushed []) with (@nil Trade). rewrite app_nil_r.
    split; [reflexivity|].
    destruct Hs as [->|(sd & key & _ & Hnew & ->)].
    + split; [exists []; now rewrite app_nil_r|auto].
    + cbn. split; [exists [key]; reflexivity|]. intros Hn. now apply NoDup_snoc.
  - rewrite E.
    destruct (mirror_more cfg sd b key tx lg o amount (mark_seen key s)) as (Ht & _).
    destruct (mirror_ok cfg sd b key tx lg o amount (mark_seen key s)) as (Hs & _).
    destruct Hg as (_ & _ & Hnew & _).
    rewrite Ht, Hs. cbn. split; [reflexivity|].
    split; [exists [key]; reflexivity|]. intros Hn. now apply NoDup_snoc.
Qed.

Lemma run_history cfg ws : respects history_rel (run cfg ws).
Proof.
  pose proof history_rel_stable as HR.
  unfold run. respects_step HR. unfold run_cycle. repeat respects_step HR.
  unfold process_block. respects_step HR.
  - intros s. unfold history_rel. cbn. rewrite app_nil_r.
    repeat split; auto. exists []. now rewrite app_nil_r.
  - respects_step HR.
    + respects_step HR. unfold process_tx. repeat respects_step HR.
      apply process_log_history.
    + intros s. unfold history_rel. cbn. rewrite app_nil_r.
      repeat split; auto. exists []. now rewrite app_nil_r.
Qed.

(** X1.  In memory the history only grows: after any run the trade list is
    the list before it followed by the records pushed during the run, in
    order; the seen list is the list before it followed by new keys; and a
    seen list without duplicates stays without duplicates. *)
Theorem X1_history_is_append_only (cfg : Config) (ws : list World) (st : State) :
  trades (state_of (run cfg ws st)) = trades st ++ pushed (trace_of (run cfg ws st))
  /\ (exists added, seen (state_of (run cfg ws st)) = seen st ++ added)
  /\ (NoDup (seen st) -> NoDup (seen (state_of (run cfg ws st)))).
Proof. exact (run_history cfg ws st). Qed.

Lemma Forall_In_event (P : Event -> Prop) tr e : Forall P tr -> In e tr -> P e.
Proof. intros H Hin. rewrite Forall_forall in H. auto. Qed.

Lemma run_dry cfg ws st :
  DRY_RUN cfg = true -> Forall dry_event (trace_of (run cfg ws st)).
Proof.
  intros Hdry. apply (run_events cfg dry_event); try (intros; exact I).
  intros sd b key tx lg o amount s.
  destruct (mirror_more cfg sd b key tx lg o amount s) as (_ & H & _). auto.
Qed.

(** X2.  With DRY_RUN on, no run of the engine reads an allowance, submits an
    approval, sends a transaction or waits for a receipt, and every trade
    record it pushes is flagged dry-run and carries no follower transaction
    hash. *)
Theorem X2_dry_run_never_transacts (cfg : Config) (ws : list World) (st : State) :
  DRY_RUN cfg = true ->
  (forall b k a, In (EvSignal b k a) (trace_of (run cfg ws st)) ->
     match a with
     | ASend _ _ _ | AApprove _ _ _ | AAllowance _ _ _ | AWait _ => False
     | _ => True
     end)
  /\ (forall t, In t (pushed (trace_of (run cfg ws st))) ->
        dryRun t = true /\ followerTx t = None).
Proof.
  intros Hdry. pose proof (run_dry cfg ws st Hdry) as H. split.
  - intros b k a Hin. pose proof (Forall_In_event _ _ _ H Hin) as He.
    destruct a; cbn in He; auto.
  - intros t Hin. unfold pushed in Hin. apply in_flat_map in Hin.
    destruct Hin as (e & He & Ht). pose proof (Forall_In_event _ _ _ H He) as Hd.
    destruct e as [b|b k a|snap]; try contradiction.
    destruct a; try contradiction. destruct Ht as [<-|[]]. exact Hd.
Qed.

Lemma X2_dry_run_never_transacts_witness :
  DRY_RUN Samples.cfg_dry = true
  /\ forall t, In t (pushed (trace_of (run Samples.cfg_dry [Samples.world_aa 100]
                                        (Samples.st_at 99)))) ->
       dryRun t = true /\ followerTx t = None.
Proof.
  split; [reflexivity|].
  exact (proj2 (X2_dry_run_never_transacts Samples.cfg_dry [Samples.world_aa 100]
                  (Samples.st_at 99) eq_refl)).
Defined.

Lemma labelled_same b key p tr :
  labelled b key tr -> count_sig p key tr = count_act p tr.
Proof.
  unfold labelled, count_sig, count_act. induction 1 as [|e tr He _ IH]; cbn; [reflexivity|].
  destruct e as [b'|b' k' a|snap]; cbn; auto.
  destruct He as [_ ->]. rewrite String.eqb_refl. cbn. destruct (p a); cbn; auto.
Qed.

Lemma sent_rel_stable k : stable (sent_rel k).
Proof.
  split.
  - intros s. unfold sent_rel. cbn. lia.
  - intros s s1 s2 t1 t2 H1 H2. unfold sent_rel in *. rewrite !count_sig_app. lia.
Qed.

Lemma process_log_sent cfg b tx lo k :
  DRY_RUN cfg = false -> respects (sent_rel k) (process_log cfg b tx lo).
Proof.
  intros Hlive. destruct lo as [lg o]. intros s. unfold sent_rel.
  destruct (process_log_shape cfg b tx lg o s) as [(-> & _)|(sd & key & amount & _ & ->)].
  - cbn. lia.
  - destruct (mirror_more cfg sd b key tx lg o amount (mark_seen key s)) as (_ & _ & H & _).
    destruct (H Hlive) as [_ Hc].
    destruct (mirror_ok cfg sd b key tx lg o amount (mark_seen key s)) as (_ & _ & Hlab & _).
    destruct (string_dec k key) as [->|Hne].
    + rewrite !(labelled_same _ _ _ _ Hlab). exact Hc.
    + rewrite !(labelled_other _ _ _ _ _ Hlab Hne). lia.
Qed.

Lemma run_sent cfg ws k : DRY_RUN cfg = false -> respects (sent_rel k) (run cfg ws).
Proof.
  intros Hlive. pose proof (sent_rel_stable k) as HR.
  unfold run. respects_step HR. unfold run_cycle. repeat respects_step HR.
  unfold process_block. respects_step HR.
  - intros s. unfold sent_rel. cbn. lia.
  - respects_step HR.
    + respects_step HR. unfold process_tx. repeat respects_step HR.
      now apply process_log_sent.
    + intros s. unfold sent_rel. cbn. lia.
Qed.

Lemma slice_last_length {A} (n : Z) (l : list A) :
  0 <= n -> Z.of_nat (List.length (slice_last n l)) <= n.
Proof. intros Hn. unfold slice_last. rewrite length_skipn. lia. Qed.

Lemma slice_last_short {A} (n : Z) (l : list A) :
  Z.of_nat (List.length l) <= n -> slice_last n l = l.
Proof.
  intros H. unfold slice_last.
  replace (Z.to_nat (Z.of_nat (List.length l) - n)) with 0%nat by lia. reflexivity.
Qed.

Lemma slice_last_suffix {A} (n : Z) (l : list A) :
  exists dropped, l = dropped ++ slice_last n l.
Proof.
  unfold slice_last. exists (firstn (Z.to_nat (Z.of_nat (List.length l) - n)) l).
  now rewrite firstn_skipn.
Qed.

Lemma trimmed_bounded s : bounded_write (EvPersist (trimmed s)).
Proof. cbn. split; apply slice_last_length; lia. Qed.

Lemma run_trimmed_writes cfg ws st : Forall trimmed_write (trace_of (run cfg ws st)).
Proof.
  apply (run_events cfg trimmed_write).
  - intros b. exact I.
  - intros s. cbn. eauto.
  - intros sd b key tx lg o amount s.
    destruct (mirror_more cfg sd b key tx lg o amount s) as (_ & _ & _ & H & _). exact H.
Qed.

(** X4.  Every state file written during any run holds at most 20000 seen
    keys and at most 2000 trades, whatever the size of the state in memory;
    reloading such a file and writing it back gives the same file; and a
    state within those bounds is reloaded from its file as it was. *)
Theorem X4_state_file_is_bounded (cfg : Config) (ws : list World) (st : State) (snap : State) :
  In (EvPersist snap) (trace_of (run cfg ws st)) ->
  Z.of_nat (List.length (seen snap)) <= 20000
  /\ Z.of_nat (List.length (trades snap)) <= 2000
  /\ trimmed (buildState (Some snap)) = snap
  /\ buildState (Some (trimmed snap)) = snap.
Proof.
  intros Hin.
  pose proof (Forall_In_event _ _ _ (run_trimmed_writes cfg ws st) Hin) as [s0 ->].
  destruct (trimmed_bounded s0) as [Hs Ht].
  split; [exact Hs|]. split; [exact Ht|].
  assert (E : trimmed (trimmed s0) = trimmed s0).
  { unfold trimmed at 1. rewrite (slice_last_short _ _ Hs), (slice_last_short _ _ Ht).
    destruct (trimmed s0); reflexivity. }
  split; [exact E|]. cbn [buildState]. exact E.
Qed.

Lemma X4_state_file_is_bounded_witness :
  In (EvPersist (mkState [Samples.key_aa] [SamplesTrace.trade_aa] (Some 100)))
     (trace_of (run Samples.cfg_dry [Samples.world_aa 100] (Samples.st_at 99)))
  /\ Z.of_nat (List.length (seen (mkState [Samples.key_aa] [SamplesTrace.trade_aa] (Some 100))))
     <= 20000.
Proof.
  assert (Hin : In (EvPersist (mkState [Samples.key_aa] [SamplesTrace.trade_aa] (Some 100)))
                   (trace_of (run Samples.cfg_dry [Samples.world_aa 100] (Samples.st_at 99))))
    by (vm_compute; auto 10).
  split; [exact Hin|].
  exact (proj1 (X4_state_file_is_bounded Samples.cfg_dry [Samples.world_aa 100]
                  (Samples.st_at 99) _ Hin)).
Defined.

(* ------------------------------------------------------------------ *)
(** ** What it takes for a log entry to cause anything *)

(** A log entry causes an event only past every guardrail check. *)
Lemma events_need_all_guards (cfg : Config) (b : Z) (tx : Tx) (lg : Log) (o : Oracle)
    (s : State) (b' : Z) (k : string) (a : Action) :
  In (EvSignal b' k a) (trace_of (process_log cfg b tx (lg, o) s)) ->
  b' = b
  /\ exists sd amount,
       guards_passed cfg tx lg o s sd k amount
       /\ forall t, a = ATrade t ->
            side t = sd /\ watchedHash t = tx_hash tx /\ token t = lg_address lg
            /\ signalAmount t = amount /\ tsMs t = o_now_record o.
Proof.
  intros Hin.
  destruct (process_log_shape cfg b tx lg o s) as [(E & _)|(sd & key & amount & Hg & E)];
    rewrite E in Hin; [contradiction|].
  destruct (mirror_ok cfg sd b key tx lg o amount (mark_seen key s)) as (_ & _ & Hlab & _).
  destruct (labelled_block _ _ _ _ _ _ Hlab Hin) as [-> ->].
  split; [reflexivity|]. exists sd, amount. split; [exact Hg|].
  intros t ->.
  destruct (mirror_more cfg sd b key tx lg o amount (mark_seen key s)) as (_ & _ & _ & _ & Hd).
  exact (Forall_In_event _ _ _ Hd Hin).
Qed.


(** X5.  Whatever event a log entry causes, all guardrail checks passed for
    it: it classifies to a side and to the key the event carries, auto-sell is
    on if it is a sell, the key was not in the seen set, the token is not on
    the ignore list, the amount parses and is positive, and the rate check
    let it pass; the event belongs to the block being scanned; and a trade
    record pushed for it carries the side, the hash of the watched
    transaction, the token address and amount of the log entry, and the clock
    at the push. *)
Theorem X5_events_need_all_guards (cfg : Config) (b : Z) (tx : Tx) (lg : Log) (o : Oracle)
    (s : State) (b' : Z) (k : string) (a : Action) :
  In (EvSignal b' k a) (trace_of (process_log cfg b tx (lg, o) s)) ->
  b' = b
  /\ exists sd amount,
       guards_passed cfg tx lg o s sd k amount
       /\ forall t, a = ATrade t ->
            side t = sd /\ watchedHash t = tx_hash tx /\ token t = lg_address lg
            /\ signalAmount t = amount /\ tsMs t = o_now_record o.
Proof. exact (events_need_all_guards cfg b tx lg o s b' k a). Qed.

Lemma X5_events_need_all_guards_witness :
  In (EvSignal 100 Samples.key_aa (ADetected buy))
     (trace_of (process_log Samples.cfg_dry 100 (Samples.tx_of "0xAA" Samples.buy_log 1000000)
                  (Samples.buy_log, Samples.oracle0 1000000) (Samples.st_at 99)))
  /\ 100 = 100.
Proof.
  assert (Hin : In (EvSignal 100 Samples.key_aa (ADetected buy))
                   (trace_of (process_log Samples.cfg_dry 100
                                (Samples.tx_of "0xAA" Samples.buy_log 1000000)
                                (Samples.buy_log, Samples.oracle0 1000000) (Samples.st_at 99))))
    by (vm_compute; auto).
  split; [exact Hin|].
  exact (proj1 (X5_events_need_all_guards Samples.cfg_dry 100
                  (Samples.tx_of "0xAA" Samples.buy_log 1000000) Samples.buy_log
                  (Samples.oracle0 1000000) (Samples.st_at 99) 100 Samples.key_aa
                  (ADetected buy) Hin)).
Defined.

Lemma gate_ok_inv st now cap cooldown :
  isTradeAllowedByRate st now cap cooldown = GateOk ->
  Z.of_nat (List.length (recent now (trades st))) < cap
  /\ forall t, last_trade st = Some t -> cooldown * 1000 <= now - tsMs t.
Proof.
  unfold isTradeAllowedByRate, last_trade. intros H.
  destruct (Z.leb_spec cap (Z.of_nat (List.length (recent now (trades st))))) as [Hc|Hc];
    [discriminate|].
  split; [exact Hc|]. intros t Ht.
  destruct (rev (trades st)) as [|l r]; [discriminate|]. inversion Ht; subst.
  destruct (Z.ltb_spec (now - tsMs t) (cooldown * 1000)); [discriminate|lia].
Qed.

(** X6.  A trade record is pushed only when, at the time of the rate check,
    fewer than MAX_TRADES_PER_HOUR recorded trades lay in the trailing hour
    and the last recorded trade was at least COOLDOWN_SECONDS old; so, with a
    clock that does not run backwards between the check and the push, the new
    record is stamped at least COOLDOWN_SECONDS after the one before it. *)
Theorem X6_records_respect_cooldown (cfg : Config) (b : Z) (tx : Tx) (lg : Log) (o : Oracle)
    (s : State) (t : Trade) :
  In t (pushed (trace_of (process_log cfg b tx (lg, o) s))) ->
  o_now_gate o <= o_now_record o ->
  Z.of_nat (List.length (recent (o_now_gate o) (trades s))) < MAX_TRADES_PER_HOUR cfg
  /\ forall prev, last_trade s = Some prev ->
       COOLDOWN_SECONDS cfg * 1000 <= tsMs t - tsMs prev.
Proof.
  intros Hin Hclock. unfold pushed in Hin. apply in_flat_map in Hin.
  destruct Hin as (e & He & Ht).
  destruct e as [b0|b0 k a|snap]; try contradiction.
  destruct a; try contradiction. destruct Ht as [->|[]].
  destruct (events_need_all_guards cfg b tx lg o s b0 k (ATrade t) He)
    as (_ & sd & amount & Hg & Hrec).
  destruct (Hrec t eq_refl) as (_ & _ & _ & _ & Hts).
  destruct Hg as (_ & _ & _ & _ & _ & _ & Hgate).
  destruct (gate_ok_inv _ _ _ _ Hgate) as [Hc Hcd].
  split; [exact Hc|]. intros prev Hp. specialize (Hcd prev Hp). lia.
Qed.

Lemma X6_records_respect_cooldown_witness :
  In SamplesMore.trade_late
     (pushed (trace_of (process_log Samples.cfg_dry 100
                          (Samples.tx_of "0xAA" Samples.buy_log 3000000)
                          (Samples.buy_log, Samples.oracle0 3000000) SamplesGate.st_two)))
  /\ o_now_gate (Samples.oracle0 3000000) <= o_now_record (Samples.oracle0 3000000)
  /\ Z.of_nat (List.length (recent (o_now_gate (Samples.oracle0 3000000))
                              (trades SamplesGate.st_two)))
     < MAX_TRADES_PER_HOUR Samples.cfg_dry.
Proof.
  assert (Hin : In SamplesMore.trade_late
                   (pushed (trace_of (process_log Samples.cfg_dry 100
                                        (Samples.tx_of "0xAA" Samples.buy_log 3000000)
                                        (Samples.buy_log, Samples.oracle0 3000000)
                                        SamplesGate.st_two))))
    by (vm_compute; auto).
  assert (Hclock : o_now_gate (Samples.oracle0 3000000)
                   <= o_now_record (Samples.oracle0 3000000))
    by (vm_compute; discriminate).
  split; [exact Hin|]. split; [exact Hclock|].
  exact (proj1 (X6_records_respect_cooldown Samples.cfg_dry 100
                  (Samples.tx_of "0xAA" Samples.buy_log 3000000) Samples.buy_log
                  (Samples.oracle0 3000000) SamplesGate.st_two SamplesMore.trade_late
                  Hin Hclock)).
Defined.

(* ------------------------------------------------------------------ *)
(** ** The cursor *)

(** X7.  Over any run the cursor never moves back: the cursor in memory at the
    end is at or past the one at the start, so a known cursor stays known;
    every write of the state file carries a cursor at or past the one at the
    start and not past the one in memory at the end; and of two writes the
    later one never carries a lower cursor than the earlier one. *)
Theorem X7_cursor_never_moves_back (cfg : Config) (ws : list World) (st : State) :
  cursor_le (lastScannedBlock st) (lastScannedBlock (state_of (run cfg ws st)))
  /\ (forall cursor, lastScannedBlock st = Some cursor ->
        exists cursor', lastScannedBlock (state_of (run cfg ws st)) = Some cursor'
                        /\ cursor <= cursor')
  /\ (forall pre snap post,
        trace_of (run cfg ws st) = pre ++ EvPersist snap :: post ->
        cursor_le (lastScannedBlock st) (lastScannedBlock snap)
        /\ cursor_le (lastScannedBlock snap) (lastScannedBlock (state_of (run cfg ws st))))
  /\ (forall pre first mid second post,
        trace_of (run cfg ws st) = pre ++ EvPersist first :: mid ++ EvPersist second :: post ->
        cursor_le (lastScannedBlock first) (lastScannedBlock second)).
Proof.
  destruct (run_scan cfg ws st) as [Hd Ha].
  assert (Hend : cursor_le (lastScannedBlock st) (lastScannedBlock (state_of (run cfg ws st)))).
  { rewrite <- Ha. apply (durable_cursor_le _ _ []). now rewrite app_nil_r. }
  split; [exact Hend|]. split; [|split].
  - intros cursor Hc. rewrite Hc in Hend.
    destruct (lastScannedBlock (state_of (run cfg ws st))) as [c'|]; [|contradiction].
    exists c'. split; [reflexivity|exact Hend].
  - intros pre snap post Htr. rewrite Htr in Hd, Ha. split.
    + pose proof (durable_cursor_le (pre ++ [EvPersist snap]) (lastScannedBlock st) post) as H.
      rewrite <- app_assoc in H. specialize (H Hd).
      rewrite cursor_after_app in H. exact H.
    + rewrite <- Ha, cursor_after_app.
      apply durable_split in Hd. cbn in Hd. destruct Hd as [_ Hd].
      change (cursor_after (cursor_after (lastScannedBlock st) pre) (EvPersist snap :: post))
        with (cursor_after (lastScannedBlock snap) post).
      apply (durable_cursor_le post _ []). now rewrite app_nil_r.
  - intros pre first mid second post Htr.
    rewrite Htr in Hd. apply durable_split in Hd. cbn in Hd. destruct Hd as [_ Hd].
    pose proof (durable_cursor_le (mid ++ [EvPersist second]) (lastScannedBlock first) post)
      as H.
    rewrite <- app_assoc in H. specialize (H Hd).
    rewrite cursor_after_app in H. exact H.
Qed.

Lemma X7_cursor_never_moves_back_witness :
  trace_of (run Samples.cfg_dry [Samples.world_aa 100] (Samples.st_at 99))
    = (SamplesTrace.before_trade
         ++ [EvSignal 100 Samples.key_aa (ATrade SamplesTrace.trade_aa)])
      ++ EvPersist (mkState [Samples.key_aa] [SamplesTrace.trade_aa] (Some 99))
         :: [] ++ EvPersist (mkState [Samples.key_aa] [SamplesTrace.trade_aa] (Some 100)) :: []
  /\ cursor_le (Some 99) (Some 100).
Proof.
  assert (Htr : trace_of (run Samples.cfg_dry [Samples.world_aa 100] (Samples.st_at 99))
                = (SamplesTrace.before_trade
                     ++ [EvSignal 100 Samples.key_aa (ATrade SamplesTrace.trade_aa)])
                  ++ EvPersist (mkState [Samples.key_aa] [SamplesTrace.trade_aa] (Some 99))
                     :: [] ++ EvPersist (mkState [Samples.key_aa] [SamplesTrace.trade_aa]
                                           (Some 100)) :: [])
    by (vm_compute; reflexivity).
  split; [exact Htr|].
  exact (proj2 (proj2 (proj2 (X7_cursor_never_moves_back Samples.cfg_dry
                                [Samples.world_aa 100] (Samples.st_at 99))))
           _ _ _ _ _ Htr).
Defined.

(** X8.  One cycle from a known cursor leaves a known cursor that is not
    lower, not past the chain height unless it already was, and at most
    MAX_BLOCK_SCAN_PER_CYCLE ahead. *)
Theorem X8_cycle_moves_cursor_within_bounds (cfg : Config) (w : World) (st : State)
    (cursor latest : Z) :
  lastScannedBlock st = Some cursor ->
  w_latest w = Some latest ->
  exists cursor',
    lastScannedBlock (state_of (run_cycle cfg w st)) = Some cursor'
    /\ cursor <= cursor'
    /\ cursor' <= Z.max cursor latest
    /\ cursor' <= Z.max cursor (cursor + MAX_BLOCK_SCAN_PER_CYCLE cfg).
Proof.
  intros Hc Hl.
  destruct (Z.ltb_spec 0 latest) as [Hpos|Hle].
  - destruct (run_cycle_range cfg w st cursor latest Hc Hl Hpos) as (_ & C & _).
    rewrite C. unfold block_range.
    set (n := Z.to_nat (Z.min latest (cursor + MAX_BLOCK_SCAN_PER_CYCLE cfg)
                        - (cursor + 1) + 1)).
    destruct (last_fetched_range w n (cursor + 1) (Some cursor))
      as [[E _]|(c' & E & Hr & _)]; rewrite E.
    + exists cursor. repeat split; lia.
    + exists c'. repeat split; lia.
  - rewrite run_cycle_no_height by (right; eauto). cbn. rewrite Hc.
    exists cursor. repeat split; lia.
Qed.

Lemma X8_cycle_moves_cursor_within_bounds_witness :
  lastScannedBlock (Samples.st_at 100) = Some 100
  /\ w_latest Samples.world_gap = Some 102
  /\ exists cursor',
       lastScannedBlock (state_of (run_cycle Samples.cfg_dry Samples.world_gap
                                     (Samples.st_at 100))) = Some cursor'
       /\ 100 <= cursor'
       /\ cursor' <= Z.max 100 102
       /\ cursor' <= Z.max 100 (100 + MAX_BLOCK_SCAN_PER_CYCLE Samples.cfg_dry).
Proof.
  split; [reflexivity|]. split; [reflexivity|].
  exact (X8_cycle_moves_cursor_within_bounds Samples.cfg_dry Samples.world_gap
           (Samples.st_at 100) 100 102 eq_refl eq_refl).
Defined.

(** X9.  The first cycle of a fresh store (no cursor) at chain height
    [latest] fetches the blocks from [max 0 (latest - START_LOOKBACK_BLOCKS)]
    up to [latest], at most MAX_BLOCK_SCAN_PER_CYCLE of them, in order: no
    block below 0, none past the height, none further back than the
    lookback. *)
Theorem X9_first_cycle_looks_back (cfg : Config) (w : World) (st : State) (latest : Z) :
  lastScannedBlock st = None ->
  w_latest w = Some latest ->
  0 < latest ->
  fetched (trace_of (run_cycle cfg w st))
    = block_range (Z.max 0 (latest - START_LOOKBACK_BLOCKS cfg))
        (Z.min latest (Z.max 0 (latest - START_LOOKBACK_BLOCKS cfg)
                       + MAX_BLOCK_SCAN_PER_CYCLE cfg - 1))
  /\ forall b, In b (fetched (trace_of (run_cycle cfg w st))) ->
       0 <= b <= latest /\ latest - START_LOOKBACK_BLOCKS cfg <= b.
Proof.
  intros Hc Hl Hpos.
  rewrite (run_cycle_unfold cfg w st latest Hl Hpos).
  unfold fromBlock_of, toBlock_of. rewrite Hc.
  set (from := Z.max 0 (latest - START_LOOKBACK_BLOCKS cfg)).
  set (to := Z.min latest (from + MAX_BLOCK_SCAN_PER_CYCLE cfg - 1)).
  assert (F : fetched (trace_of (if from <=? latest
                                 then for_each (block_range from to) (process_block cfg w) st
                                 else (Some tt, st, [])))
              = block_range from to).
  { destruct (Z.leb_spec from latest) as [Hle|Hgt].
    - assert (Hlt : cursor_lt (lastScannedBlock st) from) by (rewrite Hc; exact I).
      destruct (scan_range cfg w (Z.to_nat (to - from + 1)) from st Hlt) as (_ & _ & F & _).
      exact F.
    - unfold block_range. replace (Z.to_nat (to - from + 1)) with 0%nat by lia. reflexivity. }
  split; [exact F|].
  intros b Hin. rewrite F in Hin. apply In_block_range in Hin. lia.
Qed.

Lemma X9_first_cycle_looks_back_witness :
  lastScannedBlock (mkState [] [] None) = None
  /\ w_latest (Samples.world_aa 100) = Some 100
  /\ 0 < 100
  /\ fetched (trace_of (run_cycle Samples.cfg_dry (Samples.world_aa 100) (mkState [] [] None)))
     = block_range (Z.max 0 (100 - START_LOOKBACK_BLOCKS Samples.cfg_dry))
         (Z.min 100 (Z.max 0 (100 - START_LOOKBACK_BLOCKS Samples.cfg_dry)
                     + MAX_BLOCK_SCAN_PER_CYCLE Samples.cfg_dry - 1)).
Proof.
  split; [reflexivity|]. split; [reflexivity|]. split; [reflexivity|].
  exact (proj1 (X9_first_cycle_looks_back Samples.cfg_dry (Samples.world_aa 100)
                  (mkState [] [] None) 100 eq_refl eq_refl eq_refl)).
Defined.

Lemma run_cons cfg w ws s :
  run cfg (w :: ws) s
  = (Some tt,
     state_of (run cfg ws (state_of (run_cycle cfg w s))),
     trace_of (run_cycle cfg w s) ++ trace_of (run cfg ws (state_of (run_cycle cfg w s)))).
Proof.
  unfold run. cbn [for_each]. unfold bind, iteration.
  destruct (run_cycle cfg w s) as [[r1 s1] t1]. cbn [state_of trace_of fst snd].
  pose proof (for_each_value ws (run_cycle cfg) s1) as Hv.
  destruct (for_each ws (run_cycle cfg) s1) as [[r2 s2] t2].
  unfold value_of in Hv. cbn in Hv. subst r2. reflexivity.
Qed.

Lemma all_served_cursor w n f c :
  (forall b, w_getBlock w b <> None) -> (0 < n)%nat ->
  last_fetched w (range_from f n) c = Some (f + Z.of_nat n - 1).
Proof.
  intros Hs Hn.
  destruct (last_fetched_range w n f c) as [[_ Hall]|(c' & E & Hr & _ & Hall)].
  - exfalso. apply (Hs f), Hall. lia.
  - rewrite E. f_equal.
    destruct (Z.eq_dec c' (f + Z.of_nat n - 1)) as [->|Hne]; [reflexivity|].
    exfalso. apply (Hs (f + Z.of_nat n - 1)), Hall. lia.
Qed.

Lemma served_cycle_cursor cfg w st cursor latest :
  (forall b, w_getBlock w b <> None) ->
  w_latest w = Some latest ->
  1 <= MAX_BLOCK_SCAN_PER_CYCLE cfg ->
  lastScannedBlock st = Some cursor ->
  0 <= cursor <= latest ->
  lastScannedBlock (state_of (run_cycle cfg w st))
  = Some (Z.min latest (cursor + MAX_BLOCK_SCAN_PER_CYCLE cfg)).
Proof.
  intros Hs Hl Hmax Hc Hr.
  destruct (Z.eq_dec cursor latest) as [->|Hne].
  - destruct (Z.ltb_spec 0 latest) as [Hpos|Hle].
    + rewrite (run_cycle_unfold cfg w st latest Hl Hpos). unfold fromBlock_of. rewrite Hc.
      destruct (Z.leb_spec (latest + 1) latest); [lia|]. cbn. rewrite Hc. f_equal. lia.
    + rewrite run_cycle_no_height by (right; eauto). cbn. rewrite Hc. f_equal. lia.
  - assert (Hpos : 0 < latest) by lia.
    destruct (run_cycle_range cfg w st cursor latest Hc Hl Hpos) as (_ & C & _).
    rewrite C. unfold block_range. rewrite all_served_cursor by (auto; lia).
    f_equal. lia.
Qed.

(** X10.  While every block is served and the chain stands at [latest], each
    cycle moves the cursor forward by MAX_BLOCK_SCAN_PER_CYCLE until it
    reaches [latest], where it stays: after [n] cycles it is at
    [min latest (cursor + n * MAX_BLOCK_SCAN_PER_CYCLE)]. *)
Theorem X10_cursor_catches_up (cfg : Config) (w : World) (n : nat) :
  forall (st : State) (cursor latest : Z),
  (forall b, w_getBlock w b <> None) ->
  w_latest w = Some latest ->
  1 <= MAX_BLOCK_SCAN_PER_CYCLE cfg ->
  lastScannedBlock st = Some cursor ->
  0 <= cursor <= latest ->
  lastScannedBlock (state_of (run cfg (repeat w n) st))
  = Some (Z.min latest (cursor + Z.of_nat n * MAX_BLOCK_SCAN_PER_CYCLE cfg)).
Proof.
  induction n as [|n IH]; intros st cursor latest Hs Hl Hmax Hc Hr.
  - cbn. rewrite Hc. f_equal. lia.
  - cbn [repeat]. rewrite run_cons. cbn [state_of fst snd].
    pose proof (served_cycle_cursor cfg w st cursor latest Hs Hl Hmax Hc Hr) as H1.
    rewrite (IH _ (Z.min latest (cursor + MAX_BLOCK_SCAN_PER_CYCLE cfg)) latest Hs Hl Hmax H1)
      by lia.
    f_equal. nia.
Qed.

Lemma X10_cursor_catches_up_witness :
  (forall b, w_getBlock (Samples.world_aa 130) b <> None)
  /\ w_latest (Samples.world_aa 130) = Some 130
  /\ 1 <= MAX_BLOCK_SCAN_PER_CYCLE Samples.cfg_dry
  /\ lastScannedBlock (Samples.st_at 99) = Some 99
  /\ 0 <= 99 <= 130
  /\ lastScannedBlock (state_of (run Samples.cfg_dry (repeat (Samples.world_aa 130) 2)
                                   (Samples.st_at 99)))
     = Some (Z.min 130 (99 + Z.of_nat 2 * MAX_BLOCK_SCAN_PER_CYCLE Samples.cfg_dry)).
Proof.
  assert (Hs : forall b, w_getBlock (Samples.world_aa 130) b <> None).
  { intros b. cbn. destruct (b =? 100); discriminate. }
  assert (Hmax : 1 <= MAX_BLOCK_SCAN_PER_CYCLE Samples.cfg_dry) by (vm_compute; discriminate).
  assert (Hr : 0 <= 99 <= 130) by lia.
  split; [exact Hs|]. split; [reflexivity|]. split; [exact Hmax|]. split; [reflexivity|].
  split; [exact Hr|].
  exact (X10_cursor_catches_up Samples.cfg_dry (Samples.world_aa 130) 2 (Samples.st_at 99)
           99 130 Hs eq_refl Hmax eq_refl Hr).
Defined.

Lemma for_each_app {A} (body : A -> M unit) (l1 l2 : list A) : forall s,
  for_each (l1 ++ l2) body s
  = (Some tt,
     state_of (for_each l2 body (state_of (for_each l1 body s))),
     trace_of (for_each l1 body s)
       ++ trace_of (for_each l2 body (state_of (for_each l1 body s)))).
Proof.
  induction l1 as [|x l1 IH]; intros s.
  - cbn. pose proof (for_each_value l2 body s) as Hv.
    destruct (for_each l2 body s) as [[r s2] t2]. unfold value_of in Hv. cbn in *.
    now subst r.
  - cbn [app for_each]. unfold bind, iteration.
    destruct (body x s) as [[r1 s1] t1]. rewrite IH.
    destruct (for_each l1 body s1) as [[r2 s2] t2]. cbn [state_of trace_of fst snd].
    now rewrite app_assoc.
Qed.

(** X11.  A poll whose height read throws, or returns zero or less, leaves no
    trace: nothing is fetched, nothing is written, the state is as it was, and
    the rest of the run goes on as if that poll had not taken place. *)
Theorem X11_failed_height_leaves_no_trace (cfg : Config) (w : World) (ws1 ws2 : list World)
    (st : State) :
  no_height w = true ->
  run_cycle cfg w st = (None, st, [])
  /\ state_of (run cfg (ws1 ++ w :: ws2) st) = state_of (run cfg (ws1 ++ ws2) st)
  /\ trace_of (run cfg (ws1 ++ w :: ws2) st) = trace_of (run cfg (ws1 ++ ws2) st).
Proof.
  intros Hw.
  assert (Hc : forall s, run_cycle cfg w s = (None, s, [])).
  { intros s. apply run_cycle_no_height. unfold no_height in Hw.
    destruct (w_latest w) as [l|]; [right|left; reflexivity].
    exists l. split; [reflexivity|]. now apply Z.leb_le. }
  split; [apply Hc|].
  assert (E : forall s1, for_each (w :: ws2) (run_cycle cfg) s1
                         = for_each ws2 (run_cycle cfg) s1).
  { intros s1. cbn [for_each]. unfold bind, iteration. rewrite Hc.
    pose proof (for_each_value ws2 (run_cycle cfg) s1) as Hv.
    destruct (for_each ws2 (run_cycle cfg) s1) as [[r s2] t2].
    unfold value_of in Hv. cbn in Hv. subst r. reflexivity. }
  unfold run. rewrite (for_each_app _ ws1 (w :: ws2)), (for_each_app _ ws1 ws2).
  rewrite E. split; reflexivity.
Qed.

Lemma X11_failed_height_leaves_no_trace_witness :
  no_height SamplesMore.world_down = true
  /\ trace_of (run Samples.cfg_dry
                 ([Samples.world_aa 100] ++ SamplesMore.world_down :: [Samples.world_aa 101])
                 (Samples.st_at 99))
     = trace_of (run Samples.cfg_dry ([Samples.world_aa 100] ++ [Samples.world_aa 101])
                   (Samples.st_at 99)).
Proof.
  split; [reflexivity|].
  exact (proj2 (proj2 (X11_failed_height_leaves_no_trace Samples.cfg_dry SamplesMore.world_down
                         [Samples.world_aa 100] [Samples.world_aa 101] (Samples.st_at 99)
                         eq_refl))).
Defined.

(* ------------------------------------------------------------------ *)
(** ** Transactions the scan does not look into *)

Lemma process_tx_irrelevant cfg b item s :
  relevant cfg item = false -> process_tx cfg b item s = (None, s, []).
Proof.
  unfold relevant, process_tx, bind, guard, lift. destruct item as [h|tx]; [reflexivity|].
  destruct (normalizeAddr (tx_from tx) =? watch cfg)%string; cbn; [|reflexivity].
  destruct (nonempty (tx_hash tx)); cbn; [|reflexivity].
  destruct (tx_receipt tx) as [r|]; cbn; [|reflexivity].
  destruct (r_success r); cbn; [discriminate|reflexivity].
Qed.

Lemma for_each_irrelevant cfg b txs : forall s,
  forallb (fun item => negb (relevant cfg item)) txs = true ->
  for_each txs (process_tx cfg b) s = (Some tt, s, []).
Proof.
  induction txs as [|x txs IH]; intros s H; cbn in *; [reflexivity|].
  apply andb_true_iff in H. destruct H as [Hx H]. apply negb_true_iff in Hx.
  unfold bind, iteration. rewrite (process_tx_irrelevant cfg b x s Hx), (IH s H). reflexivity.
Qed.

(** X12.  A block in which no item is a full transaction sent by the watched
    address with a hash and a successful receipt (bare hashes, transactions
    of other senders, reverted transactions, receipts that could not be
    fetched) yields no signal whatever its logs say: the block is fetched, the
    cursor is set to it and written, and the seen set and the trades are as
    before. *)
Theorem X12_block_without_watched_success (cfg : Config) (w : World) (b : Z)
    (txs : list TxItem) (s : State) :
  w_getBlock w b = Some txs ->
  forallb (fun item => negb (relevant cfg item)) txs = true ->
  process_block cfg w b s
  = (Some tt, mkState (seen s) (trades s) (Some b),
     [EvGetBlock b; EvPersist (trimmed (mkState (seen s) (trades s) (Some b)))]).
Proof.
  intros Hb Hq. unfold process_block, bind, call. rewrite Hb.
  rewrite (for_each_irrelevant cfg b txs s Hq). reflexivity.
Qed.

Lemma X12_block_without_watched_success_witness :
  w_getBlock SamplesMore.world_quiet 100 = Some SamplesMore.quiet_block
  /\ forallb (fun item => negb (relevant Samples.cfg_dry item)) SamplesMore.quiet_block = true
  /\ process_block Samples.cfg_dry SamplesMore.world_quiet 100 (Samples.st_at 99)
     = (Some tt, mkState (seen (Samples.st_at 99)) (trades (Samples.st_at 99)) (Some 100),
        [EvGetBlock 100;
         EvPersist (trimmed (mkState (seen (Samples.st_at 99)) (trades (Samples.st_at 99))
                               (Some 100)))]).
Proof.
  split; [reflexivity|]. split; [reflexivity|].
  exact (X12_block_without_watched_success Samples.cfg_dry SamplesMore.world_quiet 100
           SamplesMore.quiet_block (Samples.st_at 99) eq_refl eq_refl).
Defined.

(* ------------------------------------------------------------------ *)
(** ** The sell branch: sizes, approvals, and what is sent *)

#[local] Opaque trimmed maxUint256 Z.quot.

Lemma mirror_sell_quotes cfg b key tx lg o amount s :
  Forall (sell_quote_sized cfg o) (trace_of (mirror_sell cfg b key tx lg o amount s)).
Proof.
  unfold mirror_sell, ensureAllowance, bind, call, emit, guard, lift, ret, skip,
    record_trade, push_trade, persistState, trace_of.
  repeat (cbn; try branch_case);
    repeat match goal with
           | |- Forall _ [] => constructor
           | |- Forall _ (_ :: _) => constructor
           | |- sell_quote_sized _ _ _ => cbn
           | |- True => exact I
           | H : (0 <? ?z) = true |- exists _, _ =>
               exists z; apply Z.ltb_lt in H; repeat split; auto
           | H : (_ <=? _) = true |- (_ <= _) => apply Z.leb_le in H; exact H
           end.
Qed.

#[local] Transparent trimmed maxUint256 Z.quot.

Lemma sell_quantity_bounds cfg balance :
  1 <= AUTO_SELL_BPS cfg <= 10000 -> 0 < balance ->
  0 <= sell_quantity cfg balance <= balance.
Proof.
  intros Hbps Hbal. unfold sell_quantity. rewrite Z.quot_div_nonneg by nia.
  split.
  - apply Z.div_pos; nia.
  - apply Z.div_le_upper_bound; nia.
Qed.

(** X13.  With AUTO_SELL_BPS between 1 and 10000, as [run] clamps it, every
    quote the engine requests while mirroring a sell is for a quantity
    between 0 and the follower's balance as just read, at or above
    MIN_SELL_TOKEN_RAW: the engine never offers more of a token than the
    follower holds. *)
Theorem X13_sell_never_exceeds_balance (cfg : Config) (b : Z) (tx : Tx) (lg : Log) (o : Oracle)
    (s : State) (key : string) (b' : Z) (k sellToken buyToken : string) (q : Z) :
  1 <= AUTO_SELL_BPS cfg <= 10000 ->
  classify cfg tx lg = Some (sell, key) ->
  In (EvSignal b' k (AQuote sellToken buyToken q))
     (trace_of (process_log cfg b tx (lg, o) s)) ->
  exists balance,
    o_balance o = Some balance
    /\ 0 <= q <= balance
    /\ MIN_SELL_TOKEN_RAW cfg <= q
    /\ sellToken = lg_address lg /\ buyToken = ETH_PLACEHOLDER.
Proof.
  intros Hbps Hcl Hin.
  destruct (process_log_shape cfg b tx lg o s) as [(E & _)|(sd & key' & amount & Hg & E)];
    rewrite E in Hin; [contradiction|].
  destruct Hg as (Hcl' & _). rewrite Hcl in Hcl'. inversion Hcl'; subst sd key'.
  unfold mirror in Hin.
  pose proof (Forall_In_event _ _ _
                (mirror_sell_quotes cfg b key tx lg o amount (mark_seen key s)) Hin) as Hq.
  cbn in Hq. destruct Hq as (balance & Hbal & Hpos & -> & Hmin).
  exists balance. split; [exact Hbal|].
  split; [apply sell_quantity_bounds; assumption|]. split; [exact Hmin|].
  clear - Hin. revert Hin.
  unfold mirror_sell, ensureAllowance, bind, call, emit, guard, lift, ret, skip,
    record_trade, push_trade, persistState, trace_of.
  repeat (cbn; try branch_case); intros Hin; trace_members; auto.
Qed.

Lemma X13_sell_never_exceeds_balance_witness :
  1 <= AUTO_SELL_BPS Samples.cfg_dry <= 10000
  /\ classify Samples.cfg_dry (Samples.tx_of "0xAB" Samples.sell_log 1000000) Samples.sell_log
     = Some (sell, Samples.key_ab)
  /\ In (EvSignal 100 Samples.key_ab (AQuote Samples.tokT ETH_PLACEHOLDER 1250))
        (trace_of (process_log Samples.cfg_dry 100
                     (Samples.tx_of "0xAB" Samples.sell_log 1000000)
                     (Samples.sell_log, Samples.oracle0 1000000) (Samples.st_at 99)))
  /\ exists balance,
       o_balance (Samples.oracle0 1000000) = Some balance
       /\ 0 <= 1250 <= balance
       /\ MIN_SELL_TOKEN_RAW Samples.cfg_dry <= 1250
       /\ Samples.tokT = lg_address Samples.sell_log /\ ETH_PLACEHOLDER = ETH_PLACEHOLDER.
Proof.
  assert (Hbps : 1 <= AUTO_SELL_BPS Samples.cfg_dry <= 10000)
    by (vm_compute; split; discriminate).
  assert (Hin : In (EvSignal 100 Samples.key_ab (AQuote Samples.tokT ETH_PLACEHOLDER 1250))
                   (trace_of (process_log Samples.cfg_dry 100
                                (Samples.tx_of "0xAB" Samples.sell_log 1000000)
                                (Samples.sell_log, Samples.oracle0 1000000)
                                (Samples.st_at 99))))
    by (vm_compute; auto 6).
  split; [exact Hbps|]. split; [reflexivity|]. split; [exact Hin|].
  exact (X13_sell_never_exceeds_balance Samples.cfg_dry 100
           (Samples.tx_of "0xAB" Samples.sell_log 1000000) Samples.sell_log
           (Samples.oracle0 1000000) (Samples.st_at 99) Samples.key_ab 100 Samples.key_ab
           Samples.tokT ETH_PLACEHOLDER 1250 Hbps eq_refl Hin).
Defined.

#[local] Opaque trimmed maxUint256 Z.quot.

Ltac use_equations :=
  repeat match goal with
         | H : ?x = _ |- context [?x] => rewrite H
         end.

Ltac split_andb :=
  repeat match goal with
         | H : (_ && _)%bool = true |- _ => apply andb_true_iff in H; destruct H
         end.

Ltac sell_send_leaf :=
  cbn; split; [assumption|];
  match goal with
  | Hb : o_balance _ = Some ?z, Hq : o_quote _ = Some ?q |- _ =>
      exists z, q; eexists; split; [exact Hb|]; split; [exact Hq|];
      split; [unfold final_quote, sell_quantity; use_equations; cbn; use_equations;
              reflexivity|];
      split_andb; repeat split; try reflexivity; try assumption
  end.

Lemma mirror_sell_sends cfg b key tx lg o amount s :
  Forall (sell_send_justified cfg o) (trace_of (mirror_sell cfg b key tx lg o amount s)).
Proof.
  unfold mirror_sell, ensureAllowance, bind, call, emit, guard, lift, ret, skip,
    record_trade, push_trade, persistState, trace_of.
  repeat (cbn; try branch_case);
    repeat match goal with
           | |- Forall _ [] => constructor
           | |- Forall _ (_ :: _) => constructor
           | |- sell_send_justified _ _ (EvSignal _ _ (ASend _ _ _)) => sell_send_leaf
           | |- sell_send_justified _ _ _ => exact I
           end.
Qed.

Ltac buy_leaf :=
  cbn;
  match goal with
  | Hq : o_quote _ = Some ?q |- _ =>
      split_andb;
      repeat match goal with
             | |- _ /\ _ => split
             | |- exists _, _ => exists q
             | |- _ = _ => first [reflexivity | assumption]
             end
  end.

Lemma mirror_buy_events cfg b key tx lg o amount s :
  Forall (buy_event_justified cfg o) (trace_of (mirror_buy cfg b key tx lg o amount s)).
Proof.
  unfold mirror_buy, bind, call, emit, guard, lift, ret, skip,
    record_trade, push_trade, persistState, trace_of.
  repeat (cbn; try branch_case);
    repeat match goal with
           | |- Forall _ [] => constructor
           | |- Forall _ (_ :: _) => constructor
           | |- buy_event_justified _ _ (EvSignal _ _ (ASend _ _ _)) => buy_leaf
           | |- buy_event_justified _ _ (EvSignal _ _ (ATrade _)) => buy_leaf
           | |- buy_event_justified _ _ (EvSignal _ _ (AQuote _ _ _)) => cbn; auto
           | |- buy_event_justified _ _ _ => exact I
           end.
Qed.

#[local] Transparent trimmed maxUint256 Z.quot.

Lemma final_quote_settled cfg o q qty q' :
  final_quote cfg o q qty = Some q' -> allowance_settled o q qty.
Proof.
  unfold final_quote, allowance_settled.
  destruct (nonempty (quote_spender q) && isHexAddress (quote_spender q)); [|now left].
  destruct (o_allowance o) as [a|]; [|discriminate].
  destruct (Z.leb_spec qty a) as [Hle|Hgt]; [intros _; right; left; eauto|].
  destruct (o_approve o) as [h|]; [|discriminate].
  destruct (o_approve_receipt o) as [[|]|]; try discriminate.
  intros _. right. right. split; [reflexivity|]. exists a, h. auto.
Qed.

Lemma each_after_split P pre : forall past e post,
  each_after P past (pre ++ e :: post) -> P (past ++ pre) e.
Proof.
  induction pre as [|x pre IH]; intros past e post H; cbn in H.
  - rewrite app_nil_r. tauto.
  - destruct H as [_ H]. apply IH in H. rewrite <- app_assoc in H. exact H.
Qed.

#[local] Opaque trimmed maxUint256 Z.quot.

Ltac same_answers :=
  repeat match goal with
         | H1 : ?x = Some ?a, H2 : ?x = Some ?b |- _ =>
             lazymatch a with
             | b => fail
             | _ => rewrite H1 in H2; injection H2 as ?; try subst
             end
         | H1 : ?x = None, H2 : ?x = Some _ |- _ => rewrite H1 in H2; discriminate H2
         | H1 : ?x = true, H2 : ?x = false |- _ => rewrite H1 in H2; discriminate H2
         end.

Ltac sell_prepared_done :=
  repeat match goal with
         | |- True => exact I
         | |- _ /\ _ => split
         | |- forall _, _ => intro; same_answers
         | |- exists _, _ => eexists; split; [eassumption|]
         | H : (_ <=? _) = true, Hlt : _ < sell_quantity _ _ |- _ =>
             exfalso; unfold sell_quantity in Hlt; apply Z.leb_le in H; lia
         | |- _ \/ _ => auto 12
         end.

Lemma mirror_sell_prepared cfg b key tx lg o amount s :
  each_after (sell_send_prepared cfg lg o) []
    (trace_of (mirror_sell cfg b key tx lg o amount s)).
Proof.
  unfold mirror_sell, ensureAllowance, bind, call, emit, guard, lift, ret, skip,
    record_trade, push_trade, persistState, trace_of.
  repeat (cbn; try branch_case); sell_prepared_done.
Qed.

#[local] Transparent trimmed maxUint256 Z.quot.

Lemma sell_events_of_log cfg b tx lg o s key e :
  classify cfg tx lg = Some (sell, key) ->
  In e (trace_of (process_log cfg b tx (lg, o) s)) ->
  exists amount, In e (trace_of (mirror_sell cfg b key tx lg o amount (mark_seen key s))).
Proof.
  intros Hcl Hin.
  destruct (process_log_shape cfg b tx lg o s) as [(E & _)|(sd & key' & amount & Hg & E)];
    rewrite E in Hin; [contradiction|].
  destruct Hg as (Hcl' & _). rewrite Hcl in Hcl'. inversion Hcl'; subst sd key'.
  exists amount. exact Hin.
Qed.

Lemma buy_events_of_log cfg b tx lg o s key e :
  classify cfg tx lg = Some (buy, key) ->
  In e (trace_of (process_log cfg b tx (lg, o) s)) ->
  exists amount, In e (trace_of (mirror_buy cfg b key tx lg o amount (mark_seen key s))).
Proof.
  intros Hcl Hin.
  destruct (process_log_shape cfg b tx lg o s) as [(E & _)|(sd & key' & amount & Hg & E)];
    rewrite E in Hin; [contradiction|].
  destruct Hg as (Hcl' & _). rewrite Hcl in Hcl'. inversion Hcl'; subst sd key'.
  exists amount. exact Hin.
Qed.

(** X14.  The sell branch sends a transaction only in live mode and only once
    the allowance question is settled for the quantity it sells: the quote
    names no well-formed spender; or the allowance of the spender was read
    before the send and the answer covers the quantity; or it was read and
    fell short, and before the send the unlimited approval was submitted, its
    receipt awaited and reported as a success.  So after a failed allowance
    read, a failed approval or an unsuccessful approval receipt nothing is
    sent. *)
Theorem X14_sell_sends_only_with_allowance (cfg : Config) (b : Z) (tx : Tx) (lg : Log)
    (o : Oracle) (s : State) (key : string) (b' : Z) (k to data : string) (v : Z) :
  classify cfg tx lg = Some (sell, key) ->
  In (EvSignal b' k (ASend to data v)) (trace_of (process_log cfg b tx (lg, o) s)) ->
  DRY_RUN cfg = false
  /\ exists balance q,
       o_balance o = Some balance /\ o_quote o = Some q
       /\ allowance_settled o q (sell_quantity cfg balance)
       /\ (nonempty (quote_spender q) && isHexAddress (quote_spender q) = true ->
           (exists allowance, o_allowance o = Some allowance)
           /\ (forall allowance,
                 o_allowance o = Some allowance -> allowance < sell_quantity cfg balance ->
                 exists h, o_approve o = Some h /\ o_approve_receipt o = Some true)
           /\ exists pre post,
                trace_of (process_log cfg b tx (lg, o) s)
                = pre ++ EvSignal b' k (ASend to data v) :: post
                /\ In (EvSignal b' k (AAllowance (lg_address lg) (FOLLOWER cfg)
                                        (quote_spender q))) pre
                /\ forall allowance,
                     o_allowance o = Some allowance ->
                     allowance < sell_quantity cfg balance ->
                     exists h, o_approve o = Some h
                       /\ In (EvSignal b' k (AApprove (lg_address lg) (quote_spender q)
                                               maxUint256)) pre
                       /\ In (EvSignal b' k (AWait h)) pre).
Proof.
  intros Hcl Hin.
  destruct (process_log_shape cfg b tx lg o s) as [(E & _)|(sd & key' & amount & Hg & E)];
    [rewrite E in Hin; contradiction|].
  destruct Hg as (Hcl' & _). rewrite Hcl in Hcl'. inversion Hcl'; subst sd key'.
  rewrite E in *. cbn [mirror] in *.
  pose proof (Forall_In_event _ _ _
                (mirror_sell_sends cfg b key tx lg o amount (mark_seen key s)) Hin) as H.
  cbn in H. destruct H as (Hlive & balance & q & q' & Hb & Hq & Hf & _).
  split; [exact Hlive|]. exists balance, q.
  pose proof (final_quote_settled _ _ _ _ _ Hf) as Hs.
  split; [exact Hb|]. split; [exact Hq|]. split; [exact Hs|].
  intros Hsp.
  destruct Hs as [Hno|[(_ & a & Ha & Hle)|(_ & a & h & Ha & Hlt & Hap & Hrc)]];
    [congruence| |].
  - split; [eauto|]. split; [intros a' Ha' Hlt'; rewrite Ha in Ha'; inversion Ha'; lia|].
    destruct (in_split _ _ Hin) as (pre & post & Et). exists pre, post.
    split; [exact Et|].
    pose proof (mirror_sell_prepared cfg b key tx lg o amount (mark_seen key s)) as Hp.
    rewrite Et in Hp. apply each_after_split in Hp. cbn in Hp.
    exact (Hp q balance Hq Hb Hsp).
  - split; [eauto|].
    split; [intros a' Ha' _; exists h; auto|].
    destruct (in_split _ _ Hin) as (pre & post & Et). exists pre, post.
    split; [exact Et|].
    pose proof (mirror_sell_prepared cfg b key tx lg o amount (mark_seen key s)) as Hp.
    rewrite Et in Hp. apply each_after_split in Hp. cbn in Hp.
    exact (Hp q balance Hq Hb Hsp).
Qed.

(** X15.  What the sell branch sends is a quote's transaction as it is: the
    destination and the data of the quote, both present, and its value (zero
    when the quote gives none).  The quote is the one fetched after the
    approval when an approval was needed and came back with a hash, and the
    first quote when the allowance covered the quantity or no well-formed
    spender was named. *)
Theorem X15_sell_sends_the_fresh_quote (cfg : Config) (b : Z) (tx : Tx) (lg : Log)
    (o : Oracle) (s : State) (key : string) (b' : Z) (k to data : string) (v : Z) :
  classify cfg tx lg = Some (sell, key) ->
  In (EvSignal b' k (ASend to data v)) (trace_of (process_log cfg b tx (lg, o) s)) ->
  exists balance q q',
    o_balance o = Some balance /\ o_quote o = Some q
    /\ to = q_to q' /\ data = q_data q'
    /\ nonempty to = true /\ nonempty data = true
    /\ quote_value q' 0 = Some v
    /\ (nonempty (quote_spender q) && isHexAddress (quote_spender q) = false -> q' = q)
    /\ (forall allowance, o_allowance o = Some allowance ->
          sell_quantity cfg balance <= allowance -> q' = q)
    /\ (forall allowance h,
          nonempty (quote_spender q) && isHexAddress (quote_spender q) = true ->
          o_allowance o = Some allowance -> allowance < sell_quantity cfg balance ->
          o_approve o = Some h -> nonempty h = true ->
          o_requote o = Some q').
Proof.
  intros Hcl Hin.
  destruct (sell_events_of_log cfg b tx lg o s key _ Hcl Hin) as [amount Hin'].
  pose proof (Forall_In_event _ _ _
                (mirror_sell_sends cfg b key tx lg o amount (mark_seen key s)) Hin') as H.
  cbn in H.
  destruct H as (Hlive & balance & q & q' & Hb & Hq & Hf & Hto & Hdata & Hnt & Hnd & Hv).
  exists balance, q, q'. repeat split; auto.
  - intros Hsp. unfold final_quote in Hf. rewrite Hsp in Hf. congruence.
  - intros a Ha Hle. unfold final_quote in Hf. rewrite Ha in Hf.
    apply Z.leb_le in Hle. rewrite Hle in Hf.
    destruct (nonempty (quote_spender q) && isHexAddress (quote_spender q)); congruence.
  - intros a h Hsp Ha Hlt Hh Hne. unfold final_quote in Hf.
    rewrite Hsp, Ha, Hh, Hne in Hf. apply Z.leb_gt in Hlt. rewrite Hlt in Hf.
    destruct (o_approve_receipt o) as [[|]|]; congruence.
Qed.

(** X16.  On the buy branch every quote request is for TRADE_WEI of the
    native-currency placeholder; a trade record is pushed, dry-run or live,
    only for a quote that carries both a destination and data; and a
    transaction is sent only in live mode, with the destination and data of
    that quote as they are and its value, or TRADE_WEI when the quote gives
    none. *)
Theorem X16_buy_sends_the_quote_as_it_is (cfg : Config) (b : Z) (tx : Tx) (lg : Log)
    (o : Oracle) (s : State) (key : string) (e : Event) :
  classify cfg tx lg = Some (buy, key) ->
  In e (trace_of (process_log cfg b tx (lg, o) s)) ->
  match e with
  | EvSignal _ _ (AQuote sellToken _ amount) =>
      sellToken = ETH_PLACEHOLDER /\ amount = TRADE_WEI cfg
  | EvSignal _ _ (ATrade t) =>
      exists q, o_quote o = Some q /\ nonempty (q_to q) = true /\ nonempty (q_data q) = true
  | EvSignal _ _ (ASend to data v) =>
      DRY_RUN cfg = false
      /\ exists q, o_quote o = Some q /\ to = q_to q /\ data = q_data q
           /\ nonempty to = true /\ nonempty data = true
           /\ quote_value q (TRADE_WEI cfg) = Some v
  | _ => True
  end.
Proof.
  intros Hcl Hin.
  destruct (buy_events_of_log cfg b tx lg o s key _ Hcl Hin) as [amount Hin'].
  pose proof (Forall_In_event _ _ _
                (mirror_buy_events cfg b key tx lg o amount (mark_seen key s)) Hin') as H.
  destruct e as [b0|b0 k0 a|snap]; try exact I.
  destruct a; try exact I; exact H.
Qed.

Lemma sample_sell_send :
  In SamplesSend.sell_send
     (trace_of (process_log Samples.cfg_live 100 SamplesSend.sell_tx
                  (Samples.sell_log, Samples.oracle0 1000000) (Samples.st_at 99))).
Proof. vm_compute. auto 12. Qed.

Lemma sample_buy_send :
  In SamplesSend.buy_send
     (trace_of (process_log Samples.cfg_live 100 SamplesSend.buy_tx
                  (Samples.buy_log, Samples.oracle0 1000000) (Samples.st_at 99))).
Proof. vm_compute. auto 12. Qed.

Lemma X14_sell_sends_only_with_allowance_witness :
  classify Samples.cfg_live SamplesSend.sell_tx Samples.sell_log = Some (sell, Samples.key_ab)
  /\ In SamplesSend.sell_send
        (trace_of (process_log Samples.cfg_live 100 SamplesSend.sell_tx
                     (Samples.sell_log, Samples.oracle0 1000000) (Samples.st_at 99)))
  /\ DRY_RUN Samples.cfg_live = false.
Proof.
  split; [reflexivity|]. split; [exact sample_sell_send|].
  exact (proj1 (X14_sell_sends_only_with_allowance Samples.cfg_live 100 SamplesSend.sell_tx
                  Samples.sell_log (Samples.oracle0 1000000) (Samples.st_at 99) Samples.key_ab
                  100 Samples.key_ab _ _ 0 eq_refl sample_sell_send)).
Defined.

Lemma X15_sell_sends_the_fresh_quote_witness :
  classify Samples.cfg_live SamplesSend.sell_tx Samples.sell_log = Some (sell, Samples.key_ab)
  /\ In SamplesSend.sell_send
        (trace_of (process_log Samples.cfg_live 100 SamplesSend.sell_tx
                     (Samples.sell_log, Samples.oracle0 1000000) (Samples.st_at 99)))
  /\ exists q', "0x00000000000000000000000000000000000000cc" = q_to q'
                /\ quote_value q' 0 = Some 0.
Proof.
  split; [reflexivity|]. split; [exact sample_sell_send|].
  destruct (X15_sell_sends_the_fresh_quote Samples.cfg_live 100 SamplesSend.sell_tx
              Samples.sell_log (Samples.oracle0 1000000) (Samples.st_at 99) Samples.key_ab
              100 Samples.key_ab _ _ 0 eq_refl sample_sell_send)
    as (balance & q & q' & _ & _ & Hto & _ & _ & _ & Hv & _).
  exists q'. split; [exact Hto|exact Hv].
Defined.

Lemma X16_buy_sends_the_quote_as_it_is_witness :
  classify Samples.cfg_live SamplesSend.buy_tx Samples.buy_log = Some (buy, Samples.key_aa)
  /\ In SamplesSend.buy_send
        (trace_of (process_log Samples.cfg_live 100 SamplesSend.buy_tx
                     (Samples.buy_log, Samples.oracle0 1000000) (Samples.st_at 99)))
  /\ DRY_RUN Samples.cfg_live = false.
Proof.
  split; [reflexivity|]. split; [exact sample_buy_send|].
  exact (proj1 (X16_buy_sends_the_quote_as_it_is Samples.cfg_live 100 SamplesSend.buy_tx
                  Samples.buy_log (Samples.oracle0 1000000) (Samples.st_at 99) Samples.key_aa
                  SamplesSend.buy_send eq_refl sample_buy_send)).
Defined.

(* ------------------------------------------------------------------ *)
(** ** Addresses, topics and keys *)

Lemma lower_ascii_idem c : lower_ascii (lower_ascii c) = lower_ascii c.
Proof. destruct c as [[] [] [] [] [] [] [] []]; reflexivity. Qed.

Lemma is_hex_digit_lower c : is_hex_digit (lower_ascii c) = is_hex_digit c.
Proof. destruct c as [[] [] [] [] [] [] [] []]; reflexivity. Qed.

Lemma toLowerCase_idem s : toLowerCase (toLowerCase s) = toLowerCase s.
Proof. induction s as [|c s IH]; cbn; [reflexivity|]. now rewrite lower_ascii_idem, IH. Qed.

Lemma toLowerCase_length s : String.length (toLowerCase s) = String.length s.
Proof. induction s as [|c s IH]; cbn; auto. Qed.

Lemma toLowerCase_app s1 s2 :
  toLowerCase (s1 ++ s2) = (toLowerCase s1 ++ toLowerCase s2)%string.
Proof. induction s1 as [|c s1 IH]; cbn; [reflexivity|]. now rewrite IH. Qed.

Lemma all_hex_lower s : all_hex (toLowerCase s) = all_hex s.
Proof. induction s as [|c s IH]; cbn; [reflexivity|]. now rewrite is_hex_digit_lower, IH. Qed.

Lemma isHexAddress_shape a :
  isHexAddress a = true ->
  exists r, a = String "0" (String "x" r) /\ String.length r = 40%nat /\ all_hex r = true.
Proof.
  intros H. destruct a as [|c0 a]; [discriminate H|].
  destruct c0 as [[] [] [] [] [] [] [] []]; try discriminate H.
  destruct a as [|c1 r]; [discriminate H|].
  destruct c1 as [[] [] [] [] [] [] [] []]; try discriminate H.
  cbn in H. apply andb_true_iff in H. destruct H as [Hl Hh].
  apply Nat.eqb_eq in Hl. exists r. auto.
Qed.

Lemma string_app_inv_head (p a b : string) : (p ++ a = p ++ b)%string -> a = b.
Proof. induction p as [|c p IH]; cbn; intros H; [exact H|]. inversion H. auto. Qed.

Lemma string_app_length (a b : string) :
  String.length (a ++ b) = (String.length a + String.length b)%nat.
Proof. induction a as [|c a IH]; cbn; auto. Qed.

(** X17.  Addresses are compared without regard to letter case, and a topic
    stands for exactly one address: [normalizeAddr] is idempotent and keeps a
    well-formed address well-formed; the topic of a well-formed address is 66
    characters long and already normalized; and two well-formed addresses have
    the same topic exactly when they are the same up to letter case. *)
Theorem X17_topic_stands_for_one_address (a w : string) :
  isHexAddress a = true ->
  isHexAddress w = true ->
  normalizeAddr (normalizeAddr a) = normalizeAddr a
  /\ isHexAddress (normalizeAddr a) = true
  /\ String.length (topicForAddress a) = 66%nat
  /\ normalizeAddr (topicForAddress a) = topicForAddress a
  /\ (topicForAddress a = topicForAddress w <-> normalizeAddr a = normalizeAddr w).
Proof.
  intros Ha Hw.
  destruct (isHexAddress_shape a Ha) as (ra & -> & Hla & Hha).
  destruct (isHexAddress_shape w Hw) as (rw & -> & Hlw & Hhw).
  unfold normalizeAddr, topicForAddress.
  split; [apply toLowerCase_idem|]. split.
  { cbn. rewrite toLowerCase_length, Hla, all_hex_lower, Hha. reflexivity. }
  split.
  { cbn [toLowerCase slice_from normalizeAddr]. unfold normalizeAddr. cbn.
    rewrite toLowerCase_length, Hla. reflexivity. }
  split.
  { cbn. now rewrite toLowerCase_idem. }
  cbn. split.
  - intros H. inversion H. reflexivity.
  - intros H. inversion H. reflexivity.
Qed.

Lemma X17_topic_stands_for_one_address_witness :
  isHexAddress "0x2ACaC49b7920D80C3C329E30ca93D0C4b4849eC6" = true
  /\ isHexAddress "0x2acac49b7920d80c3c329e30ca93d0c4b4849ec6" = true
  /\ (topicForAddress "0x2ACaC49b7920D80C3C329E30ca93D0C4b4849eC6"
      = topicForAddress "0x2acac49b7920d80c3c329e30ca93d0c4b4849ec6"
      <-> normalizeAddr "0x2ACaC49b7920D80C3C329E30ca93D0C4b4849eC6"
          = normalizeAddr "0x2acac49b7920d80c3c329e30ca93d0c4b4849ec6").
Proof.
  split; [reflexivity|]. split; [reflexivity|].
  exact (proj2 (proj2 (proj2 (proj2
           (X17_topic_stands_for_one_address
              "0x2ACaC49b7920D80C3C329E30ca93D0C4b4849eC6"
              "0x2acac49b7920d80c3c329e30ca93d0c4b4849ec6" eq_refl eq_refl))))).
Defined.

Lemma colon_split (h h' r r' : string) :
  no_colon h = true -> no_colon h' = true ->
  (h ++ String ":" r = h' ++ String ":" r')%string -> h = h' /\ r = r'.
Proof.
  revert h'. induction h as [|c h IH]; intros h' Hh Hh' E.
  - destruct h' as [|c' h']; cbn in *.
    + inversion E. auto.
    + inversion E; subst. rewrite Ascii.eqb_refl in Hh'. discriminate.
  - destruct h' as [|c' h']; cbn in *.
    + inversion E; subst. rewrite Ascii.eqb_refl in Hh. discriminate.
    + inversion E; subst.
      apply andb_true_iff in Hh, Hh'. destruct Hh as [_ Hh], Hh' as [_ Hh'].
      destruct (IH h' Hh Hh' H1) as [-> ->]. auto.
Qed.

Lemma no_colon_hex s : all_hex s = true -> no_colon s = true.
Proof.
  induction s as [|c s IH]; cbn; [reflexivity|]. intros H.
  apply andb_true_iff in H. destruct H as [Hc Hs]. rewrite (IH Hs), andb_true_r.
  destruct c as [[] [] [] [] [] [] [] []]; try reflexivity; discriminate.
Qed.

(** X18.  The dedup key tells identities apart: for hashes and tokens that
    hold no colon (hex strings in particular), two keys are equal only if the
    hash, the token and the side are all equal, so marking one identity as
    seen never hides a signal of another. *)
Theorem X18_dedup_key_is_injective (h t h' t' : string) (sd sd' : Side) :
  no_colon h = true -> no_colon h' = true ->
  no_colon t = true -> no_colon t' = true ->
  dedupKey h t sd = dedupKey h' t' sd' ->
  h = h' /\ t = t' /\ sd = sd'.
Proof.
  intros Hh Hh' Ht Ht' E. unfold dedupKey in E.
  change (":" ++ t ++ ":" ++ side_string sd)%string
    with (String ":" (t ++ String ":" (side_string sd)))%string in E.
  change (":" ++ t' ++ ":" ++ side_string sd')%string
    with (String ":" (t' ++ String ":" (side_string sd')))%string in E.
  destruct (colon_split _ _ _ _ Hh Hh' E) as [-> E1].
  destruct (colon_split _ _ _ _ Ht Ht' E1) as [-> E2].
  repeat split. destruct sd, sd'; cbn in E2; congruence.
Qed.

Lemma X18_dedup_key_is_injective_witness :
  no_colon "0xaa" = true /\ no_colon "0xaa" = true
  /\ no_colon "0x00000000000000000000000000000000000000bb" = true
  /\ no_colon "0x00000000000000000000000000000000000000bb" = true
  /\ dedupKey "0xaa" "0x00000000000000000000000000000000000000bb" buy = Samples.key_aa
  /\ buy = buy.
Proof.
  repeat (split; [reflexivity|]).
  exact (proj2 (proj2 (X18_dedup_key_is_injective
                         "0xaa" "0x00000000000000000000000000000000000000bb"
                         "0xaa" "0x00000000000000000000000000000000000000bb" buy buy
                         eq_refl eq_refl eq_refl eq_refl eq_refl))).
Defined.

(* ------------------------------------------------------------------ *)
(** ** Boolean settings *)

(** X19.  Dry-run is on exactly when DRY_RUN is unset, empty, or one of 1,
    true, yes, on in any letter case; every other value, a misspelt one
    included, turns it off. *)
Theorem X19_dry_run_setting (v : option string) :
  dry_run_setting v = true
  <-> v = None \/ v = Some ""
      \/ exists s, v = Some s /\ In (toLowerCase s) ["1"; "true"; "yes"; "on"].
Proof.
  unfold dry_run_setting, env, toBool. destruct v as [s|].
  - destruct (String.eqb_spec s "") as [->|Hne].
    + split; [auto|reflexivity].
    + rewrite includes_In. split.
      * intros H. right. right. eauto.
      * intros [H|[H|(s' & H & Hin)]]; congruence.
  - split; [auto|reflexivity].
Qed.

(* ------------------------------------------------------------------ *)
(** ** The report of the log endpoint *)

Section SortDescFacts.

Context {A : Type}.
Variable key : A -> Z.

Lemma insert_desc_perm x l : Permutation (insert_desc key x l) (x :: l).
Proof.
  induction l as [|y r IH]; cbn; [reflexivity|].
  destruct (key x <? key y); [|reflexivity].
  rewrite IH. apply perm_swap.
Qed.

Lemma sort_desc_perm l : Permutation (sort_desc key l) l.
Proof.
  induction l as [|x l IH]; cbn; [reflexivity|].
  rewrite insert_desc_perm. now constructor.
Qed.

Lemma insert_desc_sorted x l :
  StronglySorted (desc key) l -> StronglySorted (desc key) (insert_desc key x l).
Proof.
  induction 1 as [|y r Hr IH Hy]; cbn.
  - repeat constructor.
  - destruct (Z.ltb_spec (key x) (key y)) as [Hlt|Hge].
    + constructor; [exact IH|].
      rewrite Forall_forall. intros z Hz.
      apply (Permutation_in _ (insert_desc_perm x r)) in Hz. destruct Hz as [<-|Hz].
      * unfold desc. lia.
      * rewrite Forall_forall in Hy. auto.
    + constructor; [constructor; assumption|].
      constructor; [unfold desc; lia|].
      rewrite Forall_forall in *. intros z Hz. specialize (Hy z Hz). unfold desc in *. lia.
Qed.

Lemma sort_desc_sorted l : StronglySorted (desc key) (sort_desc key l).
Proof.
  induction l as [|x l IH]; cbn; [constructor|]. now apply insert_desc_sorted.
Qed.

Lemma insert_desc_stable k x l :
  filter (fun y => key y =? k) (insert_desc key x l)
  = filter (fun y => key y =? k) (x :: l).
Proof.
  induction l as [|y r IH]; [reflexivity|]. cbn [insert_desc].
  destruct (Z.ltb_spec (key x) (key y)) as [Hlt|Hge]; [|reflexivity].
  cbn [filter] in *. rewrite IH.
  destruct (Z.eqb_spec (key x) k) as [Hx|Hx], (Z.eqb_spec (key y) k) as [Hy|Hy];
    try reflexivity. lia.
Qed.

Lemma sort_desc_stable k l :
  filter (fun y => key y =? k) (sort_desc key l) = filter (fun y => key y =? k) l.
Proof.
  induction l as [|x l IH]; [reflexivity|]. cbn [sort_desc fold_right].
  rewrite insert_desc_stable. cbn [filter]. fold (sort_desc key l). now rewrite IH.
Qed.

Lemma in_skipn (l : list A) n y : In y (skipn n l) -> In y l.
Proof.
  revert l. induction n as [|n IH]; intros [|z r] H; cbn in *; auto.
Qed.

Lemma in_firstn (l : list A) n y : In y (firstn n l) -> In y l.
Proof.
  revert l. induction n as [|n IH]; intros [|z r] H; cbn in *; try contradiction.
  destruct H; auto.
Qed.

Lemma sorted_split (l : list A) n x y :
  StronglySorted (desc key) l -> In x (firstn n l) -> In y (skipn n l) -> key y <= key x.
Proof.
  intros Hs. revert n. induction Hs as [|z r Hr IH Hz]; intros n Hx Hy.
  - destruct n; contradiction.
  - destruct n as [|n]; [contradiction|]. cbn in Hx, Hy. destruct Hx as [<-|Hx].
    + rewrite Forall_forall in Hz. apply Hz. eapply in_skipn; eauto.
    + eapply IH; eauto.
Qed.

End SortDescFacts.

(** X20.  The trades of the report are the trades of the state file, each
    once, newest first by [tsMs] (a missing one counts as 0), trades of equal
    time in file order; the list shown is cut at 200 and holds no trade older
    than one it leaves out; and the executed count never exceeds the signal
    count, which is the number of trades on file. *)
Theorem X20_report_orders_trades (l : list FileTrade) :
  Permutation (tradesDesc l) l
  /\ StronglySorted (fun a b => ts_key b <= ts_key a) (tradesDesc l)
  /\ (forall k, filter (fun t => ts_key t =? k) (tradesDesc l)
                = filter (fun t => ts_key t =? k) l)
  /\ (List.length (shown_trades l) <= 200)%nat
  /\ (forall x y, In x (shown_trades l) -> In y (skipn 200 (tradesDesc l)) ->
        ts_key y <= ts_key x)
  /\ totalSignals l = List.length l
  /\ (totalExecuted l <= totalSignals l)%nat.
Proof.
  unfold tradesDesc, shown_trades, totalSignals, totalExecuted, executed, tradesDesc.
  split; [apply sort_desc_perm|].
  split; [apply (sort_desc_sorted ts_key)|].
  split; [intros k; apply sort_desc_stable|].
  split; [apply firstn_le_length|].
  split; [intros x y; apply (sorted_split ts_key), sort_desc_sorted|].
  split; [apply Permutation_length, sort_desc_perm|].
  apply filter_length_le.
Qed.

(* ------------------------------------------------------------------ *)
(** ** From the engine to the report *)

Lemma files_follow_app t1 : forall cur t2,
  files_follow cur (t1 ++ t2)
  <-> files_follow cur t1 /\ files_follow (cur ++ pushed t1) t2.
Proof.
  induction t1 as [|e t1 IH]; intros cur t2.
  - cbn. rewrite app_nil_r. tauto.
  - destruct e as [b|b k a|snap]; cbn [app files_follow].
    + rewrite IH. reflexivity.
    + destruct a; rewrite IH; cbn; try reflexivity.
      rewrite <- app_assoc. reflexivity.
    + rewrite IH. cbn. tauto.
Qed.

Lemma written_rel_stable : stable written_rel.
Proof.
  split.
  - intros s. unfold written_rel. cbn. now rewrite app_nil_r.
  - intros s s1 s2 t1 t2 (T1 & F1) (T2 & F2). unfold written_rel.
    rewrite pushed_app, T2, T1, app_assoc. split; [reflexivity|].
    apply files_follow_app. rewrite <- T1. auto.
Qed.

Lemma trades_trimmed s : trades (trimmed s) = slice_last 2000 (trades s).
Proof. reflexivity. Qed.

#[local] Opaque trimmed maxUint256 slice_last.

Ltac written_done :=
  unfold written_rel, pushed, state_of, trace_of; cbn;
  repeat match goal with
         | |- _ /\ _ => split
         | |- True => exact I
         | |- trades (trimmed _) = _ => apply trades_trimmed
         | |- ?l = ?l ++ [] => symmetry; apply app_nil_r
         | |- _ = _ => reflexivity
         end.

Lemma mirror_buy_written cfg b key tx lg o amount s :
  written_rel s (state_of (mirror_buy cfg b key tx lg o amount s))
    (trace_of (mirror_buy cfg b key tx lg o amount s)).
Proof.
  unfold mirror_buy, bind, call, emit, guard, lift, ret, skip, record_trade,
    push_trade, persistState.
  repeat (cbn; try branch_case); written_done.
Qed.

Lemma mirror_sell_written cfg b key tx lg o amount s :
  written_rel s (state_of (mirror_sell cfg b key tx lg o amount s))
    (trace_of (mirror_sell cfg b key tx lg o amount s)).
Proof.
  unfold mirror_sell, ensureAllowance, bind, call, emit, guard, lift, ret, skip,
    record_trade, push_trade, persistState.
  repeat (cbn; try branch_case); written_done.
Qed.

#[local] Transparent trimmed maxUint256 slice_last.

Lemma process_log_written cfg b tx lo : respects written_rel (process_log cfg b tx lo).
Proof.
  destruct lo as [lg o]. intros s.
  destruct (process_log_shape cfg b tx lg o s)
    as [(Ht & Htr & _)|(sd & key & amount & _ & E)].
  - unfold written_rel. rewrite Ht, Htr. cbn. now rewrite app_nil_r.
  - rewrite E. destruct sd; cbn [mirror].
    + apply (mirror_buy_written cfg b key tx lg o amount (mark_seen key s)).
    + apply (mirror_sell_written cfg b key tx lg o amount (mark_seen key s)).
Qed.

Lemma run_written cfg ws : respects written_rel (run cfg ws).
Proof.
  pose proof written_rel_stable as HR.
  unfold run. respects_step HR. unfold run_cycle. repeat respects_step HR.
  unfold process_block. respects_step HR.
  - intros s. unfold written_rel. cbn. now rewrite app_nil_r.
  - respects_step HR.
    + respects_step HR. unfold process_tx. repeat respects_step HR.
      apply process_log_written.
    + intros s. unfold written_rel. cbn. rewrite app_nil_r. auto.
Qed.

Lemma run_file_trades cfg ws st pre snap post :
  trace_of (run cfg ws st) = pre ++ EvPersist snap :: post ->
  trades snap = slice_last 2000 (trades st ++ pushed pre).
Proof.
  intros E. destruct (run_written cfg ws st) as [_ F].
  rewrite E in F. apply files_follow_app in F. destruct F as [_ F].
  cbn in F. tauto.
Qed.

(** X21.  Whenever the engine writes the state file, its trades are the last
    2000 of the trades in memory at that point: those it started with followed
    by every record pushed so far in the run, the one just pushed included. *)
Theorem X21_file_holds_latest_trades (cfg : Config) (ws : list World) (st : State)
    (pre post : list Event) (snap : State) :
  trace_of (run cfg ws st) = pre ++ EvPersist snap :: post ->
  trades snap = slice_last 2000 (trades st ++ pushed pre)
  /\ (forall t, In t (trades snap) -> In t (trades st) \/ In t (pushed pre))
  /\ (Z.of_nat (List.length (trades st ++ pushed pre)) <= 2000 ->
      trades snap = trades st ++ pushed pre).
Proof.
  intros E. pose proof (run_file_trades cfg ws st pre snap post E) as H.
  split; [exact H|]. split.
  - intros t Hin. rewrite H in Hin.
    destruct (slice_last_suffix 2000 (trades st ++ pushed pre)) as [d Hd].
    apply in_app_or. rewrite Hd. apply in_or_app. now right.
  - intros Hlen. rewrite H. now apply slice_last_short.
Qed.

Lemma X21_file_holds_latest_trades_witness :
  trades (mkState [Samples.key_aa] [SamplesTrace.trade_aa] (Some 99))
  = slice_last 2000
      (trades (Samples.st_at 99)
       ++ pushed (SamplesTrace.before_trade
                  ++ [EvSignal 100 Samples.key_aa (ATrade SamplesTrace.trade_aa)])).
Proof.
  exact (proj1 (X21_file_holds_latest_trades Samples.cfg_dry [Samples.world_aa 100]
                  (Samples.st_at 99)
                  (SamplesTrace.before_trade
                   ++ [EvSignal 100 Samples.key_aa (ATrade SamplesTrace.trade_aa)])
                  [EvPersist (mkState [Samples.key_aa] [SamplesTrace.trade_aa] (Some 100))]
                  (mkState [Samples.key_aa] [SamplesTrace.trade_aa] (Some 99))
                  eq_refl)).
Defined.

Lemma executed_none (l : list FileTrade) :
  Forall (fun t => ft_dryRun t = true \/ ft_followerTx t = "") l -> totalExecuted l = 0%nat.
Proof.
  intros H. unfold totalExecuted, executed.
  assert (Hs : Forall (fun t => ft_dryRun t = true \/ ft_followerTx t = "") (tradesDesc l)).
  { rewrite Forall_forall in *. intros t Ht. apply H.
    apply (Permutation_in _ (sort_desc_perm ts_key l)). exact Ht. }
  induction Hs as [|t r Ht _ IH]; cbn; [reflexivity|].
  destruct Ht as [->| ->]; cbn; [exact IH|].
  rewrite andb_false_r. exact IH.
Qed.

(** X22.  A dry run started on a history without executed trades never leaves
    a state file from which the report counts an executed trade: on every
    file it writes the executed count is 0, and the signal count is the
    number of trades on file, at most 2000. *)
Theorem X22_dry_run_reports_nothing_executed (cfg : Config) (ws : list World) (st : State)
    (snap : State) :
  DRY_RUN cfg = true ->
  Forall not_executed (trades st) ->
  In (EvPersist snap) (trace_of (run cfg ws st)) ->
  totalExecuted (map to_file_trade (trades snap)) = 0%nat
  /\ totalSignals (map to_file_trade (trades snap)) = List.length (trades snap)
  /\ Z.of_nat (totalSignals (map to_file_trade (trades snap))) <= 2000.
Proof.
  intros Hdry Hst Hin.
  assert (Hn : totalSignals (map to_file_trade (trades snap)) = List.length (trades snap)).
  { unfold totalSignals, tradesDesc.
    rewrite (Permutation_length (sort_desc_perm ts_key _)). apply length_map. }
  split; [|split; [exact Hn|]].
  - apply executed_none. rewrite Forall_forall. intros ft Hft.
    apply in_map_iff in Hft. destruct Hft as (t & <- & Ht).
    destruct (in_split _ _ Hin) as (pre & post & E).
    rewrite (run_file_trades cfg ws st pre snap post E) in Ht.
    destruct (slice_last_suffix 2000 (trades st ++ pushed pre)) as [d Hd].
    assert (Hall : In t (trades st ++ pushed pre)) by (rewrite Hd; apply in_or_app; now right).
    assert (Hno : not_executed t).
    { apply in_app_or in Hall. destruct Hall as [Hold|Hnew].
      - rewrite Forall_forall in Hst. auto.
      - assert (Hp : In t (pushed (trace_of (run cfg ws st)))).
        { rewrite E, pushed_app. apply in_or_app. now left. }
        unfold pushed in Hp. apply in_flat_map in Hp. destruct Hp as (e & He & Hte).
        pose proof (Forall_In_event _ _ _ (run_dry cfg ws st Hdry) He) as Hd'.
        destruct e as [b|b k a|sn]; try contradiction.
        destruct a; try contradiction. destruct Hte as [<-|[]].
        cbn in Hd'. right. tauto. }
    destruct Hno as [Hd'|Hf]; cbn; [left; exact Hd'|right; now rewrite Hf].
  - rewrite Hn.
    pose proof (Forall_In_event _ _ _ (run_trimmed_writes cfg ws st) Hin) as [s0 ->].
    apply (trimmed_bounded s0).
Qed.

Lemma X22_dry_run_reports_nothing_executed_witness :
  totalExecuted
    (map to_file_trade (trades (mkState [Samples.key_aa] [SamplesTrace.trade_aa] (Some 100))))
  = 0%nat.
Proof.
  exact (proj1 (X22_dry_run_reports_nothing_executed Samples.cfg_dry [Samples.world_aa 100]
                  (Samples.st_at 99)
                  (mkState [Samples.key_aa] [SamplesTrace.trade_aa] (Some 100))
                  eq_refl (Forall_nil _)
                  (or_intror (or_intror (or_intror (or_intror (or_intror
                     (or_introl eq_refl)))))))).
Defined.

(* ------------------------------------------------------------------ *)
(** ** The tail of the log file *)

Lemma push_char_no_lf c l :
  is_lf c = false -> Forall (fun x => has_lf x = false) l ->
  Forall (fun x => has_lf x = false) (push_char c l).
Proof.
  intros Hc Hl. destruct Hl as [|h t Hh Ht]; cbn.
  - constructor; [cbn; now rewrite Hc|constructor].
  - constructor; [cbn; now rewrite Hc, Hh|exact Ht].
Qed.

Lemma split_lines_no_lf_upto n : forall s,
  (String.length s <= n)%nat -> Forall (fun x => has_lf x = false) (split_lines s).
Proof.
  induction n as [|n IH]; intros s Hn.
  - destruct s; [repeat constructor|cbn in Hn; lia].
  - destruct s as [|c r]; [repeat constructor|]. cbn in Hn. cbn [split_lines].
    destruct (is_lf c) eqn:Hc.
    + constructor; [reflexivity|]. apply IH. lia.
    + destruct r as [|c' r'].
      * apply push_char_no_lf; [exact Hc|]. apply IH. cbn. lia.
      * destruct (is_cr c && is_lf c').
        -- constructor; [reflexivity|]. apply IH. cbn in Hn. lia.
        -- apply push_char_no_lf; [exact Hc|]. apply IH. lia.
Qed.

Lemma split_lines_no_lf s : Forall (fun x => has_lf x = false) (split_lines s).
Proof. apply (split_lines_no_lf_upto (String.length s)). lia. Qed.

Lemma Forall_suffix {A} (P : A -> Prop) (l1 l2 : list A) : Forall P (l1 ++ l2) -> Forall P l2.
Proof. intros H. apply Forall_app in H. tauto. Qed.

Lemma Forall_filter {A} (P : A -> Prop) (f : A -> bool) (l : list A) :
  Forall P l -> Forall P (filter f l).
Proof.
  intros H. rewrite Forall_forall in *. intros x Hx. apply filter_In in Hx. apply H. tauto.
Qed.

Lemma Forall_slice_last {A} (P : A -> Prop) n (l : list A) :
  Forall P l -> Forall P (slice_last n l).
Proof.
  intros H. destruct (slice_last_suffix n l) as [d Hd]. rewrite Hd in H.
  exact (Forall_suffix _ _ _ H).
Qed.

Lemma slice_last_exact {A} (n : Z) (l : list A) :
  0 <= n -> Z.of_nat (List.length (slice_last n l)) = Z.min n (Z.of_nat (List.length l)).
Proof. intros Hn. unfold slice_last. rewrite length_skipn. lia. Qed.

(** X23.  Whatever the [lines] parameter, the line count lies between 20 and
    600, and the log tail is the last that many of the non-empty lines of the
    file, all of them when there are fewer: never more than 600 lines, none
    empty, none holding a line feed. *)
Theorem X23_log_tail_is_bounded (dflt : Z) (lines : option Z) (input : string) :
  20 <= lineCount dflt lines <= 600
  /\ Z.of_nat (List.length (tailLines input (lineCount dflt lines)))
     = Z.min (lineCount dflt lines)
         (Z.of_nat (List.length (filter nonempty (split_lines input))))
  /\ (exists dropped,
        filter nonempty (split_lines input)
        = dropped ++ tailLines input (lineCount dflt lines))
  /\ Forall (fun l => l <> "" /\ has_lf l = false) (tailLines input (lineCount dflt lines)).
Proof.
  assert (Hc : 20 <= lineCount dflt lines <= 600) by (unfold lineCount; lia).
  split; [exact Hc|]. unfold tailLines.
  split; [apply slice_last_exact; lia|].
  split; [apply slice_last_suffix|].
  apply Forall_slice_last. rewrite Forall_forall. intros l Hl.
  apply filter_In in Hl. destruct Hl as [Hin Hne]. split.
  - intros ->. discriminate Hne.
  - pose proof (split_lines_no_lf input) as H. rewrite Forall_forall in H. auto.
Qed.

(* ------------------------------------------------------------------ *)
(** ** The per-token table *)

Lemma fold_sum_shift {A} (f : A -> Z) (l : list A) : forall acc,
  fold_left (fun a r => a + f r) l acc = acc + fold_left (fun a r => a + f r) l 0.
Proof.
  induction l as [|x l IH]; intros acc; cbn; [lia|].
  rewrite (IH (acc + f x)), (IH (f x)). lia.
Qed.

Lemma fold_sum_perm {A} (f : A -> Z) (l1 l2 : list A) :
  Permutation l1 l2 ->
  fold_left (fun a r => a + f r) l1 0 = fold_left (fun a r => a + f r) l2 0.
Proof.
  induction 1 as [|x l1 l2 _ IH|x y l|l1 l2 l3 _ IH1 _ IH2]; cbn.
  - reflexivity.
  - rewrite (fold_sum_shift f l1), (fold_sum_shift f l2), IH. reflexivity.
  - f_equal. lia.
  - congruence.
Qed.

(** X24.  The per-token table lists every position of the state file once,
    highest realized profit first and equal ones in file order, a profit that
    does not read as an integer counting as 0; and the total shown is the sum
    of those profits over the positions, whatever their order. *)
Theorem X24_token_report_total (BigInt : string -> option Z)
    (positions : list (string * option string)) :
  Permutation (tokenReport BigInt positions) (map to_row positions)
  /\ StronglySorted (fun a b => pnl_key BigInt b <= pnl_key BigInt a)
       (tokenReport BigInt positions)
  /\ (forall k, filter (fun r => pnl_key BigInt r =? k) (tokenReport BigInt positions)
                = filter (fun r => pnl_key BigInt r =? k) (map to_row positions))
  /\ totalRealizedPnlWei BigInt positions
     = fold_right (fun e acc => pnl_key BigInt (to_row e) + acc) 0 positions.
Proof.
  unfold tokenReport, totalRealizedPnlWei, tokenReport.
  split; [apply sort_desc_perm|].
  split; [apply (sort_desc_sorted (pnl_key BigInt))|].
  split; [intros k; apply sort_desc_stable|].
  rewrite (fold_sum_perm _ _ _ (sort_desc_perm (pnl_key BigInt) (map to_row positions))).
  induction positions as [|e l IH]; cbn; [reflexivity|].
  rewrite fold_sum_shift, IH. lia.
Qed.

(* ------------------------------------------------------------------ *)
(** ** Where a trade record comes from *)

Section RespectsThen.

Variable R : Rel.
Hypothesis R_stable : stable R.

(** the steps of a [respects] proof that keep what the guard, the read or the
    call established for what follows *)
Lemma respects_guard_then {B} (c : bool) (m : M B) :
  (c = true -> respects R m) -> respects R (bind (guard c) (fun _ => m)).
Proof.
  intros Hm s. destruct c; unfold bind, guard, ret, skip.
  - specialize (Hm eq_refl s). destruct (m s) as [[r s2] t2]. exact Hm.
  - apply (stable_nil R R_stable).
Qed.

Lemma respects_lift_then {A B} (o : option A) (f : A -> M B) :
  (forall a, o = Some a -> respects R (f a)) -> respects R (bind (lift o) f).
Proof.
  intros Hf s. destruct o as [a|]; unfold bind, lift.
  - specialize (Hf a eq_refl s). destruct (f a s) as [[r s2] t2]. exact Hf.
  - apply (stable_nil R R_stable).
Qed.

Lemma respects_call_then {A B} (e : Event) (answer : option A) (f : A -> M B) :
  (forall s, R s s [e]) ->
  (forall a, answer = Some a -> respects R (f a)) -> respects R (bind (call e answer) f).
Proof.
  intros He Hf s. destruct answer as [a|]; unfold bind, call.
  - specialize (Hf a eq_refl s). destruct (f a s) as [[r s2] t2].
    unfold state_of, trace_of in *. cbn [fst snd] in *.
    apply (stable_app R R_stable s s s2 [e] t2); auto.
  - apply He.
Qed.

End RespectsThen.

#[local] Opaque trimmed maxUint256 Z.quot.

Ltac sent_hash_done :=
  repeat match goal with
         | |- Forall _ [] => constructor
         | |- Forall _ (_ :: _) => constructor
         | |- sent_hash_recorded _ _ _ => cbn
         | |- True => exact I
         | |- _ -> _ => intro
         | H1 : ?x = true, H2 : ?x = false |- _ => congruence
         | |- exists _, _ => eexists; split; [eassumption|reflexivity]
         end.

Lemma mirror_buy_hash cfg b key tx lg o amount s :
  Forall (sent_hash_recorded cfg o) (trace_of (mirror_buy cfg b key tx lg o amount s)).
Proof.
  unfold mirror_buy, bind, call, emit, guard, lift, ret, skip,
    record_trade, push_trade, persistState, trace_of.
  repeat (cbn; try branch_case); sent_hash_done.
Qed.

Lemma mirror_sell_hash cfg b key tx lg o amount s :
  Forall (sent_hash_recorded cfg o) (trace_of (mirror_sell cfg b key tx lg o amount s)).
Proof.
  unfold mirror_sell, ensureAllowance, bind, call, emit, guard, lift, ret, skip,
    record_trade, push_trade, persistState, trace_of.
  repeat (cbn; try branch_case); sent_hash_done.
Qed.

#[local] Transparent trimmed maxUint256 Z.quot.

Lemma record_traced_mono cfg (src1 src2 : Z -> Tx -> Log -> Oracle -> Prop) e :
  (forall b tx lg o, src1 b tx lg o -> src2 b tx lg o) ->
  record_traced cfg src1 e -> record_traced cfg src2 e.
Proof.
  intros Hs. destruct e as [b|b k a|snap]; try exact (fun H => H).
  destruct a; try exact (fun H => H). cbn.
  intros (tx & lg & o & h & H1 & H). exists tx, lg, o, h. split; [auto|exact H].
Qed.

Section Traced.

Variable cfg : Config.
Variable ws : list World.
Hypothesis live : DRY_RUN cfg = false.

Lemma process_log_traced b tx lg o s :
  Forall (record_traced cfg (fun b' tx' lg' o' => b' = b /\ tx' = tx /\ lg' = lg /\ o' = o))
    (trace_of (process_log cfg b tx (lg, o) s)).
Proof.
  rewrite Forall_forall. intros e Hin.
  destruct e as [b'|b' k a|snap]; try exact I. destruct a; try exact I. cbn.
  destruct (events_need_all_guards cfg b tx lg o s b' k _ Hin)
    as (-> & sd & amount & Hg & Ht).
  destruct (Ht t eq_refl) as (Hside & Hw & Htok & _).
  destruct Hg as (Hcl & _).
  assert (Hh : sent_hash_recorded cfg o (EvSignal b k (ATrade t))).
  { destruct (process_log_shape cfg b tx lg o s) as [(E & _)|(sd' & key & amt & _ & E)];
      rewrite E in Hin; [contradiction|].
    destruct sd'; cbn [mirror] in Hin.
    - exact (Forall_In_event _ _ _ (mirror_buy_hash cfg b key tx lg o amt _) Hin).
    - exact (Forall_In_event _ _ _ (mirror_sell_hash cfg b key tx lg o amt _) Hin). }
  destruct (Hh live) as (h & Hs & Hf).
  exists tx, lg, o, h. rewrite Hside. auto 10.
Qed.

Lemma process_tx_traced w b txs item :
  In w ws -> w_getBlock w b = Some txs -> In item txs ->
  respects (events_rel (record_traced cfg (entry_of cfg ws))) (process_tx cfg b item).
Proof.
  intros Hw Hb Hitem.
  pose proof (events_rel_stable (record_traced cfg (entry_of cfg ws))) as HR.
  unfold process_tx. destruct item as [h|tx]; [respects_step HR|].
  apply (respects_guard_then _ HR). intros Hfrom.
  apply (respects_guard_then _ HR). intros Hhash.
  apply (respects_lift_then _ HR). intros r Hr.
  apply (respects_guard_then _ HR). intros Hok.
  apply (respects_for_each _ HR). intros [lg o] Hlo s. unfold events_rel.
  eapply Forall_impl; [|apply process_log_traced].
  intros e. apply record_traced_mono.
  intros b' tx' lg' o' (-> & -> & -> & ->).
  exists w, txs, r. repeat split; auto.
  unfold relevant. rewrite Hfrom, Hhash, Hr, Hok. reflexivity.
Qed.

Lemma process_block_traced w b :
  In w ws ->
  respects (events_rel (record_traced cfg (entry_of cfg ws))) (process_block cfg w b).
Proof.
  intros Hw.
  pose proof (events_rel_stable (record_traced cfg (entry_of cfg ws))) as HR.
  unfold process_block. apply (respects_call_then _ HR).
  - intros s. repeat constructor.
  - intros txs Hb. respects_step HR.
    + apply (respects_for_each _ HR). intros item Hitem.
      exact (process_tx_traced w b txs item Hw Hb Hitem).
    + intros s. repeat constructor.
Qed.

Lemma run_traced : respects (events_rel (record_traced cfg (entry_of cfg ws))) (run cfg ws).
Proof.
  pose proof (events_rel_stable (record_traced cfg (entry_of cfg ws))) as HR.
  unfold run. apply (respects_for_each _ HR). intros w Hw.
  unfold run_cycle. repeat respects_step HR.
  exact (process_block_traced w _ Hw).
Qed.

End Traced.

(** X3.  With DRY_RUN off, every trade record pushed by a run is flagged live
    and carries the follower transaction hash: the record comes from a log
    entry of a transaction of the watched wallet, in a block as one of the
    polls got it, and the hash it carries is the one the send for that entry
    returned; it stands under that entry's side and key, with that entry's
    token and the hash of the watched transaction.  For every dedup key the
    run pushes no more records than it sent transactions: a record is written
    only for a signal whose transaction was sent. *)
Theorem X3_live_records_follow_a_send (cfg : Config) (ws : list World) (st : State) :
  DRY_RUN cfg = false ->
  (forall t, In t (pushed (trace_of (run cfg ws st))) ->
     dryRun t = false /\ exists h, followerTx t = Some h)
  /\ (forall k, (count_sig is_trade k (trace_of (run cfg ws st))
                 <= count_sig is_send k (trace_of (run cfg ws st)))%nat)
  /\ (forall b k t, In (EvSignal b k (ATrade t)) (trace_of (run cfg ws st)) ->
        exists tx lg o h,
          entry_of cfg ws b tx lg o
          /\ classify cfg tx lg = Some (side t, k)
          /\ o_send o = Some h /\ followerTx t = Some h
          /\ watchedHash t = tx_hash tx /\ token t = lg_address lg).
Proof.
  intros Hlive. split; [|split].
  - assert (H : Forall live_event (trace_of (run cfg ws st))).
    { apply (run_events cfg live_event); try (intros; exact I).
      intros sd b key tx lg o amount s.
      destruct (mirror_more cfg sd b key tx lg o amount s) as (_ & _ & H & _).
      exact (proj1 (H Hlive)). }
    intros t Hin. unfold pushed in Hin. apply in_flat_map in Hin.
    destruct Hin as (e & He & Ht). pose proof (Forall_In_event _ _ _ H He) as Hd.
    destruct e as [b|b k a|snap]; try contradiction.
    destruct a; try contradiction. destruct Ht as [<-|[]]. exact Hd.
  - intros k. exact (run_sent cfg ws k Hlive st).
  - intros b k t Hin.
    exact (Forall_In_event _ _ _ (run_traced cfg ws Hlive st) Hin).
Qed.

Lemma X3_live_records_follow_a_send_witness :
  DRY_RUN Samples.cfg_live = false
  /\ (count_sig is_trade Samples.key_aa
        (trace_of (run Samples.cfg_live [Samples.world_aa 100] (Samples.st_at 99)))
      <= count_sig is_send Samples.key_aa
           (trace_of (run Samples.cfg_live [Samples.world_aa 100] (Samples.st_at 99))))%nat.
Proof.
  split; [reflexivity|].
  exact (proj1 (proj2 (X3_live_records_follow_a_send Samples.cfg_live [Samples.world_aa 100]
                         (Samples.st_at 99) eq_refl)) Samples.key_aa).
Defined.

(** the live run over the sample block: the one record carries 0xf1, the hash
    the send returned *)
Example live_record_sample :
  map followerTx
    (pushed (trace_of (run Samples.cfg_live [Samples.world_aa 100] (Samples.st_at 99))))
  = [o_send (Samples.oracle0 1000000)].
Proof. vm_compute. reflexivity. Qed.
